(** * spherical2images: cubemap splitting, tile orchestration and clean-up

    A shallow embedding of [src/spherical2images/utils_images.py]
    ([cubemap_splitter], [download_clip_img], [clean_files]) together with
    the parts of the Python runtime these functions rely on: strings and
    f-strings, the object store with [deepcopy], NumPy slicing of an image,
    a file system keyed by path, and exceptions with [try]/[except]. *)

From Stdlib Require Import ZArith Ascii String List Lia.
From stdpp Require Import base option list gmap strings pretty.

Open Scope Z_scope.

(* ===================================================================== *)
(** ** Python strings *)
(* ===================================================================== *)

Module PyStr.

(** [s.split(sep)] for a one-character separator: never the empty list. *)
Fixpoint split_on (sep : ascii) (s : string) : list string :=
  match s with
  | EmptyString => [EmptyString]
  | String c s' =>
      if Ascii.eqb c sep then EmptyString :: split_on sep s'
      else match split_on sep s' with
           | [] => [String c EmptyString]
           | w :: ws => String c w :: ws
           end
  end.

(** [s[len(p):]] when [s.startswith(p)]. *)
Fixpoint strip_prefix (p s : string) : option string :=
  match p with
  | EmptyString => Some s
  | String a p' =>
      match s with
      | EmptyString => None
      | String b s' => if Ascii.eqb a b then strip_prefix p' s' else None
      end
  end.

(** [s.endswith(suf)]. *)
Fixpoint ends_with (suf s : string) : bool :=
  String.eqb suf s ||
  match s with
  | EmptyString => false
  | String _ s' => ends_with suf s'
  end.

(** [c in s]. *)
Fixpoint has_char (c : ascii) (s : string) : bool :=
  match s with
  | EmptyString => false
  | String a s' => Ascii.eqb a c || has_char c s'
  end.

Fixpoint last_char (s : string) : option ascii :=
  match s with
  | EmptyString => None
  | String a EmptyString => Some a
  | String _ s' => last_char s'
  end.

Definition first_char (s : string) : option ascii :=
  match s with
  | EmptyString => None
  | String a _ => Some a
  end.

(** Every proper ancestor of a path: the text before each ["/"], the
    empty text (the root or the working directory) left out. *)
Fixpoint ancestors_go (done : string) (s : string) : list string :=
  match s with
  | EmptyString => []
  | String c s' =>
      let rest := ancestors_go (done +:+ String c EmptyString) s' in
      if Ascii.eqb c "/" then
        match done with
        | EmptyString => rest
        | _ => done :: rest
        end
      else rest
  end.
Definition ancestors (p : string) : list string := ancestors_go EmptyString p.

(** [os.path.dirname]-like: the text before the last ["/"], if any. *)
Fixpoint dirname_go (done : string) (best : option string) (s : string)
  : option string :=
  match s with
  | EmptyString => best
  | String c s' =>
      dirname_go (done +:+ String c EmptyString)
                 (if Ascii.eqb c "/" then Some done else best) s'
  end.
Definition dirname (p : string) : option string :=
  dirname_go EmptyString None p.

End PyStr.

(* ===================================================================== *)
(** ** Images as NumPy arrays *)
(* ===================================================================== *)

Module Img.

(** One pixel: three channels, in the order the array stores them. *)
Definition pixel : Type := Z * Z * Z.

(** An [H x W x 3] array: [shape[0]], [shape[1]] and the pixel at a row
    and a column. *)
Record image := Image {
  img_height : Z;
  img_width : Z;
  img_px : Z -> Z -> pixel
}.

(** A bound of a Python slice [a:b] over an axis of length [n]: a negative
    index counts from the end, and the result is clamped to [0, n]. *)
Definition slice_bound (n i : Z) : Z :=
  if i <? 0 then Z.max 0 (i + n) else Z.min i n.

(** [img[r0:r1, c0:c1]]. *)
Definition slice2 (im : image) (r0 r1 c0 c1 : Z) : image :=
  let rs := slice_bound (img_height im) r0 in
  let re := slice_bound (img_height im) r1 in
  let cs := slice_bound (img_width im) c0 in
  let ce := slice_bound (img_width im) c1 in
  {| img_height := Z.max 0 (re - rs);
     img_width := Z.max 0 (ce - cs);
     img_px := fun i j => img_px im (rs + i) (cs + j) |}.

Definition is_empty (im : image) : bool :=
  (img_height im <=? 0) || (img_width im <=? 0).

Definition swap_channels (p : pixel) : pixel :=
  let '(b, g, r) := p in (r, g, b).

Definition rgb_of (im : image) : image :=
  {| img_height := img_height im;
     img_width := img_width im;
     img_px := fun i j => swap_channels (img_px im i j) |}.

(** [cv2.cvtColor(im, cv2.COLOR_BGR2RGB)]: OpenCV refuses an empty array. *)
Definition cvtColor_BGR2RGB (im : image) : option image :=
  if is_empty im then None else Some (rgb_of im).

End Img.
Export Img.

(* ===================================================================== *)
(** ** The Python object store *)
(* ===================================================================== *)

Module Py.

(** A Python value is immediate or a reference to a container of the store;
    two references to one location are aliases of one [dict] or [list]. *)
Inductive pyval :=
| VNone
| VBool (b : bool)
| VInt (z : Z)
| VFloat (bits : Z)
| VStr (s : string)
| VRef (l : nat).

(** Containers: a [dict] with string keys, in insertion order, and a [list]. *)
Inductive pyobj :=
| ODict (kvs : list (string * pyval))
| OList (vs : list pyval).

Fixpoint dict_get (k : string) (kvs : list (string * pyval)) : option pyval :=
  match kvs with
  | [] => None
  | (k', v) :: r => if String.eqb k k' then Some v else dict_get k r
  end.

(** [d[k] = v]: the key keeps its place when present, else goes last. *)
Fixpoint dict_set (k : string) (v : pyval) (kvs : list (string * pyval))
  : list (string * pyval) :=
  match kvs with
  | [] => [(k, v)]
  | (k', v') :: r =>
      if String.eqb k k' then (k', v) :: r else (k', v') :: dict_set k v r
  end.

Definition obj_vals (o : pyobj) : list pyval :=
  match o with
  | ODict kvs => kvs.*2
  | OList vs => vs
  end.

Definition obj_with_vals (o : pyobj) (vs : list pyval) : pyobj :=
  match o with
  | ODict kvs => ODict (zip kvs.*1 vs)
  | OList _ => OList vs
  end.

Definition obj_blank (o : pyobj) : pyobj :=
  match o with
  | ODict _ => ODict []
  | OList _ => OList []
  end.

(** The result of a copy in progress: the value, the store and the memo
    from the locations already copied to their copies. *)
Definition copying : Type := pyval * list pyobj * gmap nat nat.

Fixpoint copy_list (copy : pyval -> list pyobj -> gmap nat nat -> option copying)
    (vs : list pyval) (h : list pyobj) (m : gmap nat nat)
  : option (list pyval * list pyobj * gmap nat nat) :=
  match vs with
  | [] => Some ([], h, m)
  | x :: r =>
      match copy x h m with
      | None => None
      | Some (x', h1, m1) =>
          match copy_list copy r h1 m1 with
          | None => None
          | Some (r', h2, m2) => Some (x' :: r', h2, m2)
          end
      end
  end.

(** [copy.deepcopy(v, memo)]: an immediate value is its own copy; a
    container already in the memo gives the copy made before; otherwise a
    new container is allocated and entered in the memo before its items are
    copied, so that shared and cyclic structure is copied once. [h0] is the
    store at the call (the originals), [h] the store as it grows. [None]
    when a reference leads nowhere or the recursion goes deeper than
    [fuel]. *)
Fixpoint deepcopy_aux (fuel : nat) (h0 : list pyobj) (v : pyval)
    (h : list pyobj) (m : gmap nat nat) : option copying :=
  match v with
  | VRef l =>
      match m !! l with
      | Some l' => Some (VRef l', h, m)
      | None =>
          match fuel with
          | O => None
          | S fuel' =>
              match h0 !! l with
              | None => None
              | Some o =>
                  let l' := length h in
                  match copy_list (deepcopy_aux fuel' h0) (obj_vals o)
                          (h ++ [obj_blank o]) (<[l := l']> m) with
                  | None => None
                  | Some (vs', h2, m2) =>
                      Some (VRef l', <[l' := obj_with_vals o vs']> h2, m2)
                  end
              end
          end
      end
  | _ => Some (v, h, m)
  end.

(** [str(v)] as an f-string renders it, for the values an identifier can
    be; the rendering of a float or of a container is not modelled. *)
Definition py_str (v : pyval) : option string :=
  match v with
  | VStr s => Some s
  | VInt z => Some (pretty z)
  | VBool true => Some "True"
  | VBool false => Some "False"
  | VNone => Some "None"
  | VFloat _ | VRef _ => None
  end.

(** Every reference held by a container of the store leads to a container
    of the store. *)
Definition val_closed (h : list pyobj) (v : pyval) : Prop :=
  match v with
  | VRef l => (l < length h)%nat
  | _ => True
  end.

Definition heap_closed (h : list pyobj) : Prop :=
  ∀ l o, h !! l = Some o → Forall (val_closed h) (obj_vals o).

(** [val_rel R v v']: [v'] is [v] with every reference replaced by a
    reference [R] relates it to. *)
Definition val_rel (R : nat -> nat -> Prop) (v v' : pyval) : Prop :=
  match v with
  | VRef l => ∃ l', v' = VRef l' ∧ R l l'
  | _ => v' = v
  end.

(** Two containers of one shape (the same keys in the same order, or the
    same length) whose items are related. *)
Definition obj_rel (R : nat -> nat -> Prop) (o o' : pyobj) : Prop :=
  ∃ vs', o' = obj_with_vals o vs' ∧ Forall2 (val_rel R) (obj_vals o) vs'.

(** The relation a memo stands for. *)
Definition memo_rel (m : gmap nat nat) (l l' : nat) : Prop := m !! l = Some l'.

(** What holds of the store [h] and the memo [m] while a copy of a part of
    the store [h0] is under way; [pending] are the containers entered in
    the memo whose items are still being copied. *)
Record copy_inv (h0 : list pyobj) (pending : list nat) (h : list pyobj)
    (m : gmap nat nat) : Prop := CopyInv {
  ci_ext : ∃ ext, h = h0 ++ ext;
  ci_range : ∀ l l', m !! l = Some l' →
             (l < length h0)%nat ∧ (length h0 ≤ l' < length h)%nat;
  ci_inj : ∀ l1 l2 l', m !! l1 = Some l' → m !! l2 = Some l' → l1 = l2;
  ci_done : ∀ l l', m !! l = Some l' →
            l ∈ pending ∨
            ∃ o o', h0 !! l = Some o ∧ h !! l' = Some o' ∧ obj_rel (memo_rel m) o o';
  ci_closed : ∀ l' o', (length h0 ≤ l')%nat → h !! l' = Some o' →
              Forall (val_closed h) (obj_vals o')
}.

(** What a copying function must do to the invariant. *)
Definition copy_ok (h0 : list pyobj)
    (copy : pyval -> list pyobj -> gmap nat nat -> option copying) : Prop :=
  ∀ P v h m v' h' m',
    copy_inv h0 P h m → copy v h m = Some (v', h', m') →
    copy_inv h0 P h' m' ∧ m ⊆ m' ∧ val_rel (memo_rel m') v v'.

End Py.
Export Py.

(* ===================================================================== *)
(** ** The world: files, directories, the object store and what was done *)
(* ===================================================================== *)

Inductive content :=
| Raw (bytes : string)
| Pic (im : image).

Inductive exn :=
| KeyError (k : string)
| TypeError
| AttributeError
| FileExistsError (p : string)
| NotADirectoryError (p : string)
| IsADirectoryError (p : string)
| FileNotFoundError (p : string)
| Cv2Error
| ConnectionError (url : string)
| JSONDecodeError
| SystemError
| Unmodelled.

(** What the program does to the outside: HTTP requests, [os.system] and
    the lines it prints. *)
Inductive event :=
| EvRequest (url : string) (headers : list (string * string))
| EvSystem (cmd : string)
| EvPrint (before : string) (e : exn) (after : string).

Record world := World {
  w_files : gmap string content;
  w_dirs : gset string;
  w_heap : list pyobj;
  w_log : list event
}.

Inductive outcome (A : Type) :=
| Ok (a : A)
| Raise (e : exn).
Arguments Ok {A} a.
Arguments Raise {A} e.

(** A computation: it runs in a world and returns or raises; what it did
    to the world before raising stays done. *)
Definition M (A : Type) : Type := world -> outcome A * world.

Definition ret {A} (a : A) : M A := fun w => (Ok a, w).
Definition raise {A} (e : exn) : M A := fun w => (Raise e, w).
Definition bind {A B} (m : M A) (k : A -> M B) : M B :=
  fun w => match m w with
           | (Ok a, w') => k a w'
           | (Raise e, w') => (Raise e, w')
           end.
Definition try_except {A} (body : M A) (handler : exn -> M A) : M A :=
  fun w => match body w with
           | (Ok a, w') => (Ok a, w')
           | (Raise e, w') => handler e w'
           end.

Notation "'let*' x ':=' m 'in' k" := (bind m (fun x => k))
  (at level 10, x name, m at level 100, k at level 200).
Notation "m '>>' k" := (bind m (fun _ => k))
  (at level 62, right associativity).

(** [for x in xs: acc = body(x, acc)]. *)
Fixpoint for_each {A B} (xs : list A) (body : A -> B -> M B) (acc : B) : M B :=
  match xs with
  | [] => ret acc
  | x :: r => bind (body x acc) (for_each r body)
  end.

Definition emit (ev : event) : M unit :=
  fun w => (Ok tt, {| w_files := w_files w; w_dirs := w_dirs w;
                      w_heap := w_heap w; w_log := w_log w ++ [ev] |}).

Definition print_exn (before : string) (e : exn) (after : string) : M unit :=
  emit (EvPrint before e after).

Definition set_files (f : gmap string content) (w : world) : world :=
  {| w_files := f; w_dirs := w_dirs w; w_heap := w_heap w; w_log := w_log w |}.
Definition set_dirs (d : gset string) (w : world) : world :=
  {| w_files := w_files w; w_dirs := d; w_heap := w_heap w; w_log := w_log w |}.
Definition set_heap (h : list pyobj) (w : world) : world :=
  {| w_files := w_files w; w_dirs := w_dirs w; w_heap := h; w_log := w_log w |}.

(* ===================================================================== *)
(** ** The file system *)
(* ===================================================================== *)

Module Fs.

Definition is_file (files : gmap string content) (p : string) : bool :=
  bool_decide (is_Some (files !! p)).
Definition is_dir (dirs : gset string) (p : string) : bool :=
  bool_decide (p ∈ dirs).

(** [os.path.exists(p)], [Path(p).exists()]. *)
Definition path_exists (p : string) : M bool :=
  fun w => (Ok (is_file (w_files w) p || is_dir (w_dirs w) p), w).

(** [os.makedirs(p)]: creates [p] and the directories above it; refuses a
    path that exists and a path below a regular file. *)
Definition makedirs (p : string) : M unit :=
  fun w =>
    if is_file (w_files w) p || is_dir (w_dirs w) p then (Raise (FileExistsError p), w)
    else if existsb (is_file (w_files w)) (PyStr.ancestors p)
    then (Raise (NotADirectoryError p), w)
    else (Ok tt, set_dirs (w_dirs w ∪ {[p]} ∪ list_to_set (PyStr.ancestors p)) w).

(** The directory a new entry [p] would go into is there. *)
Definition parent_ok (dirs : gset string) (p : string) : bool :=
  match PyStr.dirname p with
  | None => true
  | Some EmptyString => true
  | Some d => is_dir dirs d
  end.

(** [open(p, "wb")]: creates the file or empties it. *)
Definition open_wb (p : string) : M unit :=
  fun w =>
    if is_dir (w_dirs w) p then (Raise (IsADirectoryError p), w)
    else if parent_ok (w_dirs w) p then (Ok tt, set_files (<[p := Raw EmptyString]> (w_files w)) w)
    else (Raise (FileNotFoundError p), w).

(** Writing through the handle [open_wb] gave. *)
Definition write (p : string) (c : content) : M unit :=
  fun w => (Ok tt, set_files (<[p := c]> (w_files w)) w).

(** [os.remove(p)]: only a regular file can be removed. *)
Definition remove (p : string) : M unit :=
  fun w =>
    if is_file (w_files w) p then (Ok tt, set_files (delete p (w_files w)) w)
    else if is_dir (w_dirs w) p then (Raise (IsADirectoryError p), w)
    else (Raise (FileNotFoundError p), w).

(** [cv2.imread(p)]: [None] for whatever is not a readable image. *)
Definition imread (p : string) : M (option image) :=
  fun w => (Ok match w_files w !! p with
               | Some (Pic im) => Some im
               | _ => None
               end, w).

(** Everything that exists: regular files, then directories. *)
Definition entries (w : world) : list string :=
  (map_to_list (w_files w)).*1 ++ elements (w_dirs w).

(** A file system in which whatever exists lies in directories that
    exist. *)
Definition well_formed (w : world) : bool :=
  forallb (fun p => forallb (is_dir (w_dirs w)) (PyStr.ancestors p)) (entries w).

(** The wildcard characters of [glob]. *)
Definition has_magic (s : string) : bool :=
  PyStr.has_char "*" s || PyStr.has_char "?" s || PyStr.has_char "[" s.

(** The patterns [chunk*.jpg] this model covers: [chunk] has no wildcard
    character of its own, and the directory part of [chunk] does not end
    in a slash ([glob] would hand back the paths with that slash
    dropped). *)
Definition glob_supported (chunk : string) : bool :=
  negb (has_magic chunk)
  && match PyStr.dirname chunk with
     | Some d => negb (bool_decide (PyStr.last_char d = Some "/"%char))
     | None => true
     end.

(** The pattern [chunk*.jpg] against a path: the path goes on from
    [chunk] within the same directory and ends in [.jpg]; when the
    pattern's file name starts with the star, names starting with a dot do
    not match. *)
Definition glob_match (chunk p : string) : bool :=
  match PyStr.strip_prefix chunk p with
  | None => false
  | Some rest =>
      PyStr.ends_with ".jpg" rest
      && negb (PyStr.has_char "/" rest)
      && negb (match PyStr.last_char chunk with
               | None | Some "/"%char =>
                   bool_decide (PyStr.first_char rest = Some "."%char)
               | _ => false
               end)
  end.

(** [glob.glob(f"{chunk}*.jpg")]: the entries that match, files and
    directories alike. *)
Definition glob_jpg (chunk : string) : M (list string) :=
  fun w =>
    if glob_supported chunk
    then (Ok (filter (fun p => glob_match chunk p = true) (entries w)), w)
    else (Raise Unmodelled, w).

End Fs.

(* ===================================================================== *)
(** ** Python operations on the store *)
(* ===================================================================== *)

(** [copy.deepcopy(v)]. The recursion of the copy never goes deeper than
    the number of containers of the store, which is the fuel given. *)
Definition deepcopy (v : pyval) : M pyval :=
  fun w =>
    match deepcopy_aux (S (length (w_heap w))) (w_heap w) v (w_heap w) ∅ with
    | Some (v', h', _) => (Ok v', set_heap h' w)
    | None => (Raise SystemError, w)
    end.

(** [v[k]] for a string key. *)
Definition getitem (v : pyval) (k : string) : M pyval :=
  fun w =>
    match v with
    | VRef l =>
        match w_heap w !! l with
        | Some (ODict kvs) =>
            match dict_get k kvs with
            | Some x => (Ok x, w)
            | None => (Raise (KeyError k), w)
            end
        | Some (OList _) => (Raise TypeError, w)
        | None => (Raise SystemError, w)
        end
    | _ => (Raise TypeError, w)
    end.

(** [v[k] = x] for a string key. *)
Definition setitem (v : pyval) (k : string) (x : pyval) : M unit :=
  fun w =>
    match v with
    | VRef l =>
        match w_heap w !! l with
        | Some (ODict kvs) =>
            (Ok tt, set_heap (<[l := ODict (dict_set k x kvs)]> (w_heap w)) w)
        | Some (OList _) => (Raise TypeError, w)
        | None => (Raise SystemError, w)
        end
    | _ => (Raise TypeError, w)
    end.

(** A value inside an f-string. *)
Definition fmt (v : pyval) : M string :=
  match py_str v with
  | Some s => ret s
  | None => raise Unmodelled
  end.

(* ===================================================================== *)
(** ** The outside: the image host and the projector *)
(* ===================================================================== *)

Inductive api_reply :=
| ApiUnreachable
| ApiNotJson
| ApiNoUrl
| ApiUrl (u : string).

Record env := Env {
  (** [os.environ.get("MAPILLARY_ACCESS_TOKEN")], read once. *)
  access_token : option string;
  (** The metadata API, by URL and headers. *)
  graph_api : string -> list (string * string) -> api_reply;
  (** The body behind an image URL; [None] when the request fails. *)
  fetch : string -> option string;
  (** [convert360 --convert e2c]: the cubemap it writes for a source file
      and an edge size, if it writes one. *)
  convert360 : content -> Z -> option image
}.

(* ===================================================================== *)
(** ** utils_images.py *)
(* ===================================================================== *)

(** An entry of [status_response]: the path written, or [False]. *)
Inductive status :=
| SPath (p : string)
| SFalse.

(** [if i:] on an entry of [status_response]. *)
Definition truthy (s : status) : bool :=
  match s with
  | SPath EmptyString => false
  | SPath _ => true
  | SFalse => false
  end.

Definition index_dict : gmap string string :=
  list_to_map [("1,0", "top"); ("0,1", "left"); ("1,1", "front");
               ("2,1", "right"); ("3,1", "back"); ("1,2", "bottom")].

Definition horizontal_chunks : nat := 4.
Definition vertical_chunks : nat := 3.

(** [f"{x},{y}"]. *)
Definition cell_index (x y : nat) : string :=
  pretty x +:+ "," +:+ pretty y.

(** The cells in the order of [for x in range(4): for y in range(3)]. *)
Definition grid_scan : list (nat * nat) :=
  x ← seq 0 horizontal_chunks; y ← seq 0 vertical_chunks; [(x, y)].

(** [cube_sides.split(",")]. *)
Definition split_sides (cube_sides : string) : list string :=
  PyStr.split_on "," cube_sides.

(** [f"{output_images_path}/{sequence_id}/{image_id}_{face}.jpg"]. *)
Definition chunk_img_path (output_images_path sequence_id image_id face : string)
  : string :=
  output_images_path +:+ "/" +:+ sequence_id +:+ "/" +:+ image_id
    +:+ "_" +:+ face +:+ ".jpg".

(** [img[y * r: y * r + h, x * r: x * r + w]]. *)
Definition crop_img (img : image) (r size : Z) (x y : nat) : image :=
  slice2 img (Z.of_nat y * r) (Z.of_nat y * r + size)
             (Z.of_nat x * r) (Z.of_nat x * r + size).

(** The crop, the conversion and the write of one face (the body of the
    inner [try]). *)
Definition write_face (img : image) (r size : Z) (x y : nat) (path : string)
  : M unit :=
  match cvtColor_BGR2RGB (crop_img img r size x y) with
  | None => raise Cv2Error
  | Some imageRGB =>
      Fs.open_wb path >>
      Fs.write path (Pic imageRGB)
  end.

(** The body of the two loops for the cell [(x, y)]. *)
Definition split_cell (img : image) (r size : Z)
    (output_images_path sequence_id image_id : string) (sides : list string)
    (cell : nat * nat) (status_response : list status) : M (list status) :=
  let '(x, y) := cell in
  let index := cell_index x y in
  match index_dict !! index with
  | Some face =>
      if bool_decide (face ∈ sides) then
        let path := chunk_img_path output_images_path sequence_id image_id face in
        try_except
          (write_face img r size x y path >>
           ret (status_response ++ [SPath path]))
          (fun ex =>
             print_exn EmptyString ex EmptyString >>
             ret (status_response ++ [SFalse]))
      else ret status_response
  | None => ret status_response
  end.

Definition cubemap_splitter (img_file_cubemap : string) (image_clip_size : Z)
    (sequence_id image_id output_images_path cube_sides : string)
  : M (list status) :=
  try_except
    (let* img := Fs.imread img_file_cubemap in
     match img with
     | None => raise AttributeError
     | Some img =>
         let img_height := img_height img in
         let img_width := img_width img in
         let r := img_width - img_height in
         let sides := split_sides cube_sides in
         for_each grid_scan
           (split_cell img r image_clip_size output_images_path sequence_id
                       image_id sides) []
     end)
    (fun ex =>
       print_exn "error: " ex
         (" in " +:+ output_images_path +:+ "/" +:+ sequence_id +:+ "/"
            +:+ image_id +:+ ".jpg") >>
       ret (replicate (length (split_sides cube_sides)) SFalse)).

(** [images_generate] of [clean_files]. *)
Definition images_generate (image_folder_path image_id cube_sides : string)
  : list string :=
  (fun i => (image_folder_path +:+ "/" +:+ image_id) +:+ "_" +:+ i +:+ ".jpg")
    <$> split_sides cube_sides.

Definition clean_files (image_folder_path image_id cube_sides : string) : M unit :=
  let chumk_image_path := image_folder_path +:+ "/" +:+ image_id in
  let images_generate := images_generate image_folder_path image_id cube_sides in
  let* found := Fs.glob_jpg chumk_image_path in
  let images_remove :=
    filter (fun i => i ∉ images_generate) found in
  for_each images_remove
    (fun file (_ : unit) =>
       try_except (Fs.remove file)
                  (fun e => print_exn "An error occurred: " e EmptyString))
    tt.

(** Lines 103-105 and 134-136: the copy of the feature that carries the
    path of a tile. *)
Definition derive (feature : pyval) (image_path : string) : M pyval :=
  let* new_feature := deepcopy feature in
  let* properties := getitem new_feature "properties" in
  setitem properties "image_path" (VStr image_path) >>
  deepcopy new_feature.

(** The loop of lines 132-136. An exception leaves [results] as built so
    far: the loop gives them back with the exception that stopped it. *)
Fixpoint collect (feature : pyval) (result_status : list status)
    (results : list pyval) : M (list pyval * option exn) :=
  match result_status with
  | [] => ret (results, None)
  | i :: rest =>
      if truthy i then
        fun w =>
          match derive feature (match i with SPath p => p | SFalse => EmptyString end) w with
          | (Ok f, w') => collect feature rest (results ++ [f]) w'
          | (Raise e, w') => (Ok (results, Some e), w')
          end
      else collect feature rest results
  end.

(** Line 98: the address of the metadata of an image. *)
Definition api_url (image_id : string) : string :=
  "https://graph.mapillary.com/" +:+ image_id +:+ "?fields=thumb_original_url".

Section Orchestrator.

Context (E : env).

(** What the projector does to the files: the cubemap appears at the
    destination when the projector produces one from the source; it cannot
    write where a directory is. *)
Definition run_convert360 (src dst : string) (size : Z) : M unit :=
  fun w =>
    match w_files w !! src with
    | Some c =>
        match convert360 E c size with
        | Some cm =>
            if Fs.is_dir (w_dirs w) dst then (Ok tt, w)
            else (Ok tt, set_files (<[dst := Pic cm]> (w_files w)) w)
        | None => (Ok tt, w)
        end
    | None => (Ok tt, w)
    end.

(** [os.system(cmd)] with the command line of the projector. *)
Definition os_system_convert360 (src dst : string) (size : Z) : M unit :=
  emit (EvSystem ("convert360 --convert e2c --i " +:+ src +:+ "  --o " +:+ dst
                    +:+ " --w " +:+ pretty size)) >>
  run_convert360 src dst size.

(** Line 97: [{"Authorization": "OAuth {}".format(access_token)}]. *)
Definition api_header : list (string * string) :=
  [("Authorization",
    "OAuth " +:+ match access_token E with Some t => t | None => "None" end)].

(** [requests.get(url, headers=header).json()["thumb_original_url"]]. *)
Definition request_image_url (url : string) (header : list (string * string))
  : M string :=
  emit (EvRequest url header) >>
  match graph_api E url header with
  | ApiUnreachable => raise (ConnectionError url)
  | ApiNotJson => raise JSONDecodeError
  | ApiNoUrl => raise (KeyError "thumb_original_url")
  | ApiUrl u => ret u
  end.

(** [requests.get(image_url, stream=True).content]. *)
Definition request_content (image_url : string) : M string :=
  emit (EvRequest image_url []) >>
  match fetch E image_url with
  | None => raise (ConnectionError image_url)
  | Some body => ret body
  end.

(** Lines 109-115: ask for the URL of the image, then fetch it into the
    source file. *)
Definition fetch_source (url : string) (header : list (string * string))
    (img_file_equirectangular : string) : M unit :=
  let* image_url := request_image_url url header in
  Fs.open_wb img_file_equirectangular >>
  let* image_data := request_content image_url in
  Fs.write img_file_equirectangular (Raw image_data).

(** Lines 109-131: fetch, project, split, clean. *)
Definition fetch_and_split (url : string) (header : list (string * string))
    (img_file_equirectangular img_file_cubemap : string) (image_clip_size : Z)
    (sequence_id image_id output_images_path image_folder_path cube_sides : string)
  : M (list status) :=
  fetch_source url header img_file_equirectangular >>
  os_system_convert360 img_file_equirectangular img_file_cubemap image_clip_size >>
  let* result_status := cubemap_splitter img_file_cubemap image_clip_size sequence_id
                    image_id output_images_path cube_sides in
  clean_files image_folder_path image_id cube_sides >>
  ret result_status.

(** Line 101: [[Path(...).exists() for i in cube_sides.split(',')]]. *)
Definition tiles_present (image_folder_path image_id cube_sides : string)
  : M (list bool) :=
  for_each (split_sides cube_sides)
    (fun i seen =>
       let* there := Fs.path_exists
                       (image_folder_path +:+ "/" +:+ image_id +:+ "_" +:+ i +:+ ".jpg") in
       ret (seen ++ [there])) [].

(** Lines 87-88. *)
Definition ensure_folder (image_folder_path : string) : M unit :=
  let* there := Fs.path_exists image_folder_path in
  if there then ret tt else Fs.makedirs image_folder_path.

(** Lines 102-106: every tile is there; one record for each requested
    name. *)
Definition fast_path (feature : pyval) (image_folder_path image_id cube_sides : string)
  : M (list pyval) :=
  for_each (split_sides cube_sides)
    (fun i results =>
       let* new_feature :=
         derive feature
           (image_folder_path +:+ "/" +:+ image_id +:+ "_" +:+ i +:+ ".jpg") in
       ret (results ++ [new_feature])) [].

(** Lines 108-140: fetch, project, split, clean and collect, inside the
    [try]; the handler prints the exception, and [results] is returned as
    it stands. *)
Definition slow_path (feature : pyval) (output_images_path : string)
    (image_clip_size : Z) (cube_sides sequence_id image_id : string)
  : M (list pyval) :=
  let image_folder_path := output_images_path +:+ "/" +:+ sequence_id in
  let img_file_equirectangular := image_folder_path +:+ "/" +:+ image_id +:+ ".jpg" in
  let img_file_cubemap := image_folder_path +:+ "/" +:+ image_id +:+ "_cubemap.jpg" in
  let header := api_header in
  let url := api_url image_id in
  let* r := try_except
        (let* result_status := fetch_and_split url header img_file_equirectangular
                           img_file_cubemap image_clip_size sequence_id image_id
                           output_images_path image_folder_path cube_sides in
         collect feature result_status [])
        (fun err => ret ([], Some err)) in
  match r with
  | (results, Some err) => print_exn EmptyString err EmptyString >> ret results
  | (results, None) => ret results
  end.

Definition download_clip_img (feature : pyval) (output_images_path : string)
    (image_clip_size : Z) (cube_sides : string) : M (list pyval) :=
  let* properties := getitem feature "properties" in
  let* sequence_id := getitem properties "sequence_id" in
  let* sequence_id := fmt sequence_id in
  let image_folder_path := output_images_path +:+ "/" +:+ sequence_id in
  ensure_folder image_folder_path >>
  let* properties := getitem feature "properties" in
  let* image_id := getitem properties "id" in
  let* image_id := fmt image_id in
  let* present := tiles_present image_folder_path image_id cube_sides in
  if forallb id present then
    fast_path feature image_folder_path image_id cube_sides
  else
    slow_path feature output_images_path image_clip_size cube_sides
              sequence_id image_id.

End Orchestrator.

(* ===================================================================== *)
(** ** What the claims speak of *)
(* ===================================================================== *)

(** The six named cells of the horizontal cross, as the specification
    lists them. *)
Definition named_face (x y : nat) : option string :=
  match x, y with
  | 1, 0 => Some "top"
  | 0, 1 => Some "left"
  | 1, 1 => Some "front"
  | 2, 1 => Some "right"
  | 3, 1 => Some "back"
  | 1, 2 => Some "bottom"
  | _, _ => None
  end%nat.

Definition face_names : list string :=
  ["top"; "left"; "front"; "right"; "back"; "bottom"].

(** The cell is a named face that was asked for. *)
Definition cell_face (sides : list string) (cell : nat * nat)
  : option (nat * nat * string) :=
  let '(x, y) := cell in
  match index_dict !! cell_index x y with
  | Some face => if bool_decide (face ∈ sides) then Some (x, y, face) else None
  | None => None
  end.

(** The faces the two loops work on, in the order of the scan. *)
Definition requested_cells (sides : list string) : list (nat * nat * string) :=
  omap (cell_face sides) grid_scan.

(** Why the crop, the conversion or the write of a face fails, if it does:
    an empty crop, a directory in the place of the tile, or no directory to
    put the tile in. *)
Definition face_error (dirs : gset string) (img : image) (r size : Z)
    (x y : nat) (path : string) : option exn :=
  if is_empty (crop_img img r size x y) then Some Cv2Error
  else if Fs.is_dir dirs path then Some (IsADirectoryError path)
  else if Fs.parent_ok dirs path then None
  else Some (FileNotFoundError path).

Section Faces.

Context (dirs : gset string) (img : image) (r size : Z)
        (output_images_path sequence_id image_id : string).

Definition face_path (c : nat * nat * string) : string :=
  chunk_img_path output_images_path sequence_id image_id c.2.

Definition face_fails (c : nat * nat * string) : option exn :=
  face_error dirs img r size c.1.1 c.1.2 (face_path c).

Definition face_tile (c : nat * nat * string) : image :=
  rgb_of (crop_img img r size c.1.1 c.1.2).

Definition face_status (c : nat * nat * string) : status :=
  match face_fails c with
  | None => SPath (face_path c)
  | Some _ => SFalse
  end.

Definition face_write (files : gmap string content) (c : nat * nat * string)
  : gmap string content :=
  match face_fails c with
  | None => <[face_path c := Pic (face_tile c)]> files
  | Some _ => files
  end.

Definition face_print (c : nat * nat * string) : option event :=
  match face_fails c with
  | None => None
  | Some e => Some (EvPrint EmptyString e EmptyString)
  end.

End Faces.

(** [tile] is the [size] by [size] window of [img] whose top left corner
    is at row [top] and column [left], with the channels in RGB order. *)
Definition is_window (img : image) (top left size : Z) (tile : image) : Prop :=
  img_height tile = size ∧ img_width tile = size ∧
  ∀ i j, 0 <= i < size → 0 <= j < size →
         img_px tile i j = swap_channels (img_px img (top + i) (left + j)).

(** Where the [properties] dict of a feature is in the store. *)
Definition props_loc (h : list pyobj) (feature : pyval) : option nat :=
  match feature with
  | VRef lf =>
      match h !! lf with
      | Some (ODict kvs) =>
          match dict_get "properties" kvs with
          | Some (VRef lp) => Some lp
          | _ => None
          end
      | _ => None
      end
  | _ => None
  end.

(** The sequence id and the image id of a feature, as the paths show them. *)
Definition feature_ids (h : list pyobj) (feature : pyval) : option (string * string) :=
  match props_loc h feature with
  | Some lp =>
      match h !! lp with
      | Some (ODict ps) =>
          match dict_get "sequence_id" ps, dict_get "id" ps with
          | Some s, Some i =>
              match py_str s, py_str i with
              | Some seq, Some id => Some (seq, id)
              | _, _ => None
              end
          | _, _ => None
          end
      | _ => None
      end
  | None => None
  end.

(** [record["properties"]["image_path"]]. *)
Definition image_path_of (h : list pyobj) (record : pyval) : option pyval :=
  match props_loc h record with
  | Some lp =>
      match h !! lp with
      | Some (ODict ps) => dict_get "image_path" ps
      | _ => None
      end
  | None => None
  end.

(** The container at [l] as the enriched record has it: the [properties]
    dict (at [lp]) with [image_path] set, every other container as it is. *)
Definition enrich (lp : nat) (image_path : string) (l : nat) (o : pyobj) : pyobj :=
  if decide (l = lp) then
    match o with
    | ODict kvs => ODict (dict_set "image_path" (VStr image_path) kvs)
    | OList _ => o
    end
  else o.

(** [out], in the store [h'], is a copy of the feature of the store [h]
    with [properties.image_path] set: every container of the copy is new
    ([R] relates a container of [h] to its copy, beyond [h]) and is the
    original container, enriched, with each reference replaced by a
    reference to the copy of what it referred to. *)
Definition derived_from (h h' : list pyobj) (feature out : pyval)
    (image_path : string) : Prop :=
  ∃ lp (R : nat -> nat -> Prop),
    props_loc h feature = Some lp ∧
    val_rel R feature out ∧
    ∀ l l', R l l' →
      (l < length h ≤ l')%nat ∧
      ∃ o o', h !! l = Some o ∧ h' !! l' = Some o' ∧
              obj_rel R (enrich lp image_path l o) o'.

(** The named cells in the order of the scan. *)
Definition named_cells : list (nat * nat * string) :=
  [(0, 1, "left"); (1, 0, "top"); (1, 1, "front");
   (1, 2, "bottom"); (2, 1, "right"); (3, 1, "back")]%nat.

(* ===================================================================== *)
(** ** Concrete worlds *)
(* ===================================================================== *)

Module Ex.

(** A 4000 x 3000 cubemap; a pixel records where it is. *)
Definition cubemap_4000x3000 : image :=
  {| img_height := 3000; img_width := 4000; img_px := fun i j => (i, j, 0) |}.

(** A 4 x 3 cubemap with cells of one pixel. *)
Definition cubemap_4x3 : image :=
  {| img_height := 3; img_width := 4; img_px := fun i j => (i, j, 7) |}.

Definition with_cubemap (img : image) : world :=
  {| w_files := {["out/s/7_cubemap.jpg" := Pic img]};
     w_dirs := {["out"; "out/s"]};
     w_heap := [];
     w_log := [] |}.

Definition empty_world : world :=
  {| w_files := ∅; w_dirs := ∅; w_heap := []; w_log := [] |}.

(** The cubemap is there, and a directory sits where the front tile
    should go. *)
Definition front_blocked : world :=
  {| w_files := {["out/s/7_cubemap.jpg" := Pic cubemap_4x3]};
     w_dirs := {["out"; "out/s"; "out/s/7_front.jpg"]};
     w_heap := [];
     w_log := [] |}.

(** Tiles and intermediate files of image 12, a tile of image 123, a tile
    of image 9 and a text file, in one sequence directory. *)
Definition shared_prefix : world :=
  {| w_files := {["out/s/12_front.jpg" := Raw "front";
                  "out/s/12.jpg" := Raw "source";
                  "out/s/12_cubemap.jpg" := Raw "cubemap";
                  "out/s/123_front.jpg" := Raw "other image";
                  "out/s/9_front.jpg" := Raw "unrelated";
                  "out/s/12_notes.txt" := Raw "notes"]};
     w_dirs := {["out"; "out/s"]};
     w_heap := [];
     w_log := [] |}.

(** A feature as the GeoJSON reader leaves it in the store: the record,
    its properties, its geometry and the coordinates. *)
Definition feature_heap : list pyobj :=
  [ODict [("type", VStr "Feature"); ("properties", VRef 1); ("geometry", VRef 2)];
   ODict [("sequence_id", VStr "s"); ("id", VInt 7)];
   ODict [("type", VStr "Point"); ("coordinates", VRef 3)];
   OList [VFloat 4607182418800017408; VFloat 4611686018427387904]].

Definition feature : pyval := VRef 0.

(** The image host answers and the projector gives the 4 x 3 cubemap. *)
Definition online : env :=
  {| access_token := Some "token";
     graph_api := fun _ _ => ApiUrl "https://cdn/7";
     fetch := fun _ => Some "jpeg bytes";
     convert360 := fun _ _ => Some cubemap_4x3 |}.

(** The image host cannot be reached. *)
Definition offline : env :=
  {| access_token := None;
     graph_api := fun _ _ => ApiUnreachable;
     fetch := fun _ => None;
     convert360 := fun _ _ => None |}.

(** Nothing was produced yet. *)
Definition fresh : world :=
  {| w_files := ∅; w_dirs := {["out"]}; w_heap := feature_heap; w_log := [] |}.

(** The front and back tiles of image 7 are there, and so is a left tile
    from an earlier run that asked for other faces. *)
Definition tiles_done : world :=
  {| w_files := {["out/s/7_front.jpg" := Pic cubemap_4x3;
                  "out/s/7_back.jpg" := Pic cubemap_4x3;
                  "out/s/7_left.jpg" := Pic cubemap_4x3]};
     w_dirs := {["out"; "out/s"]};
     w_heap := feature_heap;
     w_log := [] |}.

(** The output root is a regular file. *)
Definition out_is_file : world :=
  {| w_files := {["out" := Raw "not a directory"]};
     w_dirs := ∅;
     w_heap := feature_heap;
     w_log := [] |}.

End Ex.

(** A path of the directory [folder] whose file name begins with [id] and
    ends in [.jpg]. *)
Definition jpg_with_prefix (folder id p : string) : Prop :=
  ∃ m, p = (folder +:+ "/" +:+ id) +:+ m +:+ ".jpg" ∧ PyStr.has_char "/" m = false.

(** The [print] of a deletion that failed. *)
Definition removal_error (dirs : gset string) (p : string) : event :=
  EvPrint "An error occurred: "
          (if Fs.is_dir dirs p then IsADirectoryError p else FileNotFoundError p) EmptyString.

(** A computation that leaves the object store alone. *)
Definition keeps_heap {A} (m : M A) : Prop :=
  ∀ w r w', m w = (r, w') → w_heap w' = w_heap w.

(** [Path(p).exists()] as a test on the world. *)
Definition path_there (w : world) (p : string) : bool :=
  Fs.is_file (w_files w) p || Fs.is_dir (w_dirs w) p.

(** [f"{image_folder_path}/{image_id}_{i}.jpg"]. *)
Definition tile_path (image_folder_path image_id i : string) : string :=
  image_folder_path +:+ "/" +:+ image_id +:+ "_" +:+ i +:+ ".jpg".

(* ===================================================================== *)
(** ** The batch *)
(* ===================================================================== *)

(** [bool(v)], what [if v] tests: [None], [False], zero, the empty string
    and an empty container are false. *)
Definition py_bool (h : list pyobj) (v : pyval) : bool :=
  match v with
  | VNone => false
  | VBool b => b
  | VInt z => negb (z =? 0)
  | VFloat bits => negb ((bits =? 0) || (bits =? 9223372036854775808))
  | VStr s => negb (String.eqb s EmptyString)
  | VRef l =>
      match h !! l with
      | Some (ODict []) | Some (OList []) | None => false
      | Some _ => true
      end
  end.

(** A pool with one worker, which is what [Parallel] falls back to on a
    host with one processor: the tasks run in the calling process, in
    order, and an exception of a task leaves the pool. *)
Definition one_worker {A} (tasks : list (M A)) : M (list A) :=
  for_each tasks (fun task done => let* r := task in ret (done ++ [r])) [].

Section Batch.

Context (E : env).

(** [process_image]. [pool] stands for [Parallel(n_jobs=-1)]: it is given
    the delayed calls, one for each feature, and hands back their results
    in the order of the features. The progress bar is left out. *)
Definition process_image (pool : list (M (list pyval)) -> M (list (list pyval)))
    (features : list pyval) (output_images_path : string)
    (image_clip_size : Z) (cube_sides : string) : M (list pyval) :=
  let* results2d :=
    pool ((fun feature => download_clip_img E feature output_images_path
                            image_clip_size cube_sides) <$> features) in
  let results1d := concat results2d in
  fun w => (Ok (filter (fun i => py_bool (w_heap w) i = true) results1d), w).

End Batch.

(** The entries of [result_status] that [if i] lets through. *)
Definition status_paths (result_status : list status) : list string :=
  omap (fun i => if truthy i
                 then match i with SPath p => Some p | SFalse => None end
                 else None) result_status.

(** A computation that leaves the directories alone and changes no file
    outside [S]. *)
Definition writes_within {A} (S : string -> Prop) (m : M A) : Prop :=
  ∀ w r w', m w = (r, w') →
    w_dirs w' = w_dirs w ∧ ∀ p, ¬ S p → w_files w' !! p = w_files w !! p.

(** The path [p] begins with [chunk]. *)
Definition starts_with (chunk p : string) : Prop :=
  is_Some (PyStr.strip_prefix chunk p).

(** The number of commas of a string. *)
Definition commas (s : string) : nat :=
  length (filter (fun c => c = ","%char) (list_ascii_of_string s)).

(* ===================================================================== *)
(** ** More concrete worlds *)
(* ===================================================================== *)

Module Scene.

(** A feature whose properties have no id. *)
Definition no_id_heap : list pyobj :=
  [ODict [("type", VStr "Feature"); ("properties", VRef 1)];
   ODict [("sequence_id", VStr "s")]].

(** A feature whose properties have no sequence id. *)
Definition no_sequence_heap : list pyobj :=
  [ODict [("type", VStr "Feature"); ("properties", VRef 1)];
   ODict [("id", VInt 7)]].

(** Nothing was produced yet, and the store is [h]. *)
Definition fresh_with (h : list pyobj) : world :=
  {| w_files := ∅; w_dirs := {["out"]}; w_heap := h; w_log := [] |}.

(** The host gives the address of the image, and the image cannot be
    fetched from there. *)
Definition no_image : env :=
  {| access_token := Some "token";
     graph_api := fun _ _ => ApiUrl "https://cdn/7";
     fetch := fun _ => None;
     convert360 := fun _ _ => None |}.

(** The image is fetched, and the projector writes nothing. *)
Definition no_cubemap : env :=
  {| access_token := Some "token";
     graph_api := fun _ _ => ApiUrl "https://cdn/7";
     fetch := fun _ => Some "jpeg bytes";
     convert360 := fun _ _ => None |}.

(** The feature of image 7, and after it a feature without a sequence
    id. *)
Definition batch_heap : list pyobj :=
  Ex.feature_heap ++
  [ODict [("type", VStr "Feature"); ("properties", VRef 5)];
   ODict [("id", VInt 8)]].

Definition broken_feature : pyval := VRef 4.


End Scene.

(** The requests among the events, each with its headers, and the command
    lines handed to [os.system]. *)
Definition requests (evs : list event) : list (string * list (string * string)) :=
  omap (fun ev => match ev with EvRequest u h => Some (u, h) | _ => None end) evs.

Definition commands (evs : list event) : list string :=
  omap (fun ev => match ev with EvSystem c => Some c | _ => None end) evs.

(** A computation that makes no request and starts no process: all it
    adds to the events are printed lines. *)
Definition only_prints {A} (m : M A) : Prop :=
  ∀ w r w', m w = (r, w') →
    ∃ ps, w_log w' = w_log w ++ ps ∧ requests ps = [] ∧ commands ps = [].

(** A computation that creates no file outside [S] (it may delete any)
    and leaves the directories alone. *)
Definition creates_within {A} (S : string -> Prop) (m : M A) : Prop :=
  ∀ w r w', m w = (r, w') →
    w_dirs w' = w_dirs w ∧
    ∀ p, ¬ S p → w_files w !! p = None → w_files w' !! p = None.

(** The files a run for the image [id] of the sequence [seq] can create:
    the source, the cubemap and the tiles of the six faces. *)
Definition made (out seq id p : string) : Prop :=
  p = (out +:+ "/" +:+ seq) +:+ "/" +:+ id +:+ ".jpg"
  ∨ p = (out +:+ "/" +:+ seq) +:+ "/" +:+ id +:+ "_cubemap.jpg"
  ∨ ∃ f, f ∈ face_names ∧ p = chunk_img_path out seq id f.

(* ===================================================================== *)
(** ** Running computations *)
(* ===================================================================== *)

Lemma world_eta w :
  {| w_files := w_files w; w_dirs := w_dirs w;
     w_heap := w_heap w; w_log := w_log w |} = w.
Proof. by destruct w. Qed.

Lemma bind_ok {A B} (m : M A) (k : A -> M B) w a w' :
  m w = (Ok a, w') → bind m k w = k a w'.
Proof. unfold bind. by intros ->. Qed.

Lemma bind_raise {A B} (m : M A) (k : A -> M B) w e w' :
  m w = (Raise e, w') → bind m k w = (Raise e, w').
Proof. unfold bind. by intros ->. Qed.

Lemma try_ok {A} (m : M A) h w a w' :
  m w = (Ok a, w') → try_except m h w = (Ok a, w').
Proof. unfold try_except. by intros ->. Qed.

Lemma try_raise {A} (m : M A) h w e w' :
  m w = (Raise e, w') → try_except m h w = h e w'.
Proof. unfold try_except. by intros ->. Qed.

(* ===================================================================== *)
(** ** The face extractor in closed form *)
(* ===================================================================== *)

Section SplitterFacts.

Context (img : image) (r size : Z) (out seq id : string) (sides : list string).

Lemma write_face_spec x y path w :
  write_face img r size x y path w =
  match face_error (w_dirs w) img r size x y path with
  | None => (Ok tt, set_files (<[path := Pic (rgb_of (crop_img img r size x y))]>
                                 (w_files w)) w)
  | Some e => (Raise e, w)
  end.
Proof.
  unfold write_face, face_error, cvtColor_BGR2RGB.
  destruct (is_empty _); [done|].
  unfold bind, Fs.open_wb, Fs.write.
  destruct (Fs.is_dir _ _); [done|]. simpl.
  destruct (Fs.parent_ok _ _); [|done].
  unfold set_files; simpl. by rewrite insert_insert_eq.
Qed.

Lemma split_cell_spec cell st w :
  split_cell img r size out seq id sides cell st w =
  match cell_face sides cell with
  | None => (Ok st, w)
  | Some c =>
      (Ok (st ++ [face_status (w_dirs w) img r size out seq id c]),
       {| w_files := face_write (w_dirs w) img r size out seq id (w_files w) c;
          w_dirs := w_dirs w;
          w_heap := w_heap w;
          w_log := w_log w ++ option_list (face_print (w_dirs w) img r size out seq id c) |})
  end.
Proof.
  destruct cell as [x y]. unfold split_cell, cell_face.
  destruct (index_dict !! cell_index x y) as [face|]; [|done].
  destruct (bool_decide (face ∈ sides)); [|done].
  unfold try_except, bind at 1. rewrite write_face_spec.
  unfold face_status, face_write, face_print, face_fails, face_path, face_tile. simpl.
  destruct (face_error _ _ _ _ _ _ _) as [e|]; simpl.
  - done.
  - unfold ret, set_files. simpl. by rewrite app_nil_r.
Qed.

Lemma split_loop_spec cells st w :
  for_each cells (split_cell img r size out seq id sides) st w =
  let cs := omap (cell_face sides) cells in
  (Ok (st ++ (face_status (w_dirs w) img r size out seq id <$> cs)),
   {| w_files := foldl (face_write (w_dirs w) img r size out seq id) (w_files w) cs;
      w_dirs := w_dirs w;
      w_heap := w_heap w;
      w_log := w_log w ++ omap (face_print (w_dirs w) img r size out seq id) cs |}).
Proof.
  revert st w. induction cells as [|cell cells IH]; intros st w; simpl.
  - unfold ret. by rewrite !app_nil_r, world_eta.
  - unfold bind. rewrite split_cell_spec.
    destruct (cell_face sides cell) as [c|]; simpl.
    + rewrite IH. simpl. f_equal.
      * by rewrite <- app_assoc.
      * f_equal. rewrite <- app_assoc. f_equal.
        by destruct (face_print _ _ _ _ _ _ _ c).
    + apply IH.
Qed.

End SplitterFacts.

Lemma cubemap_splitter_readable cubemap size seq id out cube_sides w img :
  w_files w !! cubemap = Some (Pic img) →
  cubemap_splitter cubemap size seq id out cube_sides w =
  let r := img_width img - img_height img in
  let cs := requested_cells (split_sides cube_sides) in
  (Ok (face_status (w_dirs w) img r size out seq id <$> cs),
   {| w_files := foldl (face_write (w_dirs w) img r size out seq id) (w_files w) cs;
      w_dirs := w_dirs w;
      w_heap := w_heap w;
      w_log := w_log w ++ omap (face_print (w_dirs w) img r size out seq id) cs |}).
Proof.
  intros Himg. unfold cubemap_splitter, try_except, bind at 1, Fs.imread.
  rewrite Himg. rewrite split_loop_spec. done.
Qed.

Lemma cubemap_splitter_unreadable cubemap size seq id out cube_sides w :
  (∀ img, w_files w !! cubemap ≠ Some (Pic img)) →
  cubemap_splitter cubemap size seq id out cube_sides w =
  (Ok (replicate (length (split_sides cube_sides)) SFalse),
   {| w_files := w_files w; w_dirs := w_dirs w; w_heap := w_heap w;
      w_log := w_log w ++
        [EvPrint "error: " AttributeError
           (" in " +:+ out +:+ "/" +:+ seq +:+ "/" +:+ id +:+ ".jpg")] |}).
Proof.
  intros Himg. unfold cubemap_splitter, try_except, bind at 1, Fs.imread.
  destruct (w_files w !! cubemap) as [[b|im]|] eqn:E; try done.
  by specialize (Himg im).
Qed.

(* ===================================================================== *)
(** ** Strings and paths *)
(* ===================================================================== *)

Lemma sapp_nil_l s : EmptyString +:+ s = s.
Proof. reflexivity. Qed.

Lemma sapp_cons c a b : String c a +:+ b = String c (a +:+ b).
Proof. reflexivity. Qed.

Lemma sapp_nil_r s : s +:+ EmptyString = s.
Proof. induction s as [|c s IH]; [done|]. by rewrite sapp_cons, IH. Qed.

Lemma sapp_assoc a b c : (a +:+ b) +:+ c = a +:+ b +:+ c.
Proof. induction a as [|x a IH]; [done|]. by rewrite !sapp_cons, IH. Qed.

Lemma chars_app a b :
  list_ascii_of_string (a +:+ b) = list_ascii_of_string a ++ list_ascii_of_string b.
Proof. induction a as [|x a IH]; [done|]. rewrite sapp_cons. simpl. by rewrite IH. Qed.

Lemma chars_inj a b : list_ascii_of_string a = list_ascii_of_string b → a = b.
Proof.
  intros H. rewrite <- (string_of_list_ascii_of_string a),
    <- (string_of_list_ascii_of_string b). by rewrite H.
Qed.

Lemma sapp_inv_tail a b s : a +:+ s = b +:+ s → a = b.
Proof.
  intros H. apply chars_inj. apply (f_equal list_ascii_of_string) in H.
  rewrite !chars_app in H. by apply app_inv_tail in H.
Qed.

Lemma sapp_inv_head s a b : s +:+ a = s +:+ b → a = b.
Proof. apply String.app_inj. Qed.

Lemma chunk_img_path_inj out seq id f1 f2 :
  chunk_img_path out seq id f1 = chunk_img_path out seq id f2 → f1 = f2.
Proof.
  unfold chunk_img_path. intros H.
  do 6 apply sapp_inv_head in H. by apply sapp_inv_tail in H.
Qed.

Lemma strip_prefix_app p s : PyStr.strip_prefix p (p +:+ s) = Some s.
Proof.
  induction p as [|c p IH]; [done|]. rewrite sapp_cons. simpl.
  by rewrite Ascii.eqb_refl.
Qed.

Lemma strip_prefix_Some p s rest :
  PyStr.strip_prefix p s = Some rest → s = p +:+ rest.
Proof.
  revert s. induction p as [|c p IH]; intros s; simpl.
  - by intros [= ->].
  - destruct s as [|b s]; [done|].
    destruct (Ascii.eqb_spec c b) as [->|]; [|done].
    intros H%IH. by rewrite sapp_cons, H.
Qed.

Lemma ends_with_app m suf : PyStr.ends_with suf (m +:+ suf) = true.
Proof.
  induction m as [|c m IH].
  - rewrite sapp_nil_l. destruct suf; simpl; by rewrite ?String.eqb_refl, ?Ascii.eqb_refl.
  - rewrite sapp_cons. simpl. rewrite IH. apply orb_true_r.
Qed.

Lemma ends_with_Some suf s :
  PyStr.ends_with suf s = true → ∃ m, s = m +:+ suf.
Proof.
  induction s as [|c s IH]; simpl.
  - rewrite orb_false_r. intros ->%String.eqb_eq. by exists EmptyString.
  - intros [->%String.eqb_eq | H]%orb_true_iff.
    + by exists EmptyString.
    + destruct (IH H) as [m ->]. by exists (String c m).
Qed.

Lemma has_char_app c a b :
  PyStr.has_char c (a +:+ b) = PyStr.has_char c a || PyStr.has_char c b.
Proof.
  induction a as [|x a IH]; [done|]. rewrite sapp_cons. simpl.
  by rewrite IH, orb_assoc.
Qed.

Lemma last_char_app_cons a c b :
  PyStr.last_char (a +:+ String c b) = PyStr.last_char (String c b).
Proof.
  induction a as [|x a IH]; [done|]. rewrite sapp_cons.
  change (PyStr.last_char (String x (a +:+ String c b)))
    with (match a +:+ String c b with
          | EmptyString => Some x
          | _ => PyStr.last_char (a +:+ String c b)
          end).
  rewrite <- IH. by destruct a.
Qed.

(* ===================================================================== *)
(** ** The named cells of the grid *)
(* ===================================================================== *)

Lemma grid_scan_cells :
  grid_scan =
  [(0, 0); (0, 1); (0, 2); (1, 0); (1, 1); (1, 2);
   (2, 0); (2, 1); (2, 2); (3, 0); (3, 1); (3, 2)]%nat.
Proof. reflexivity. Qed.

Lemma index_dict_grid x y :
  In (x, y) grid_scan → index_dict !! cell_index x y = named_face x y.
Proof.
  rewrite grid_scan_cells. simpl.
  intros H; repeat (destruct H as [[= <- <-]|H]; [vm_compute; reflexivity|]); done.
Qed.

Lemma requested_cells_filter sides :
  requested_cells sides = filter (λ c, c.2 ∈ sides) named_cells.
Proof.
  unfold requested_cells. rewrite grid_scan_cells. unfold named_cells.
  cbn [omap list_omap cell_face].
  repeat match goal with
  | |- context [index_dict !! cell_index ?x ?y] =>
      let v := eval vm_compute in (index_dict !! cell_index x y) in
      change (index_dict !! cell_index x y) with v
  end.
  cbv beta iota.
  rewrite !filter_cons, filter_nil. simpl.
  repeat (case_bool_decide; case_decide; try done); done.
Qed.

Section Writes.

Context (dirs : gset string) (img : image) (r size : Z) (out seq id : string).

Lemma face_writes_other cs files p :
  (∀ c, c ∈ cs → face_fails dirs img r size out seq id c = None → face_path out seq id c ≠ p) →
  foldl (face_write dirs img r size out seq id) files cs !! p = files !! p.
Proof.
  revert files. induction cs as [|c cs IH]; intros files H; [done|]. simpl.
  rewrite IH by (intros; apply H; [by right|done]).
  unfold face_write. destruct (face_fails dirs img r size out seq id c) eqn:E; [done|].
  apply lookup_insert_ne, H; [by left|done].
Qed.

Lemma face_writes_hit cs files c :
  NoDup (face_path out seq id <$> cs) → c ∈ cs → face_fails dirs img r size out seq id c = None →
  foldl (face_write dirs img r size out seq id) files cs !! face_path out seq id c = Some (Pic (face_tile img r size c)).
Proof.
  revert files. induction cs as [|c0 cs IH]; intros files Hnd Hin Hok.
  - by apply not_elem_of_nil in Hin.
  - rewrite fmap_cons in Hnd. apply NoDup_cons in Hnd as [Hnotin Hnd]. simpl.
    destruct (decide (face_path out seq id c0 = face_path out seq id c)) as [Heq|Hne].
    + rewrite face_writes_other.
      * apply chunk_img_path_inj in Heq as Hface.
        unfold face_write. 
        assert (face_fails dirs img r size out seq id c0 = face_fails dirs img r size out seq id c) as ->.
        { unfold face_fails, face_path. 
          apply elem_of_cons in Hin as [->|Hin]; [done|].
          exfalso. apply Hnotin. rewrite Heq. by apply list_elem_of_fmap_2. }
        rewrite Hok, Heq. rewrite lookup_insert_eq.
        apply elem_of_cons in Hin as [->|Hin]; [done|].
        exfalso. apply Hnotin. rewrite Heq. by apply list_elem_of_fmap_2.
      * intros c' Hc' _ E. apply Hnotin. rewrite Heq, <- E.
        by apply list_elem_of_fmap_2.
    + apply IH; [done| |done].
      apply elem_of_cons in Hin as [->|Hin]; [done|done].
Qed.

End Writes.

Lemma requested_cells_named sides c :
  c ∈ requested_cells sides ↔ c ∈ named_cells ∧ c.2 ∈ sides.
Proof. rewrite requested_cells_filter, list_elem_of_filter. tauto. Qed.

Lemma named_cells_spec x y f :
  (x, y, f) ∈ named_cells ↔ In (x, y) grid_scan ∧ named_face x y = Some f.
Proof.
  unfold named_cells. rewrite grid_scan_cells. split.
  - rewrite !elem_of_cons, elem_of_nil.
    intros H. repeat (destruct H as [[= -> -> ->]|H]; [simpl; tauto|]). done.
  - intros [Hin Hf]. simpl in Hin.
    repeat (destruct Hin as [[= <- <-]|Hin];
            [simpl in Hf; try discriminate; injection Hf as <-;
             rewrite !elem_of_cons; tauto|]).
    done.
Qed.

Lemma named_faces_nodup : NoDup (named_cells.*2).
Proof. by apply (bool_decide_unpack _). Qed.

Lemma requested_paths_nodup out seq id sides :
  NoDup (face_path out seq id <$> requested_cells sides).
Proof.
  rewrite requested_cells_filter.
  apply NoDup_fmap_2_strong.
  - intros c1 c2 H1 H2 Heq. apply chunk_img_path_inj in Heq.
    apply list_elem_of_filter in H1 as [_ H1], H2 as [_ H2].
    revert c1 c2 H1 H2 Heq. unfold named_cells.
    intros c1 c2 H1 H2.
    rewrite !elem_of_cons, elem_of_nil in H1, H2.
    repeat (destruct H1 as [->|H1]); try done;
    repeat (destruct H2 as [->|H2]); try done.
  - apply NoDup_filter. 
    eapply NoDup_fmap_1. apply named_faces_nodup.
Qed.

(* ===================================================================== *)
(** ** C4: face selection *)
(* ===================================================================== *)

(** C4. Over the 4 x 3 scan, [index_dict] names exactly the six cells of
    the specification ([named_face]); a cell without a name, and a named
    cell whose face was not asked for, leaves the outcomes and the world as
    they are; and [cubemap_splitter] as a whole changes no file other than
    the tiles of the named faces that were asked for. *)
Theorem face_selection (x y : nat) :
  In (x, y) grid_scan →
  index_dict !! cell_index x y = named_face x y ∧
  (∀ img r size out seq id sides st w,
     (named_face x y = None ∨ ∃ f, named_face x y = Some f ∧ f ∉ sides) →
     split_cell img r size out seq id sides (x, y) st w = (Ok st, w)) ∧
  (∀ cubemap size seq id out cube_sides w p,
     (∀ x' y' f, In (x', y') grid_scan → named_face x' y' = Some f →
                 f ∈ split_sides cube_sides → p ≠ chunk_img_path out seq id f) →
     w_files (cubemap_splitter cubemap size seq id out cube_sides w).2 !! p
     = w_files w !! p).
Proof.
  intros Hin. split; [by apply index_dict_grid|]. split.
  - intros img r size out seq id sides st w H.
    rewrite split_cell_spec. unfold cell_face.
    rewrite index_dict_grid by done.
    destruct H as [->|(f & -> & Hf)]; [done|].
    by rewrite bool_decide_eq_false_2.
  - intros cubemap size seq id out cube_sides w p Hp.
    destruct (w_files w !! cubemap) as [[b|img]|] eqn:E.
    + rewrite cubemap_splitter_unreadable; [done|]. by rewrite E.
    + rewrite (cubemap_splitter_readable _ _ _ _ _ _ _ img) by done. simpl.
      apply face_writes_other. intros [[x' y'] f] Hc _.
      apply requested_cells_named in Hc as [Hn Hs].
      apply named_cells_spec in Hn as [Hg Hf]. unfold face_path. simpl.
      intros Heq. by apply (Hp x' y' f).
    + rewrite cubemap_splitter_unreadable; [done|]. by rewrite E.
Qed.

Lemma face_selection_witness :
  index_dict !! cell_index 2 2 = None ∧
  split_cell Ex.cubemap_4x3 1 1 "out" "s" "7" ["front"; "back"] (2, 2)%nat []
    (Ex.with_cubemap Ex.cubemap_4x3) = (Ok [], Ex.with_cubemap Ex.cubemap_4x3).
Proof.
  assert (In (2, 2)%nat grid_scan) as Hin by (vm_compute; tauto).
  split.
  - apply (face_selection 2 2 Hin).
  - apply (face_selection 2 2 Hin). left. reflexivity.
Defined.

(* ===================================================================== *)
(** ** C6: the cubemap cannot be read *)
(* ===================================================================== *)

(** C6. When the file of the cubemap is not a readable image,
    [cubemap_splitter] returns [False] once for every name of
    [cube_sides.split(",")] and leaves the files and directories as they
    are. *)
Theorem total_extraction_failure cubemap size seq id out cube_sides w :
  (∀ img, w_files w !! cubemap ≠ Some (Pic img)) →
  ∃ sts w',
    cubemap_splitter cubemap size seq id out cube_sides w = (Ok sts, w') ∧
    sts = replicate (length (split_sides cube_sides)) SFalse ∧
    length sts = length (split_sides cube_sides) ∧
    w_files w' = w_files w ∧ w_dirs w' = w_dirs w.
Proof.
  intros H. rewrite cubemap_splitter_unreadable by done.
  eexists _, _. split; [done|]. split; [done|]. by rewrite length_replicate.
Qed.

Lemma total_extraction_failure_witness :
  ∃ sts w',
    cubemap_splitter "out/s/7_cubemap.jpg" 1000 "s" "7" "out" "front,up,back"
      Ex.empty_world = (Ok sts, w') ∧
    sts = replicate (length (split_sides "front,up,back")) SFalse ∧
    length sts = length (split_sides "front,up,back") ∧
    w_files w' = w_files Ex.empty_world ∧ w_dirs w' = w_dirs Ex.empty_world.
Proof.
  apply (total_extraction_failure "out/s/7_cubemap.jpg" 1000 "s" "7" "out"
           "front,up,back" Ex.empty_world).
  intros img. vm_compute. discriminate.
Defined.

(* ===================================================================== *)
(** ** C5: one face fails, the others are extracted *)
(* ===================================================================== *)

(** C5. On a cubemap that was read, the outcomes are one per requested
    named face, in the order of the scan. Whether the crop, the conversion
    and the write of a face ([write_face]) raise does not depend on the
    other faces: a face for which they raise gets [False] and its file is
    left as it was; every other face gets the path of its tile, and the
    tile is in that file. *)
Theorem partial_failure_isolation cubemap size seq id out cube_sides w img :
  w_files w !! cubemap = Some (Pic img) →
  let r := img_width img - img_height img in
  let cs := requested_cells (split_sides cube_sides) in
  ∃ sts w',
    cubemap_splitter cubemap size seq id out cube_sides w = (Ok sts, w') ∧
    length sts = length cs ∧
    ∀ i c, cs !! i = Some c →
      let path := chunk_img_path out seq id c.2 in
      match (write_face img r size c.1.1 c.1.2 path w).1 with
      | Raise _ => sts !! i = Some SFalse ∧ w_files w' !! path = w_files w !! path
      | Ok _ => sts !! i = Some (SPath path) ∧
                w_files w' !! path = Some (Pic (rgb_of (crop_img img r size c.1.1 c.1.2)))
      end.
Proof.
  intros Himg r cs. subst cs r.
  rewrite (cubemap_splitter_readable _ _ _ _ _ _ _ img) by done.
  eexists _, _. split; [done|]. split; [by rewrite length_fmap|].
  intros i c Hc path. rewrite write_face_spec. simpl.
  rewrite list_lookup_fmap, Hc. simpl.
  unfold face_status.
  change (face_error (w_dirs w) img _ size c.1.1 c.1.2 path)
    with (face_fails (w_dirs w) img (img_width img - img_height img) size out seq id c).
  destruct (face_fails _ _ _ _ _ _ _ c) as [e|] eqn:E; simpl.
  - split; [done|]. apply face_writes_other.
    intros c' Hc' Hok Heq.
    assert (c' = c) as ->; [|congruence].
    pose proof (requested_paths_nodup out seq id (split_sides cube_sides)) as Hnd.
    apply list_elem_of_lookup in Hc' as [j Hj].
    eapply NoDup_lookup in Hnd.
    2:{ rewrite list_lookup_fmap, Hj. reflexivity. }
    2:{ rewrite list_lookup_fmap, Hc. simpl. f_equal. symmetry. exact Heq. }
    subst j. congruence.
  - split; [done|].
    apply (face_writes_hit (w_dirs w) img _ size out seq id _ (w_files w) c).
    + apply requested_paths_nodup.
    + by eapply list_elem_of_lookup_2.
    + done.
Qed.

Lemma partial_failure_isolation_witness :
  let img := Ex.cubemap_4x3 in
  let w := Ex.front_blocked in
  let r := img_width img - img_height img in
  let cs := requested_cells (split_sides "front,back") in
  ∃ sts w',
    cubemap_splitter "out/s/7_cubemap.jpg" 1 "s" "7" "out" "front,back" w = (Ok sts, w') ∧
    length sts = length cs ∧
    ∀ i c, cs !! i = Some c →
      let path := chunk_img_path "out" "s" "7" c.2 in
      match (write_face img r 1 c.1.1 c.1.2 path w).1 with
      | Raise _ => sts !! i = Some SFalse ∧ w_files w' !! path = w_files w !! path
      | Ok _ => sts !! i = Some (SPath path) ∧
                w_files w' !! path = Some (Pic (rgb_of (crop_img img r 1 c.1.1 c.1.2)))
      end.
Proof.
  apply (partial_failure_isolation "out/s/7_cubemap.jpg" 1 "s" "7" "out"
           "front,back" Ex.front_blocked Ex.cubemap_4x3).
  reflexivity.
Defined.

(* ===================================================================== *)
(** ** C9: names that are no face *)
(* ===================================================================== *)

Lemma named_cells_face c : c ∈ named_cells → c.2 ∈ face_names.
Proof.
  unfold named_cells, face_names. rewrite !elem_of_cons, elem_of_nil.
  intros H. repeat (destruct H as [->|H]; [simpl; auto 10|]).
  done.
Qed.

Lemma requested_cells_length sides :
  length (requested_cells sides) = length (filter (λ f, f ∈ sides) face_names).
Proof.
  rewrite requested_cells_filter. unfold named_cells, face_names.
  rewrite !filter_cons, !filter_nil. simpl.
  repeat case_decide; reflexivity.
Qed.

Lemma filter_length_lt {A} (P : A → Prop) `{∀ x, Decision (P x)} (l : list A) x :
  x ∈ l → ¬ P x → (length (filter P l) < length l)%nat.
Proof.
  induction l as [|a l IH]; intros Hin Hx.
  - by apply not_elem_of_nil in Hin.
  - rewrite filter_cons. apply elem_of_cons in Hin as [->|Hin].
    + rewrite decide_False by done. simpl.
      pose proof (length_filter P l). lia.
    + specialize (IH Hin Hx). case_decide; simpl; lia.
Qed.

Lemma valid_requested_length sides :
  (length (filter (λ f, f ∈ sides) face_names)
   ≤ length (filter (λ n, n ∈ face_names) sides))%nat.
Proof.
  apply submseteq_length, NoDup_submseteq.
  - apply NoDup_filter. by apply (bool_decide_unpack _).
  - intros f [Hs Hf]%list_elem_of_filter. by apply list_elem_of_filter.
Qed.

(** C9. On a cubemap that was read, a requested name that is none of the
    six faces has no file written and no path among the outcomes; the
    outcomes are as many as the faces among the requested names, so a
    request with such a name gets fewer outcomes than names. *)
Theorem invalid_names_dropped cubemap size seq id out cube_sides w img :
  w_files w !! cubemap = Some (Pic img) →
  ∃ sts w',
    cubemap_splitter cubemap size seq id out cube_sides w = (Ok sts, w') ∧
    length sts = length (filter (λ f, f ∈ split_sides cube_sides) face_names) ∧
    (∀ n, n ∈ split_sides cube_sides → n ∉ face_names →
          w_files w' !! chunk_img_path out seq id n
          = w_files w !! chunk_img_path out seq id n ∧
          SPath (chunk_img_path out seq id n) ∉ sts) ∧
    ((∃ n, n ∈ split_sides cube_sides ∧ n ∉ face_names) →
     (length sts < length (split_sides cube_sides))%nat).
Proof.
  intros Himg.
  rewrite (cubemap_splitter_readable _ _ _ _ _ _ _ img) by done.
  eexists _, _. split; [done|].
  assert (∀ n c, n ∉ face_names → c ∈ requested_cells (split_sides cube_sides) →
                 face_path out seq id c ≠ chunk_img_path out seq id n) as Hpath.
  { intros n c Hn [Hc _]%requested_cells_named Heq.
    apply chunk_img_path_inj in Heq. apply Hn. rewrite <- Heq.
    by apply named_cells_face. }
  split; [by rewrite length_fmap, requested_cells_length|]. split.
  - intros n Hs Hn. simpl. split.
    + apply face_writes_other. intros c Hc _. by apply Hpath.
    + intros (c & Hst & Hc)%list_elem_of_fmap.
      unfold face_status in Hst.
      destruct (face_fails _ _ _ _ _ _ _ c); [done|].
      injection Hst as Hst. by apply (Hpath n c).
  - intros (n & Hs & Hn). rewrite length_fmap, requested_cells_length.
    eapply Nat.le_lt_trans; [apply valid_requested_length|].
    by apply (filter_length_lt _ _ n).
Qed.

Lemma invalid_names_dropped_witness :
  ∃ sts w',
    cubemap_splitter "out/s/7_cubemap.jpg" 1 "s" "7" "out" "front,up,back"
      (Ex.with_cubemap Ex.cubemap_4x3) = (Ok sts, w') ∧
    length sts = length (filter (λ f, f ∈ split_sides "front,up,back") face_names) ∧
    (∀ n, n ∈ split_sides "front,up,back" → n ∉ face_names →
          w_files w' !! chunk_img_path "out" "s" "7" n
          = w_files (Ex.with_cubemap Ex.cubemap_4x3) !! chunk_img_path "out" "s" "7" n ∧
          SPath (chunk_img_path "out" "s" "7" n) ∉ sts) ∧
    ((∃ n, n ∈ split_sides "front,up,back" ∧ n ∉ face_names) →
     (length sts < length (split_sides "front,up,back"))%nat).
Proof.
  apply (invalid_names_dropped "out/s/7_cubemap.jpg" 1 "s" "7" "out"
           "front,up,back" (Ex.with_cubemap Ex.cubemap_4x3) Ex.cubemap_4x3).
  reflexivity.
Defined.

(* ===================================================================== *)
(** ** C3: where a face is cropped from *)
(* ===================================================================== *)

Lemma slice_bound_inside n i : 0 <= i <= n → slice_bound n i = i.
Proof. unfold slice_bound. intros H. destruct (Z.ltb_spec i 0); lia. Qed.

Lemma crop_img_window img r size x y :
  0 < size →
  0 <= Z.of_nat y * r → Z.of_nat y * r + size <= img_height img →
  0 <= Z.of_nat x * r → Z.of_nat x * r + size <= img_width img →
  is_empty (crop_img img r size x y) = false ∧
  is_window img (Z.of_nat y * r) (Z.of_nat x * r) size
            (rgb_of (crop_img img r size x y)).
Proof.
  intros Hs Ht Hb Hl Hr. unfold crop_img, slice2, is_empty, is_window. simpl.
  rewrite !slice_bound_inside by lia. split.
  - apply orb_false_iff. split; apply Z.leb_gt; lia.
  - repeat split; try lia. 
Qed.

(** C3, the claim at a cubemap whose cells are smaller than the clip size:
    on the 4 x 3 cubemap with clip size 2, the bottom face (cell (1, 2),
    rows 2 up to 4) is written with the one row the image has from row 2
    on, not with rows 2 and 3. *)
Lemma crop_geometry_counterexample :
  ∃ tile,
    w_files (cubemap_splitter "out/s/7_cubemap.jpg" 2 "s" "7" "out" "bottom"
               (Ex.with_cubemap Ex.cubemap_4x3)).2 !! "out/s/7_bottom.jpg"
    = Some (Pic tile) ∧
    img_height tile = 1 ∧
    ¬ is_window Ex.cubemap_4x3 (2 * (4 - 3)) (1 * (4 - 3)) 2 tile.
Proof.
  eexists. split; [vm_compute; reflexivity|]. split; [reflexivity|].
  intros [H _]. simpl in H. discriminate.
Qed.

(** C3, amended. When the window of the face (rows [y*r] up to
    [y*r + size], columns [x*r] up to [x*r + size], with [r = W - H]) lies
    inside the cubemap and the tile can be written, the file of a requested
    face holds exactly that window. *)
Theorem crop_geometry cubemap size seq id out cube_sides w img x y face :
  w_files w !! cubemap = Some (Pic img) →
  In (x, y) grid_scan →
  index_dict !! cell_index x y = Some face →
  face ∈ split_sides cube_sides →
  let r := img_width img - img_height img in
  0 < size →
  0 <= Z.of_nat y * r → Z.of_nat y * r + size <= img_height img →
  0 <= Z.of_nat x * r → Z.of_nat x * r + size <= img_width img →
  let path := chunk_img_path out seq id face in
  Fs.is_dir (w_dirs w) path = false →
  Fs.parent_ok (w_dirs w) path = true →
  ∃ tile,
    w_files (cubemap_splitter cubemap size seq id out cube_sides w).2 !! path
    = Some (Pic tile) ∧
    is_window img (Z.of_nat y * r) (Z.of_nat x * r) size tile.
Proof.
  intros Himg Hin Hface Hreq r Hs Ht Hb Hl Hr path Hdir Hpar.
  destruct (crop_img_window img r size x y Hs Ht Hb Hl Hr) as [Hne Hwin].
  exists (rgb_of (crop_img img r size x y)). split; [|done].
  rewrite (cubemap_splitter_readable _ _ _ _ _ _ _ img) by done. simpl.
  apply (face_writes_hit (w_dirs w) img r size out seq id _ (w_files w) (x, y, face)).
  - apply requested_paths_nodup.
  - apply requested_cells_named. split; [|done].
    apply named_cells_spec. split; [done|]. by rewrite <- index_dict_grid.
  - unfold face_fails, face_error, face_path. simpl.
    fold path. by rewrite Hne, Hdir, Hpar.
Qed.

Lemma crop_geometry_witness :
  let w := Ex.with_cubemap Ex.cubemap_4000x3000 in
  let w' := (cubemap_splitter "out/s/7_cubemap.jpg" 1000 "s" "7" "out"
               "front,back" w).2 in
  (∃ tile, w_files w' !! "out/s/7_front.jpg" = Some (Pic tile) ∧
           is_window Ex.cubemap_4000x3000 1000 1000 1000 tile) ∧
  (∃ tile, w_files w' !! "out/s/7_back.jpg" = Some (Pic tile) ∧
           is_window Ex.cubemap_4000x3000 1000 3000 1000 tile).
Proof.
  split.
  - apply (crop_geometry "out/s/7_cubemap.jpg" 1000 "s" "7" "out" "front,back"
             (Ex.with_cubemap Ex.cubemap_4000x3000) Ex.cubemap_4000x3000
             1 1 "front");
      try reflexivity; try (vm_compute; intuition congruence).
    apply (bool_decide_unpack _). vm_compute. exact I.
  - apply (crop_geometry "out/s/7_cubemap.jpg" 1000 "s" "7" "out" "front,back"
             (Ex.with_cubemap Ex.cubemap_4000x3000) Ex.cubemap_4000x3000
             3 1 "back");
      try reflexivity; try (vm_compute; intuition congruence).
    apply (bool_decide_unpack _). vm_compute. exact I.
Defined.

(* ===================================================================== *)
(** ** The cleaner in closed form *)
(* ===================================================================== *)

Lemma lookup_foldl_delete (ps : list string) (files : gmap string content) q :
  foldl (λ fs p, delete p fs) files ps !! q
  = if decide (q ∈ ps) then None else files !! q.
Proof.
  revert files. induction ps as [|p ps IH]; intros files.
  - rewrite decide_False by apply not_elem_of_nil. done.
  - change (foldl (λ fs p, delete p fs) files (p :: ps))
      with (foldl (λ fs p, delete p fs) (delete p files) ps).
    rewrite IH. destruct (decide (q ∈ ps)) as [Hin|Hnin].
    + by rewrite decide_True by (by right).
    + destruct (decide (q = p)) as [->|Hne].
      * rewrite decide_True by (by left). apply lookup_delete_eq.
      * rewrite decide_False by (rewrite elem_of_cons; tauto).
        by apply lookup_delete_ne.
Qed.

Lemma is_file_delete files p q :
  Fs.is_file files q = false → Fs.is_file (delete p files) q = false.
Proof.
  unfold Fs.is_file. rewrite !bool_decide_eq_false.
  intros H [x Hx]. apply H. exists x.
  destruct (decide (p = q)) as [->|Hne].
  - by rewrite lookup_delete_eq in Hx.
  - by rewrite lookup_delete_ne in Hx.
Qed.

Lemma for_each_cons {A B} (x : A) (xs : list A) (body : A -> B -> M B) acc :
  for_each (x :: xs) body acc = bind (body x acc) (for_each xs body).
Proof. reflexivity. Qed.

Lemma try_remove_spec p w :
  try_except (Fs.remove p) (λ e, print_exn "An error occurred: " e EmptyString) w
  = if Fs.is_file (w_files w) p
    then (Ok tt, set_files (delete p (w_files w)) w)
    else (Ok tt, {| w_files := w_files w; w_dirs := w_dirs w; w_heap := w_heap w;
                    w_log := w_log w ++ [removal_error (w_dirs w) p] |}).
Proof.
  unfold try_except, Fs.remove, removal_error.
  destruct (Fs.is_file _ _); [done|]. by destruct (Fs.is_dir _ _).
Qed.

Lemma remove_all_spec (ps : list string) w :
  ∃ msgs,
    for_each ps
      (λ file (_ : unit),
         try_except (Fs.remove file)
                    (λ e, print_exn "An error occurred: " e EmptyString)) tt w
    = (Ok tt,
       {| w_files := foldl (λ fs p, delete p fs) (w_files w) ps;
          w_dirs := w_dirs w; w_heap := w_heap w;
          w_log := w_log w ++ msgs |}) ∧
    Forall (λ ev, ∃ e, ev = EvPrint "An error occurred: " e EmptyString) msgs ∧
    ∀ p, p ∈ ps → Fs.is_file (w_files w) p = false →
         removal_error (w_dirs w) p ∈ msgs.
Proof.
  revert w. induction ps as [|p ps IH]; intros w.
  - exists []. simpl. unfold ret. rewrite app_nil_r, world_eta.
    split; [done|]. split; [constructor|]. intros p Hp. by apply not_elem_of_nil in Hp.
  - rewrite for_each_cons. unfold bind. rewrite try_remove_spec.
    destruct (Fs.is_file (w_files w) p) eqn:Hf.
    + destruct (IH (set_files (delete p (w_files w)) w)) as (msgs & Hrun & Hall & Hlog).
      exists msgs. rewrite Hrun. simpl. split; [done|]. split; [done|].
      intros q [->|Hq]%elem_of_cons Hnf; [congruence|].
      apply (Hlog q Hq). simpl. by apply is_file_delete.
    + match goal with
      | |- context [for_each ps ?f tt ?w1] => destruct (IH w1) as (msgs & Hrun & Hall & Hlog)
      end.
      exists (removal_error (w_dirs w) p :: msgs).
      rewrite Hrun. simpl. split.
      { f_equal. 
        assert (delete p (w_files w) = w_files w) as ->.
        { apply delete_id. unfold Fs.is_file in Hf.
          apply bool_decide_eq_false in Hf.
          destruct (w_files w !! p) eqn:E; [|done]. exfalso. apply Hf. eauto. }
        f_equal. by rewrite <- app_assoc. }
      split; [constructor; [unfold removal_error; eauto|done]|].
      intros q [->|Hq]%elem_of_cons Hnf.
      * by left. 
      * right. by apply (Hlog q Hq).
Qed.

Lemma entries_file w p x : w_files w !! p = Some x → p ∈ Fs.entries w.
Proof.
  intros H. unfold Fs.entries. apply elem_of_app. left.
  apply list_elem_of_fmap. exists (p, x). split; [done|].
  by apply elem_of_map_to_list.
Qed.

Lemma entries_dir w d : d ∈ w_dirs w → d ∈ Fs.entries w.
Proof.
  intros H. unfold Fs.entries. apply elem_of_app. right. by apply elem_of_elements.
Qed.

Lemma clean_files_spec folder id cube_sides w :
  Fs.glob_supported (folder +:+ "/" +:+ id) = true →
  ∃ msgs w',
    clean_files folder id cube_sides w = (Ok tt, w') ∧
    w_dirs w' = w_dirs w ∧ w_heap w' = w_heap w ∧ w_log w' = w_log w ++ msgs ∧
    Forall (λ ev, ∃ e, ev = EvPrint "An error occurred: " e EmptyString) msgs ∧
    (∀ p, w_files w' !! p
          = if decide (Fs.glob_match (folder +:+ "/" +:+ id) p = true
                       ∧ p ∉ images_generate folder id cube_sides)
            then None else w_files w !! p) ∧
    (∀ d, d ∈ w_dirs w → Fs.glob_match (folder +:+ "/" +:+ id) d = true →
          d ∉ images_generate folder id cube_sides →
          Fs.is_file (w_files w) d = false →
          removal_error (w_dirs w) d ∈ msgs).
Proof.
  intros Hsup. unfold clean_files, bind at 1, Fs.glob_jpg. rewrite Hsup.
  match goal with
  | |- context [for_each ?ps _ tt w] =>
      destruct (remove_all_spec ps w) as (msgs & Hrun & Hall & Hlog);
      set (removed := ps) in *
  end.
  exists msgs. eexists. split; [exact Hrun|]. simpl.
  do 4 (split; [done|]).
  assert (∀ p, p ∈ removed ↔
               ((p ∉ images_generate folder id cube_sides)
                ∧ Fs.glob_match (folder +:+ "/" +:+ id) p = true) ∧ p ∈ Fs.entries w)
    as Hrem.
  { intros p. unfold removed. rewrite !list_elem_of_filter. tauto. }
  split.
  - intros p. rewrite lookup_foldl_delete.
    destruct (decide (p ∈ removed)) as [Hin|Hnin].
    + apply Hrem in Hin. rewrite decide_True; [done|tauto].
    + case_decide as Hm; [|done].
      destruct (w_files w !! p) as [x|] eqn:E; [|done].
      exfalso. apply Hnin, Hrem. split; [tauto|]. by eapply entries_file.
  - intros d Hd Hm Hg Hf. apply Hlog; [|done].
    apply Hrem. split; [done|]. by apply entries_dir.
Qed.

(* ===================================================================== *)
(** ** C10: what the cleaner deletes *)
(* ===================================================================== *)

Lemma last_char_no_slash s :
  s ≠ EmptyString → PyStr.has_char "/" s = false →
  ∃ a, PyStr.last_char s = Some a ∧ a ≠ "/"%char.
Proof.
  induction s as [|c s IH]; [done|]. intros _ H. simpl in H.
  apply orb_false_iff in H as [Hc Hs].
  destruct s as [|c' s].
  - exists c. split; [done|]. by apply Ascii.eqb_neq.
  - destruct IH as (a & Ha & Hne); [done|done|]. exists a. split; [|done].
    exact Ha.
Qed.

Lemma glob_match_jpg folder id p :
  id ≠ EmptyString → PyStr.has_char "/" id = false →
  Fs.glob_match (folder +:+ "/" +:+ id) p = true ↔ jpg_with_prefix folder id p.
Proof.
  intros Hid Hslash.
  assert (∀ rest : string,
            negb (match PyStr.last_char (folder +:+ "/" +:+ id) with
                  | None | Some "/"%char =>
                      bool_decide (PyStr.first_char rest = Some "."%char)
                  | _ => false
                  end) = true) as Hhidden.
  { intros rest. destruct (last_char_no_slash id Hid Hslash) as (a & Ha & Hne).
    destruct id as [|c id']; [done|].
    rewrite <- sapp_assoc, last_char_app_cons, Ha.
    destruct a as [[] [] [] [] [] [] [] []]; try reflexivity. by destruct Hne. }
  unfold Fs.glob_match, jpg_with_prefix. split.
  - destruct (PyStr.strip_prefix _ p) as [rest|] eqn:E; [|done].
    apply strip_prefix_Some in E as ->.
    intros [[He Hs]%andb_true_iff _]%andb_true_iff.
    apply ends_with_Some in He as [m ->]. exists m. split; [done|].
    apply negb_true_iff in Hs. rewrite has_char_app in Hs.
    by apply orb_false_iff in Hs as [? _].
  - intros (m & -> & Hm). rewrite strip_prefix_app, ends_with_app.
    rewrite has_char_app, Hm, Hhidden. reflexivity.
Qed.






(* ===================================================================== *)
(** ** deepcopy *)
(* ===================================================================== *)

Section DeepCopy.

Local Open Scope nat_scope.

Lemma val_rel_mono (R R' : nat → nat → Prop) v v' :
  (∀ l l', R l l' → R' l l') → val_rel R v v' → val_rel R' v v'.
Proof.
  intros H. destruct v; simpl; try done. intros (l' & -> & Hl). eauto.
Qed.

Lemma obj_rel_mono (R R' : nat → nat → Prop) o o' :
  (∀ l l', R l l' → R' l l') → obj_rel R o o' → obj_rel R' o o'.
Proof.
  intros H (vs' & -> & Hvs). exists vs'. split; [done|].
  eapply Forall2_impl; [done|]. intros. by eapply val_rel_mono.
Qed.

Lemma memo_rel_mono (m m' : gmap nat nat) l l' :
  m ⊆ m' → memo_rel m l l' → memo_rel m' l l'.
Proof. unfold memo_rel. intros. by eapply lookup_weaken. Qed.

Lemma obj_vals_with_vals o vs :
  length vs = length (obj_vals o) → obj_vals (obj_with_vals o vs) = vs.
Proof.
  destruct o as [kvs|xs]; simpl; [|done].
  rewrite length_fmap. intros H. apply snd_zip. rewrite length_fmap. lia.
Qed.

Lemma val_closed_mono (h h' : list pyobj) v :
  length h ≤ length h' → val_closed h v → val_closed h' v.
Proof. destruct v; simpl; try done. lia. Qed.

Lemma copy_list_ok h0 copy :
  copy_ok h0 copy →
  ∀ vs P h m vs' h' m',
    copy_inv h0 P h m → copy_list copy vs h m = Some (vs', h', m') →
    copy_inv h0 P h' m' ∧ m ⊆ m' ∧ Forall2 (val_rel (memo_rel m')) vs vs'.
Proof.
  intros Hok. induction vs as [|x r IH]; intros P h m vs' h' m' Hinv Hrun.
  - simpl in Hrun. injection Hrun as <- <- <-. split; [done|]. split; [done|constructor].
  - simpl in Hrun.
    destruct (copy x h m) as [[[x' h1] m1]|] eqn:Ex; [|done].
    destruct (copy_list copy r h1 m1) as [[[r' h2] m2]|] eqn:Er; [|done].
    injection Hrun as <- <- <-.
    destruct (Hok _ _ _ _ _ _ _ Hinv Ex) as (Hinv1 & Hsub1 & Hx).
    destruct (IH _ _ _ _ _ _ Hinv1 Er) as (Hinv2 & Hsub2 & Hr).
    split; [done|]. split; [by etrans|].
    constructor; [|done]. eapply val_rel_mono; [|done].
    intros l l'. by apply memo_rel_mono.
Qed.

Lemma copy_inv_enter h0 P h m l o :
  copy_inv h0 P h m → m !! l = None → h0 !! l = Some o →
  copy_inv h0 (l :: P) (h ++ [obj_blank o]) (<[l := length h]> m).
Proof.
  intros [Hext Hrange Hinj Hdone Hclosed] Hm Ho.
  assert (length h0 ≤ length h) as Hlen.
  { destruct Hext as [ext ->]. rewrite length_app. lia. }
  constructor.
  - destruct Hext as [ext ->]. exists (ext ++ [obj_blank o]). by rewrite app_assoc.
  - intros k k'. rewrite length_app. simpl.
    destruct (decide (l = k)) as [<-|Hne].
    + rewrite lookup_insert_eq. intros [= <-].
      apply lookup_lt_Some in Ho. lia.
    + rewrite lookup_insert_ne by done. intros Hk.
      apply Hrange in Hk. lia.
  - intros k1 k2 k'.
    destruct (decide (l = k1)) as [<-|Hne1], (decide (l = k2)) as [<-|Hne2];
      rewrite ?lookup_insert_eq, ?lookup_insert_ne by done; try done.
    + intros [= <-] Hk. apply Hrange in Hk. lia.
    + intros Hk [= <-]. apply Hrange in Hk. lia.
    + apply Hinj.
  - intros k k'.
    destruct (decide (l = k)) as [<-|Hne].
    + intros _. left. by left.
    + rewrite lookup_insert_ne by done. intros Hk.
      destruct (Hdone _ _ Hk) as [HP|(o1 & o1' & H1 & H2 & H3)].
      * left. by right.
      * right. exists o1, o1'. split; [done|]. split.
        -- rewrite lookup_app_l; [done|]. by eapply lookup_lt_Some.
        -- eapply obj_rel_mono; [|done]. intros a b. apply memo_rel_mono.
           by apply insert_subseteq.
  - intros k' o' Hk' Hlook.
    destruct (decide (k' < length h)) as [Hlt|Hge].
    + rewrite lookup_app_l in Hlook by done.
      eapply Forall_impl; [by eapply Hclosed|].
      intros v. apply val_closed_mono. rewrite length_app. lia.
    + rewrite lookup_app_r in Hlook by lia.
      destruct (k' - length h) as [|n]; simpl in Hlook; [|by destruct n].
      injection Hlook as <-. destruct o; constructor.
Qed.

Lemma copy_inv_leave h0 P h m l l' o vs' :
  copy_inv h0 (l :: P) h m → m !! l = Some l' → h0 !! l = Some o →
  Forall2 (val_rel (memo_rel m)) (obj_vals o) vs' →
  copy_inv h0 P (<[l' := obj_with_vals o vs']> h) m.
Proof.
  intros [Hext Hrange Hinj Hdone Hclosed] Hm Ho Hvs.
  destruct (Hrange _ _ Hm) as [Hl Hl'].
  constructor.
  - destruct Hext as [ext ->].
    exists (<[l' - length h0 := obj_with_vals o vs']> ext).
    apply insert_app_r_alt. lia.
  - intros k k' Hk. rewrite length_insert. by apply Hrange.
  - done.
  - intros k k' Hk.
    destruct (decide (k = l)) as [->|Hne].
    + right. assert (k' = l') as -> by congruence.
      exists o, (obj_with_vals o vs'). split; [done|]. split.
      * apply list_lookup_insert_eq. lia.
      * by exists vs'.
    + destruct (Hdone _ _ Hk) as [HP|(o1 & o1' & H1 & H2 & H3)].
      * apply elem_of_cons in HP as [->|HP]; [done|]. by left.
      * right. exists o1, o1'. split; [done|]. split; [|done].
        rewrite list_lookup_insert_ne; [done|].
        intros <-. apply Hne. by eapply Hinj.
  - intros k' o' Hk' Hlook.
    assert (∀ v, val_closed h v → val_closed (<[l' := obj_with_vals o vs']> h) v)
      as Hmono.
    { intros v. apply val_closed_mono. by rewrite length_insert. }
    destruct (decide (k' = l')) as [->|Hne].
    + rewrite list_lookup_insert_eq in Hlook by lia. injection Hlook as <-.
      rewrite obj_vals_with_vals by (symmetry; by eapply Forall2_length).
      apply Forall_lookup. intros i v' Hv'.
      destruct (Forall2_lookup_r _ _ _ _ _ Hvs Hv') as (v & _ & Hrel).
      apply Hmono. destruct v; simpl in Hrel; subst; try done.
      destruct Hrel as (t & -> & Ht). simpl. apply Hrange in Ht. lia.
    + rewrite list_lookup_insert_ne in Hlook by done.
      eapply Forall_impl; [by eapply Hclosed|]. done.
Qed.

Lemma deepcopy_aux_ok fuel h0 : copy_ok h0 (deepcopy_aux fuel h0).
Proof.
  induction fuel as [|fuel IH]; intros P v h m v' h' m' Hinv Hrun.
  - destruct v as [|b|z|bits|s|l]; simpl in Hrun;
      try (injection Hrun as <- <- <-; split; [done|]; split; done).
    destruct (m !! l) as [l'|] eqn:Hm; [|done].
    injection Hrun as <- <- <-. split; [done|]. split; [done|]. by exists l'.
  - destruct v as [|b|z|bits|s|l]; simpl in Hrun;
      try (injection Hrun as <- <- <-; split; [done|]; split; done).
    destruct (m !! l) as [l'|] eqn:Hm.
    { injection Hrun as <- <- <-. split; [done|]. split; [done|]. by exists l'. }
    destruct (h0 !! l) as [o|] eqn:Ho; [|done].
    destruct (copy_list _ _ _ _) as [[[vs' h2] m2]|] eqn:Hl; [|done].
    injection Hrun as <- <- <-.
    pose proof (copy_inv_enter _ _ _ _ _ _ Hinv Hm Ho) as Hinv1.
    destruct (copy_list_ok _ _ IH _ _ _ _ _ _ _ Hinv1 Hl) as (Hinv2 & Hsub & Hvs).
    assert (m2 !! l = Some (length h)) as Hm2.
    { eapply lookup_weaken; [|done]. apply lookup_insert_eq. }
    split; [by eapply copy_inv_leave|]. split.
    + etrans; [|done]. by apply insert_subseteq.
    + by exists (length h).
Qed.

Lemma copy_inv_size h0 P h m : copy_inv h0 P h m → size m ≤ length h0.
Proof.
  intros [_ Hrange _ _ _].
  rewrite <- size_dom, <- (size_set_seq (C := gset nat) 0 (length h0)).
  apply subseteq_size. intros l [l' Hl]%elem_of_dom.
  apply elem_of_set_seq. apply Hrange in Hl. lia.
Qed.

Lemma copy_list_total h0 copy :
  copy_ok h0 copy →
  ∀ bound,
  (∀ P v h m, copy_inv h0 P h m → val_closed h0 v → bound ≤ size m →
              is_Some (copy v h m)) →
  ∀ vs P h m, copy_inv h0 P h m → Forall (val_closed h0) vs → bound ≤ size m →
              is_Some (copy_list copy vs h m).
Proof.
  intros Hok bound Htot. induction vs as [|x r IH]; intros P h m Hinv Hvs Hb.
  - by eexists.
  - apply Forall_cons in Hvs as [Hx Hr]. simpl.
    destruct (Htot _ _ _ _ Hinv Hx Hb) as [[[x' h1] m1] Ex]. rewrite Ex.
    destruct (Hok _ _ _ _ _ _ _ Hinv Ex) as (Hinv1 & Hsub & _).
    apply map_subseteq_size in Hsub.
    destruct (IH _ _ _ Hinv1 Hr) as [[[r' h2] m2] Er]; [lia|]. rewrite Er.
    by eexists.
Qed.

Lemma deepcopy_aux_total h0 :
  heap_closed h0 →
  ∀ fuel P v h m,
    copy_inv h0 P h m → val_closed h0 v → length h0 < fuel + size m →
    is_Some (deepcopy_aux fuel h0 v h m).
Proof.
  intros Hclosed. induction fuel as [|fuel IH]; intros P v h m Hinv Hv Hb.
  - pose proof (copy_inv_size _ _ _ _ Hinv).
    destruct v as [|b|z|bits|s|l]; simpl; try by eexists.
    destruct (m !! l) eqn:Hm; [by eexists|]. lia.
  - destruct v as [|b|z|bits|s|l]; simpl; try by eexists.
    destruct (m !! l) eqn:Hm; [by eexists|].
    simpl in Hv. destruct (lookup_lt_is_Some_2 _ _ Hv) as [o Ho]. rewrite Ho.
    pose proof (copy_inv_enter _ _ _ _ _ _ Hinv Hm Ho) as Hinv1.
    destruct (copy_list_total h0 _ (deepcopy_aux_ok fuel h0) (S (length h0) - fuel)
                (λ P v h m Hi Hc Hs, IH P v h m Hi Hc ltac:(lia))
                (obj_vals o) _ _ _ Hinv1) as [[[vs' h2] m2] El].
    + by eapply Hclosed.
    + rewrite map_size_insert_None by done. lia.
    + rewrite El. by eexists.
Qed.

End DeepCopy.

(* ===================================================================== *)
(** ** The derived record *)
(* ===================================================================== *)

Section Derive.

Local Open Scope nat_scope.

Lemma copy_inv_start h : copy_inv h [] h ∅.
Proof.
  constructor.
  - exists []. by rewrite app_nil_r.
  - intros l l'. by rewrite lookup_empty.
  - intros l1 l2 l'. by rewrite lookup_empty.
  - intros l l'. by rewrite lookup_empty.
  - intros l' o' Hl Ho. apply lookup_lt_Some in Ho. lia.
Qed.

Lemma deepcopy_inv v w r w' :
  deepcopy v w = (r, w') →
  (∃ v' h' m, r = Ok v' ∧ w' = set_heap h' w ∧
              copy_inv (w_heap w) [] h' m ∧ val_rel (memo_rel m) v v')
  ∨ (r = Raise SystemError ∧ w' = w).
Proof.
  unfold deepcopy.
  destruct (deepcopy_aux _ _ _ _ _) as [[[v' h'] m]|] eqn:E.
  - intros [= <- <-]. left. exists v', h', m.
    destruct (deepcopy_aux_ok _ _ _ _ _ _ _ _ _ (copy_inv_start _) E) as (? & _ & ?).
    done.
  - intros [= <- <-]. by right.
Qed.

Lemma deepcopy_total v w :
  heap_closed (w_heap w) → val_closed (w_heap w) v →
  ∃ v' w', deepcopy v w = (Ok v', w').
Proof.
  intros Hc Hv. unfold deepcopy.
  destruct (deepcopy_aux_total _ Hc (S (length (w_heap w))) [] v (w_heap w) ∅)
    as [[[v' h'] m] E]; [apply copy_inv_start|done|lia|].
  rewrite E. by eexists _, _.
Qed.

Lemma copy_inv_heap_closed h0 h m :
  heap_closed h0 → copy_inv h0 [] h m → heap_closed h.
Proof.
  intros Hc [[ext ->] _ _ _ Hnew] l o Hl.
  destruct (decide (l < length h0)) as [Hlt|Hge].
  - rewrite lookup_app_l in Hl by done.
    eapply Forall_impl; [by eapply Hc|].
    intros v. apply val_closed_mono. rewrite length_app. lia.
  - apply (Hnew l); [lia|done].
Qed.

Lemma getitem_inv v k w r w' :
  getitem v k w = (r, w') →
  w' = w ∧ ∀ x, r = Ok x →
    ∃ l kvs, v = VRef l ∧ w_heap w !! l = Some (ODict kvs) ∧ dict_get k kvs = Some x.
Proof.
  unfold getitem. destruct v as [|b|z|bits|s|l]; try (intros [= <- <-]; by split).
  destruct (w_heap w !! l) as [[kvs|vs]|] eqn:E; try (intros [= <- <-]; by split).
  destruct (dict_get k kvs) as [x|] eqn:Ex; intros [= <- <-]; (split; [done|]); [|done].
  intros ? [= <-]. by exists l, kvs.
Qed.

Lemma setitem_inv v k x w r w' :
  setitem v k x w = (r, w') →
  (r = Ok tt ∧ ∃ l kvs, v = VRef l ∧ w_heap w !! l = Some (ODict kvs) ∧
     w' = set_heap (<[l := ODict (dict_set k x kvs)]> (w_heap w)) w)
  ∨ ((∃ e, r = Raise e) ∧ w' = w).
Proof.
  unfold setitem. destruct v as [|b|z|bits|s|l];
    try (intros [= <- <-]; right; split; [by eexists|done]).
  destruct (w_heap w !! l) as [[kvs|vs]|] eqn:E;
    try (intros [= <- <-]; right; split; [by eexists|done]).
  intros [= <- <-]. left. split; [done|]. by exists l, kvs.
Qed.

(** [dict_get] and [dict_set] on a copy of a dict. *)
Lemma dict_get_zip (R : pyval → pyval → Prop) k kvs vs :
  Forall2 R kvs.*2 vs →
  match dict_get k kvs, dict_get k (zip kvs.*1 vs) with
  | Some v, Some x => R v x
  | None, None => True
  | _, _ => False
  end.
Proof.
  revert vs. induction kvs as [|[k0 v0] kvs IH]; intros vs H.
  - by inversion H.
  - rewrite !fmap_cons in *. simpl in H.
    inversion H as [|? x ? vs0 Hx Hr]; subst. simpl.
    destruct (String.eqb k k0); [done|]. by apply IH.
Qed.

Lemma dict_set_rel (R : nat → nat → Prop) k a kvs vs :
  val_rel R a a →
  Forall2 (val_rel R) kvs.*2 vs →
  obj_rel R (ODict (dict_set k a kvs)) (ODict (dict_set k a (zip kvs.*1 vs))).
Proof.
  intros Ha. revert vs. induction kvs as [|[k0 v0] kvs IH]; intros vs H.
  - inversion H; subst. exists [a]. split; [done|]. by constructor.
  - rewrite !fmap_cons in *. simpl in H.
    inversion H as [|? x ? vs0 Hx Hr]; subst. simpl.
    destruct (String.eqb k k0).
    + exists (a :: vs0). split; [done|]. simpl. by constructor.
    + destruct (IH _ Hr) as (vs' & Heq & Hvs'). simpl in Heq. injection Heq as Heq.
      exists (x :: vs'). split.
      * simpl. by rewrite Heq.
      * simpl. by constructor.
Qed.

Lemma obj_with_vals_twice o vs1 vs2 :
  length vs1 = length (obj_vals o) →
  obj_with_vals (obj_with_vals o vs1) vs2 = obj_with_vals o vs2.
Proof.
  destruct o as [kvs|xs]; simpl; [|done]. rewrite length_fmap. intros H.
  by rewrite fst_zip by (rewrite length_fmap; lia).
Qed.

Lemma val_rel_compose (R1 R2 : nat → nat → Prop) v v1 v2 :
  val_rel R1 v v1 → val_rel R2 v1 v2 →
  val_rel (λ l l2, ∃ l1, R1 l l1 ∧ R2 l1 l2) v v2.
Proof.
  destruct v; simpl; try (intros -> ->; done).
  intros (l1 & -> & H1). simpl. intros (l2 & -> & H2). eauto.
Qed.

Lemma obj_rel_compose (R1 R2 : nat → nat → Prop) o o1 o2 :
  obj_rel R1 o o1 → obj_rel R2 o1 o2 →
  obj_rel (λ l l2, ∃ l1, R1 l l1 ∧ R2 l1 l2) o o2.
Proof.
  intros (vs1 & -> & H1) (vs2 & -> & H2).
  pose proof (Forall2_length _ _ _ H1) as Hlen.
  rewrite obj_vals_with_vals in H2 by done.
  exists vs2. split; [by apply obj_with_vals_twice|].
  clear Hlen. revert vs2 H2. induction H1 as [|v v1 vs vs1 Hv Hvs IH]; intros vs2 H2.
  - inversion H2. constructor.
  - inversion H2 as [|? v2 ? vs2' Hv2 Hvs2]; subst. constructor; [|by apply IH].
    by eapply val_rel_compose.
Qed.

Lemma obj_rel_restrict (R : nat → nat → Prop) h0 o o' :
  obj_rel R o o' → Forall (val_closed h0) (obj_vals o) →
  obj_rel (λ l l', R l l' ∧ l < length h0) o o'.
Proof.
  intros (vs' & -> & H) Hc. exists vs'. split; [done|].
  induction H as [|v v' vs vs' Hv Hvs IH]; [constructor|].
  apply Forall_cons in Hc as [Hcv Hcvs]. constructor; [|by apply IH].
  destruct v; simpl in *; try done. destruct Hv as (l' & -> & Hl). eauto.
Qed.

End Derive.

Section DeriveRun.

Local Open Scope nat_scope.

Lemma heap_closed_insert h l o :
  heap_closed h → Forall (val_closed h) (obj_vals o) →
  heap_closed (<[l := o]> h).
Proof.
  intros Hc Ho k o' Hk.
  assert (∀ v, val_closed h v → val_closed (<[l := o]> h) v) as Hmono.
  { intros v. apply val_closed_mono. by rewrite length_insert. }
  destruct (decide (l = k)) as [->|Hne].
  - destruct (decide (k < length h)) as [Hlt|Hge].
    + rewrite list_lookup_insert_eq in Hk by done. injection Hk as <-.
      eapply Forall_impl; [done|]. done.
    + rewrite list_insert_ge in Hk by lia.
      eapply Forall_impl; [by eapply Hc|]. done.
  - rewrite list_lookup_insert_ne in Hk by done.
    eapply Forall_impl; [by eapply Hc|]. done.
Qed.

Lemma dict_set_vals_closed h k a kvs :
  val_closed h a → Forall (val_closed h) kvs.*2 →
  Forall (val_closed h) (dict_set k a kvs).*2.
Proof.
  intros Ha. induction kvs as [|[k0 v0] kvs IH]; intros H; simpl.
  - by constructor.
  - rewrite fmap_cons in H. apply Forall_cons in H as [H0 Hr].
    destruct (String.eqb k k0); rewrite fmap_cons; constructor; auto.
Qed.

(** The copy of the feature and its [properties] dict, as [derive] finds
    them after the first [deepcopy]. *)
Lemma copied_properties h h1 m1 feature nf f1 kvs1 x :
  copy_inv h [] h1 m1 → val_rel (memo_rel m1) feature nf →
  nf = VRef f1 → h1 !! f1 = Some (ODict kvs1) →
  dict_get "properties" kvs1 = Some x →
  ∃ f kvs v,
    feature = VRef f ∧ m1 !! f = Some f1 ∧ h !! f = Some (ODict kvs) ∧
    dict_get "properties" kvs = Some v ∧ val_rel (memo_rel m1) v x.
Proof.
  intros Hinv Hrel -> Hf1 Hx.
  destruct feature as [|b|z|bits|s|f]; simpl in Hrel; try done.
  destruct Hrel as (f1' & [= <-] & Hm).
  destruct (ci_done _ _ _ _ Hinv _ _ Hm) as [HP|(o & o1 & Ho & Ho1 & vs & -> & Hvs)].
  { by apply not_elem_of_nil in HP. }
  rewrite Hf1 in Ho1. injection Ho1 as Heq.
  destruct o as [kvs|xs]; simpl in Heq; [|done]. injection Heq as ->.
  pose proof (dict_get_zip _ "properties" kvs vs Hvs) as Hget.
  rewrite Hx in Hget. destruct (dict_get "properties" kvs) as [v|] eqn:Ev; [|done].
  by exists f, kvs, v.
Qed.

Lemma app_insert_beyond (h ext : list pyobj) l o :
  length h ≤ l → ∃ ext', <[l := o]> (h ++ ext) = h ++ ext'.
Proof. intros H. eexists. by apply insert_app_r_alt. Qed.

Lemma derive_frame feature path w r w' :
  derive feature path w = (r, w') →
  w_files w' = w_files w ∧ w_dirs w' = w_dirs w ∧ w_log w' = w_log w ∧
  (∃ ext, w_heap w' = w_heap w ++ ext) ∧
  (heap_closed (w_heap w) → heap_closed (w_heap w')).
Proof.
  unfold derive, bind.
  destruct (deepcopy feature w) as [r1 w1] eqn:E1.
  apply deepcopy_inv in E1 as [(nf & h1 & m1 & -> & -> & Hinv1 & Hrel1)|[-> ->]].
  2:{ intros [= <- <-]. repeat split; try done. exists []. by rewrite app_nil_r. }
  pose proof (ci_ext _ _ _ _ Hinv1) as [ext1 Hext1].
  assert (heap_closed (w_heap w) → heap_closed h1) as Hc1.
  { intros Hc. by eapply copy_inv_heap_closed. }
  destruct (getitem nf "properties" (set_heap h1 w)) as [r2 w2] eqn:E2.
  apply getitem_inv in E2 as [-> Hget].
  destruct r2 as [x|e].
  2:{ intros [= <- <-]. repeat split; try done. by exists ext1. }
  destruct (Hget x eq_refl) as (f1 & kvs1 & Hnf & Hf1 & Hx). simpl in Hf1.
  destruct (copied_properties _ _ _ _ _ _ _ _ Hinv1 Hrel1 Hnf Hf1 Hx)
    as (f & kvs & v & -> & Hm & Hf & Hv & Hvx).
  destruct (setitem x "image_path" (VStr path) (set_heap h1 w)) as [r3 w3] eqn:E3.
  apply setitem_inv in E3 as [(-> & lp1 & ps1 & -> & Hps1 & ->)|[[e ->] ->]].
  2:{ intros [= <- <-]. repeat split; try done. by exists ext1. }
  simpl in Hps1.
  destruct v as [|b|z|bits|s|lp]; simpl in Hvx; try done.
  destruct Hvx as (lp1' & [= <-] & Hlp).
  destruct (ci_range _ _ _ _ Hinv1 _ _ Hlp) as [Hlp0 Hlp1].
  destruct (app_insert_beyond (w_heap w) ext1 lp1
              (ODict (dict_set "image_path" (VStr path) ps1))) as [ext2 Hext2]; [lia|].
  assert (heap_closed (w_heap w) →
          heap_closed (<[lp1 := ODict (dict_set "image_path" (VStr path) ps1)]> h1))
    as Hc2.
  { intros Hc. apply heap_closed_insert; [by apply Hc1|].
    simpl. apply dict_set_vals_closed; [done|]. by apply (Hc1 Hc lp1 (ODict ps1)). }
  simpl.
  match goal with
  | |- context [deepcopy ?v ?w0] => destruct (deepcopy v w0) as [r4 w4] eqn:E4
  end.
  apply deepcopy_inv in E4 as [(out & h3 & m2 & -> & -> & Hinv2 & Hrel2)|[-> ->]].
  - simpl in Hinv2. pose proof (ci_ext _ _ _ _ Hinv2) as [ext3 Hext3].
    intros [= <- <-]. simpl. repeat split; try done.
    + exists (ext2 ++ ext3). rewrite Hext3, Hext1, Hext2. by rewrite app_assoc.
    + intros Hc. eapply copy_inv_heap_closed; [|done]. by apply Hc2.
  - intros [= <- <-]. simpl. repeat split; try done.
    exists ext2. by rewrite Hext1, Hext2.
Qed.

Lemma derive_derived feature path w out w' h0 :
  derive feature path w = (Ok out, w') →
  heap_closed h0 → (∃ e, w_heap w = h0 ++ e) → val_closed h0 feature →
  derived_from h0 (w_heap w') feature out path.
Proof.
  unfold derive, bind. intros Hrun Hc0 [e0 He0] Hfeat.
  destruct (deepcopy feature w) as [r1 w1] eqn:E1.
  apply deepcopy_inv in E1 as [(nf & h1 & m1 & -> & -> & Hinv1 & Hrel1)|[-> ->]];
    [|done].
  destruct (getitem nf "properties" (set_heap h1 w)) as [r2 w2] eqn:E2.
  apply getitem_inv in E2 as [-> Hget].
  destruct r2 as [x|e]; [|done].
  destruct (Hget x eq_refl) as (f1 & kvs1 & Hnf & Hf1 & Hx). simpl in Hf1.
  destruct (copied_properties _ _ _ _ _ _ _ _ Hinv1 Hrel1 Hnf Hf1 Hx)
    as (f & kvs & v & -> & Hm & Hf & Hv & Hvx).
  destruct (setitem x "image_path" (VStr path) (set_heap h1 w)) as [r3 w3] eqn:E3.
  apply setitem_inv in E3 as [(-> & lp1 & ps1 & -> & Hps1 & ->)|[[e ->] ->]];
    [|done].
  simpl in Hps1.
  destruct v as [|b|z|bits|s|lp]; simpl in Hvx; try done.
  destruct Hvx as (lp1' & [= <-] & Hlp).
  simpl in Hrun.
  match type of Hrun with
  | context [deepcopy ?v ?w0] => destruct (deepcopy v w0) as [r4 w4] eqn:E4
  end.
  apply deepcopy_inv in E4 as [(out' & h3 & m2 & -> & -> & Hinv2 & Hrel2)|[-> ->]];
    [|done].
  injection Hrun as <- <-. simpl in *.
  subst nf. destruct Hrel2 as (f2 & -> & Hf2).
  (* the feature lies in [h0] *)
  simpl in Hfeat.
  assert (∀ l, l < length h0 → w_heap w !! l = h0 !! l) as Hold.
  { intros l Hl. rewrite He0. by apply lookup_app_l. }
  assert (length h0 ≤ length (w_heap w)) as Hlen0.
  { rewrite He0, length_app. lia. }
  rewrite Hold in Hf by done.
  exists lp, (λ l l2, ∃ l1, (memo_rel m1 l l1 ∧ l < length h0) ∧ memo_rel m2 l1 l2).
  split; [|split].
  - unfold props_loc. by rewrite Hf, Hv.
  - exists f2. split; [done|]. by exists f1.
  - intros l l2 (l1 & [Hl1 Hl] & Hl2).
    destruct (ci_range _ _ _ _ Hinv1 _ _ Hl1) as [_ Hr1].
    destruct (ci_range _ _ _ _ Hinv2 _ _ Hl2) as [_ Hr2].
    rewrite length_insert in Hr2.
    split; [lia|].
    destruct (ci_done _ _ _ _ Hinv1 _ _ Hl1) as [HP|(o & o1 & Ho & Ho1 & Hrelo)];
      [by apply not_elem_of_nil in HP|].
    destruct (ci_done _ _ _ _ Hinv2 _ _ Hl2) as [HP|(oa & o3 & Hoa & Ho3 & Hrela)];
      [by apply not_elem_of_nil in HP|].
    rewrite Hold in Ho by done.
    exists o, o3. split; [done|]. split; [done|].
    unfold enrich. destruct (decide (l = lp)) as [->|Hne].
    + assert (l1 = lp1) as -> by (unfold memo_rel in Hl1; congruence).
      rewrite list_lookup_insert_eq in Hoa by lia. injection Hoa as <-.
      destruct Hrelo as (vs & Heq & Hvs). rewrite Hps1 in Ho1.
      injection Ho1 as <-.
      destruct o as [ps|xs]; simpl in Heq; [|done]. injection Heq as ->.
      eapply obj_rel_compose; [|done].
      apply (obj_rel_restrict _ h0).
      * by apply dict_set_rel.
      * simpl. apply dict_set_vals_closed; [done|]. by apply (Hc0 lp (ODict ps)).
    + assert (l1 ≠ lp1) as Hne1.
      { intros ->. apply Hne. by eapply (ci_inj _ _ _ _ Hinv1). }
      rewrite list_lookup_insert_ne in Hoa by done.
      rewrite Ho1 in Hoa. injection Hoa as <-.
      eapply obj_rel_compose; [|done].
      apply (obj_rel_restrict _ h0); [done|]. by eapply Hc0.
Qed.

Lemma derive_total feature path w seq id :
  heap_closed (w_heap w) → feature_ids (w_heap w) feature = Some (seq, id) →
  ∃ out w', derive feature path w = (Ok out, w').
Proof.
  intros Hc Hids. unfold feature_ids, props_loc in Hids.
  destruct feature as [|b|z|bits|s|f]; try done.
  destruct (w_heap w !! f) as [[kvs|xs]|] eqn:Hf; try done.
  destruct (dict_get "properties" kvs) as [[|b|z|bits|s|lp]|] eqn:Hp; try done.
  destruct (w_heap w !! lp) as [[ps|xs]|] eqn:Hlp; try done. clear Hids.
  unfold derive, bind.
  destruct (deepcopy_total (VRef f) w Hc) as (nf & w1 & E1).
  { simpl. by eapply lookup_lt_Some. }
  rewrite E1.
  apply deepcopy_inv in E1 as [(nf' & h1 & m1 & [= <-] & -> & Hinv1 & Hrel1)|[? _]];
    [|done].
  destruct Hrel1 as (f1 & -> & Hm).
  destruct (ci_done _ _ _ _ Hinv1 _ _ Hm) as [HP|(o & o1 & Ho & Ho1 & vs & -> & Hvs)];
    [by apply not_elem_of_nil in HP|].
  rewrite Hf in Ho. injection Ho as <-. simpl in Ho1, Hvs.
  pose proof (dict_get_zip _ "properties" kvs vs Hvs) as Hget. rewrite Hp in Hget.
  destruct (dict_get "properties" (zip kvs.*1 vs)) as [x|] eqn:Hx; [|done].
  destruct Hget as (lp1 & -> & Hlp1).
  destruct (ci_done _ _ _ _ Hinv1 _ _ Hlp1) as [HP|(o & o1 & Ho & Ho1' & vs1 & -> & Hvs1)];
    [by apply not_elem_of_nil in HP|].
  rewrite Hlp in Ho. injection Ho as <-. simpl in Ho1'.
  unfold getitem at 1. simpl. rewrite Ho1, Hx.
  unfold setitem at 1. simpl. rewrite Ho1'.
  match goal with
  | |- context [deepcopy ?v ?w0] =>
      destruct (deepcopy_total v w0) as (out & w' & E4)
  end.
  - simpl. apply heap_closed_insert.
    + by eapply copy_inv_heap_closed.
    + simpl. apply dict_set_vals_closed; [done|].
      eapply (copy_inv_heap_closed _ _ _ Hc Hinv1 lp1 (ODict _)). exact Ho1'.
  - simpl. rewrite length_insert. by eapply lookup_lt_Some.
  - rewrite E4. by eexists _, _.
Qed.

End DeriveRun.

(* ===================================================================== *)
(** ** The orchestrator, step by step *)
(* ===================================================================== *)

Lemma ensure_folder_inv p w r w' :
  ensure_folder p w = (r, w') →
  w_files w' = w_files w ∧ w_heap w' = w_heap w ∧ w_log w' = w_log w ∧
  (path_there w p = true → r = Ok tt ∧ w' = w) ∧
  (r = Ok tt → Fs.is_dir (w_dirs w') p = true ∨ path_there w p = true) ∧
  (∀ d, d ∈ w_dirs w → d ∈ w_dirs w').
Proof.
  unfold ensure_folder, bind, Fs.path_exists, path_there.
  destruct (Fs.is_file (w_files w) p || Fs.is_dir (w_dirs w) p) eqn:Ex.
  - intros [= <- <-]. repeat split; auto.
  - unfold Fs.makedirs. rewrite Ex.
    destruct (existsb _ _).
    + intros [= <- <-]. repeat split; auto; done.
    + intros [= <- <-]. simpl. repeat split; auto; try done.
      * intros _. left. unfold Fs.is_dir. apply bool_decide_eq_true. set_solver.
      * intros d Hd. set_solver.
Qed.

Lemma path_exists_loop (g : string → string) xs acc w :
  for_each xs
    (λ i seen, let* there := Fs.path_exists (g i) in ret (seen ++ [there])) acc w
  = (Ok (acc ++ ((λ i, path_there w (g i)) <$> xs)), w).
Proof.
  revert acc. induction xs as [|x xs IH]; intros acc; simpl.
  - unfold ret. by rewrite app_nil_r.
  - unfold bind at 1. unfold bind at 1. unfold Fs.path_exists at 1, ret at 1.
    rewrite IH. by rewrite <- app_assoc.
Qed.

Lemma tiles_present_spec folder id sides w :
  tiles_present folder id sides w
  = (Ok ((λ i, path_there w (tile_path folder id i)) <$> split_sides sides), w).
Proof. unfold tiles_present. by rewrite path_exists_loop. Qed.

Lemma forallb_id_fmap {A} (f : A → bool) xs :
  forallb id (f <$> xs) = forallb f xs.
Proof.
  induction xs as [|x xs IH]; [done|].
  rewrite fmap_cons. cbn [forallb]. by rewrite IH.
Qed.

Lemma download_run E feature out size sides w seq id :
  feature_ids (w_heap w) feature = Some (seq, id) →
  download_clip_img E feature out size sides w =
  match ensure_folder (out +:+ "/" +:+ seq) w with
  | (Raise e, w1) => (Raise e, w1)
  | (Ok _, w1) =>
      if forallb (λ i, path_there w1 (tile_path (out +:+ "/" +:+ seq) id i))
                 (split_sides sides)
      then fast_path feature (out +:+ "/" +:+ seq) id sides w1
      else slow_path E feature out size sides seq id w1
  end.
Proof.
  intros Hids. unfold feature_ids, props_loc in Hids.
  destruct feature as [|b|z|bits|s|f]; try done.
  destruct (w_heap w !! f) as [[kvs|xs]|] eqn:Hf; try done.
  destruct (dict_get "properties" kvs) as [[|b|z|bits|s|lp]|] eqn:Hp; try done.
  destruct (w_heap w !! lp) as [[ps|xs]|] eqn:Hlp; try done.
  destruct (dict_get "sequence_id" ps) as [vs|] eqn:Hs; try done.
  destruct (dict_get "id" ps) as [vi|] eqn:Hi; try done.
  destruct (py_str vs) as [seq'|] eqn:Hseq; try done.
  destruct (py_str vi) as [id'|] eqn:Hid; try done.
  injection Hids as -> ->.
  unfold download_clip_img.
  unfold bind at 1, getitem at 1. rewrite Hf, Hp.
  unfold bind at 1, getitem at 1. rewrite Hlp, Hs.
  unfold bind at 1, fmt at 1. rewrite Hseq. unfold ret at 1.
  unfold bind at 1.
  destruct (ensure_folder (out +:+ "/" +:+ seq) w) as [[[]|e] w1] eqn:Een; [|done].
  apply ensure_folder_inv in Een as (_ & Hheap & _).
  unfold bind at 1, getitem at 1. rewrite Hheap, Hf, Hp.
  unfold bind at 1, getitem at 1. rewrite Hheap, Hlp, Hi.
  unfold bind at 1, fmt at 1. rewrite Hid. unfold ret at 1.
  unfold bind at 1. rewrite tiles_present_spec.
  rewrite forallb_id_fmap. by destruct (forallb _ _).
Qed.

Lemma download_no_ids E feature out size sides w :
  feature_ids (w_heap w) feature = None →
  ∃ e w', download_clip_img E feature out size sides w = (Raise e, w') ∧
          w_heap w' = w_heap w ∧ w_files w' = w_files w ∧ w_log w' = w_log w.
Proof.
  intros Hids. unfold feature_ids, props_loc in Hids. unfold download_clip_img.
  unfold bind at 1, getitem at 1.
  destruct feature as [|b|z|bits|s|f]; try by eexists _, _.
  destruct (w_heap w !! f) as [[kvs|xs]|] eqn:Hf; try by eexists _, _.
  destruct (dict_get "properties" kvs) as [v|] eqn:Hp; [|by eexists _, _].
  unfold bind at 1, getitem at 1.
  destruct v as [|b|z|bits|s|lp]; try by eexists _, _.
  destruct (w_heap w !! lp) as [[ps|xs]|] eqn:Hlp; try by eexists _, _.
  destruct (dict_get "sequence_id" ps) as [vs|] eqn:Hs; [|by eexists _, _].
  unfold bind at 1, fmt at 1.
  destruct (py_str vs) as [seq|] eqn:Hseq; [|by eexists _, _].
  unfold ret at 1. unfold bind at 1.
  destruct (ensure_folder (out +:+ "/" +:+ seq) w) as [[[]|e] w1] eqn:Een.
  2:{ apply ensure_folder_inv in Een as (? & ? & ? & _). by eexists _, _. }
  apply ensure_folder_inv in Een as (Hfiles & Hheap & Hlog & _).
  unfold bind at 1, getitem at 1. rewrite Hheap, Hf, Hp.
  unfold bind at 1, getitem at 1. rewrite Hheap, Hlp.
  destruct (dict_get "id" ps) as [vi|] eqn:Hi; [|by eexists _, _].
  unfold bind at 1, fmt at 1.
  destruct (py_str vi) as [id|] eqn:Hid; [done|by eexists _, _].
Qed.

(* ===================================================================== *)
(** ** What touches the store and what does not *)
(* ===================================================================== *)

Lemma keeps_heap_ret {A} (a : A) : keeps_heap (ret a).
Proof. by intros w r w' [= <- <-]. Qed.

Lemma keeps_heap_raise {A} e : keeps_heap (@raise A e).
Proof. by intros w r w' [= <- <-]. Qed.

Lemma keeps_heap_bind {A B} (m : M A) (k : A → M B) :
  keeps_heap m → (∀ a, keeps_heap (k a)) → keeps_heap (bind m k).
Proof.
  intros Hm Hk w r w'. unfold bind.
  destruct (m w) as [[a|e] w1] eqn:E; apply Hm in E.
  - intros H%Hk. congruence.
  - intros [= <- <-]. done.
Qed.

Lemma keeps_heap_try {A} (m : M A) h :
  keeps_heap m → (∀ e, keeps_heap (h e)) → keeps_heap (try_except m h).
Proof.
  intros Hm Hh w r w'. unfold try_except.
  destruct (m w) as [[a|e] w1] eqn:E; apply Hm in E.
  - intros [= <- <-]. done.
  - intros H%Hh. congruence.
Qed.

Lemma keeps_heap_for_each {A B} (xs : list A) (body : A → B → M B) acc :
  (∀ x b, keeps_heap (body x b)) → keeps_heap (for_each xs body acc).
Proof.
  intros Hb. revert acc. induction xs as [|x xs IH]; intros acc; simpl.
  - apply keeps_heap_ret.
  - apply keeps_heap_bind; [apply Hb|apply IH].
Qed.

Lemma keeps_heap_emit ev : keeps_heap (emit ev).
Proof. by intros w r w' [= <- <-]. Qed.

Lemma keeps_heap_fs_state {A} (m : M A) :
  (∀ w, w_heap (m w).2 = w_heap w) → keeps_heap m.
Proof. intros H w r w' E. specialize (H w). by rewrite E in H. Qed.

Lemma keeps_heap_open_wb p : keeps_heap (Fs.open_wb p).
Proof.
  apply keeps_heap_fs_state. intros w. unfold Fs.open_wb.
  by repeat (destruct (_ : bool)).
Qed.

Lemma keeps_heap_write p c : keeps_heap (Fs.write p c).
Proof. by apply keeps_heap_fs_state. Qed.

Lemma keeps_heap_remove p : keeps_heap (Fs.remove p).
Proof.
  apply keeps_heap_fs_state. intros w. unfold Fs.remove.
  by repeat (destruct (_ : bool)).
Qed.

Lemma keeps_heap_glob chunk : keeps_heap (Fs.glob_jpg chunk).
Proof.
  apply keeps_heap_fs_state. intros w. unfold Fs.glob_jpg.
  by destruct (Fs.glob_supported _).
Qed.

Lemma keeps_heap_imread p : keeps_heap (Fs.imread p).
Proof. by apply keeps_heap_fs_state. Qed.

Lemma keeps_heap_cubemap_splitter cubemap size seq id out sides :
  keeps_heap (cubemap_splitter cubemap size seq id out sides).
Proof.
  intros w r w'.
  destruct (w_files w !! cubemap) as [[b|img]|] eqn:E.
  - rewrite cubemap_splitter_unreadable by (by rewrite E). by intros [= <- <-].
  - rewrite (cubemap_splitter_readable _ _ _ _ _ _ _ img) by done. by intros [= <- <-].
  - rewrite cubemap_splitter_unreadable by (by rewrite E). by intros [= <- <-].
Qed.

Lemma keeps_heap_clean_files folder id sides :
  keeps_heap (clean_files folder id sides).
Proof.
  unfold clean_files. apply keeps_heap_bind; [apply keeps_heap_glob|].
  intros found. apply keeps_heap_for_each. intros file [].
  apply keeps_heap_try; [apply keeps_heap_remove|].
  intros e. apply keeps_heap_emit.
Qed.

(** One step through a computation built from the pieces above. *)
Ltac keeps_heap_step :=
  first [ apply keeps_heap_emit | apply keeps_heap_ret | apply keeps_heap_raise
        | apply keeps_heap_open_wb | apply keeps_heap_write
        | apply keeps_heap_cubemap_splitter | apply keeps_heap_clean_files ].

Lemma keeps_heap_fetch_source E url header equirect :
  keeps_heap (fetch_source E url header equirect).
Proof.
  unfold fetch_source, request_image_url, request_content.
  repeat first [ keeps_heap_step | apply keeps_heap_bind; [|intros ?] ].
  - destruct (graph_api _ _ _); keeps_heap_step.
  - destruct (fetch _ _); keeps_heap_step.
Qed.

Lemma keeps_heap_fetch_and_split E url header equirect cubemap size seq id out
    folder sides :
  keeps_heap (fetch_and_split E url header equirect cubemap size seq id out
                folder sides).
Proof.
  unfold fetch_and_split, os_system_convert360.
  repeat first [ apply keeps_heap_fetch_source | keeps_heap_step
               | apply keeps_heap_bind; [|intros ?] ].
  apply keeps_heap_fs_state. intros w. unfold run_convert360.
  destruct (w_files w !! equirect) as [c|]; [|reflexivity].
  destruct (convert360 E c size); [|reflexivity].
  by destruct (Fs.is_dir _ _).
Qed.

(* ===================================================================== *)
(** ** The loops that derive the records *)
(* ===================================================================== *)

Section Loops.

Local Open Scope nat_scope.

Lemma derived_from_later h h1 h2 feature out p :
  derived_from h h1 feature out p → (∃ ext, h2 = h1 ++ ext) →
  derived_from h h2 feature out p.
Proof.
  intros (lp & R & Hp & Hv & HR) [ext ->]. exists lp, R. split; [done|]. split; [done|].
  intros l l' Hl. destruct (HR l l' Hl) as (Hlen & o & o' & Ho & Ho' & Hrel).
  split; [done|]. exists o, o'. split; [done|]. split; [|done].
  by apply lookup_app_l_Some.
Qed.

Lemma feature_ids_closed h feature ids :
  feature_ids h feature = Some ids → val_closed h feature.
Proof.
  unfold feature_ids, props_loc. destruct feature as [|b|z|bits|s|f]; try done.
  destruct (h !! f) eqn:Hf; [|done]. intros _. simpl. by eapply lookup_lt_Some.
Qed.

Lemma feature_ids_ext h ext feature ids :
  feature_ids h feature = Some ids → feature_ids (h ++ ext) feature = Some ids.
Proof.
  unfold feature_ids, props_loc. destruct feature as [|b|z|bits|s|f]; try done.
  destruct (h !! f) as [[kvs|xs]|] eqn:Hf; try done.
  rewrite (lookup_app_l_Some _ _ _ _ Hf).
  destruct (dict_get "properties" kvs) as [[|b|z|bits|s|lp]|]; try done.
  destruct (h !! lp) as [o|] eqn:Hlp; [|done].
  by rewrite (lookup_app_l_Some _ _ _ _ Hlp).
Qed.

Context (h0 : list pyobj) (feature : pyval).
Context (Hclosed0 : heap_closed h0) (Hfeature : val_closed h0 feature).

Lemma fast_loop_inv (tile : string → string) sides acc w r w' :
  for_each sides
    (λ i results, let* new_feature := derive feature (tile i) in
                  ret (results ++ [new_feature])) acc w = (r, w') →
  (∃ e, w_heap w = h0 ++ e) →
  w_files w' = w_files w ∧ w_dirs w' = w_dirs w ∧ w_log w' = w_log w ∧
  (∃ e', w_heap w' = w_heap w ++ e') ∧
  (heap_closed (w_heap w) → heap_closed (w_heap w')) ∧
  ∀ rs, r = Ok rs →
    ∃ new, rs = acc ++ new ∧
           Forall2 (λ i o, derived_from h0 (w_heap w') feature o (tile i)) sides new.
Proof.
  revert acc w. induction sides as [|i sides IH]; intros acc w Hrun Hpre.
  - injection Hrun as <- <-. repeat split; try done.
    + exists []. by rewrite app_nil_r.
    + intros rs [= <-]. exists []. by rewrite app_nil_r.
  - rewrite for_each_cons in Hrun. unfold bind at 1 in Hrun. unfold bind at 1 in Hrun.
    destruct (derive feature (tile i) w) as [[o|e] w1] eqn:Ed.
    + destruct (derive_frame _ _ _ _ _ Ed) as (Hf1 & Hd1 & Hl1 & [e1 He1] & Hc1).
      pose proof (derive_derived _ _ _ _ _ h0 Ed Hclosed0 Hpre Hfeature) as Hder.
      unfold ret at 1 in Hrun.
      destruct Hpre as [e0 He0].
      destruct (IH _ _ Hrun) as (Hf2 & Hd2 & Hl2 & [e2 He2] & Hc2 & Hrs).
      { exists (e0 ++ e1). by rewrite He1, He0, app_assoc. }
      split; [congruence|]. split; [congruence|]. split; [congruence|]. split.
      { exists (e1 ++ e2). by rewrite He2, He1, app_assoc. }
      split; [auto|].
      intros rs Hr. destruct (Hrs rs Hr) as (new & -> & Hnew).
      exists (o :: new). split; [by rewrite <- app_assoc|].
      constructor; [|done]. eapply derived_from_later; [done|]. by exists e2.
    + injection Hrun as <- <-.
      destruct (derive_frame _ _ _ _ _ Ed) as (Hf1 & Hd1 & Hl1 & He1 & Hc1).
      repeat split; try done.
Qed.

Lemma fast_loop_total (tile : string → string) ids sides acc w :
  feature_ids h0 feature = Some ids →
  (∃ e, w_heap w = h0 ++ e) → heap_closed (w_heap w) →
  ∃ rs w',
    for_each sides
      (λ i results, let* new_feature := derive feature (tile i) in
                    ret (results ++ [new_feature])) acc w = (Ok rs, w').
Proof.
  intros Hids. revert acc w. induction sides as [|i sides IH]; intros acc w Hpre Hc.
  - by eexists _, _.
  - rewrite for_each_cons. unfold bind at 1. unfold bind at 1.
    destruct Hpre as [e0 He0]. destruct ids as [seq id].
    destruct (derive_total feature (tile i) w seq id Hc) as (o & w1 & Ed).
    { rewrite He0. by apply feature_ids_ext. }
    rewrite Ed. unfold ret at 1.
    destruct (derive_frame _ _ _ _ _ Ed) as (_ & _ & _ & [e1 He1] & Hc1).
    apply IH; [|auto].
    exists (e0 ++ e1). by rewrite He1, He0, app_assoc.
Qed.

Lemma collect_inv sts acc w :
  (∃ e, w_heap w = h0 ++ e) →
  ∃ rs oe w',
    collect feature sts acc w = (Ok (rs, oe), w') ∧
    w_files w' = w_files w ∧ w_dirs w' = w_dirs w ∧ w_log w' = w_log w ∧
    (∃ e', w_heap w' = w_heap w ++ e') ∧
    ∃ new, rs = acc ++ new ∧
           Forall (λ o, ∃ p, derived_from h0 (w_heap w') feature o p) new.
Proof.
  revert acc w. induction sts as [|i sts IH]; intros acc w Hpre.
  - exists acc, None, w. simpl. repeat split; try done.
    + exists []. by rewrite app_nil_r.
    + exists []. by rewrite app_nil_r.
  - simpl. destruct (truthy i); [|by apply IH].
    match goal with
    | |- context [derive feature ?p w] =>
        destruct (derive feature p w) as [[o|e] w1] eqn:Ed; set (path := p) in *
    end.
    + destruct (derive_frame _ _ _ _ _ Ed) as (Hf1 & Hd1 & Hl1 & [e1 He1] & Hc1).
      pose proof (derive_derived _ _ _ _ _ h0 Ed Hclosed0 Hpre Hfeature) as Hder.
      destruct Hpre as [e0 He0].
      destruct (IH (acc ++ [o]) w1) as (rs & oe & w' & Hrun & Hf2 & Hd2 & Hl2 & [e2 He2] & new & -> & Hnew).
      { exists (e0 ++ e1). by rewrite He1, He0, app_assoc. }
      exists ((acc ++ [o]) ++ new), oe, w'. split; [done|].
      split; [congruence|]. split; [congruence|]. split; [congruence|]. split.
      { exists (e1 ++ e2). by rewrite He2, He1, app_assoc. }
      exists (o :: new). split; [by rewrite <- app_assoc|].
      constructor; [|done]. exists path. eapply derived_from_later; [done|]. by exists e2.
    + destruct (derive_frame _ _ _ _ _ Ed) as (Hf1 & Hd1 & Hl1 & He1 & Hc1).
      exists acc, (Some e), w1. repeat split; try done.
      exists []. by rewrite app_nil_r.
Qed.

End Loops.

Lemma collect_returns feature sts acc w :
  ∃ rs oe w',
    collect feature sts acc w = (Ok (rs, oe), w') ∧
    w_files w' = w_files w ∧ w_dirs w' = w_dirs w ∧ w_log w' = w_log w.
Proof.
  revert acc w. induction sts as [|i sts IH]; intros acc w.
  - by exists acc, None, w.
  - simpl. destruct (truthy i); [|by apply IH].
    match goal with
    | |- context [derive feature ?p w] =>
        destruct (derive feature p w) as [[o|e] w1] eqn:Ed
    end.
    + destruct (derive_frame _ _ _ _ _ Ed) as (Hf1 & Hd1 & Hl1 & _).
      destruct (IH (acc ++ [o]) w1) as (rs & oe & w' & Hrun & Hf2 & Hd2 & Hl2).
      exists rs, oe, w'. split; [done|]. split; [congruence|]. split; congruence.
    + destruct (derive_frame _ _ _ _ _ Ed) as (Hf1 & Hd1 & Hl1 & _).
      by exists acc, (Some e), w1.
Qed.

(* ===================================================================== *)
(** ** The slow path *)
(* ===================================================================== *)

Lemma slow_path_run E feature out size sides seq id w :
  slow_path E feature out size sides seq id w =
  match fetch_and_split E (api_url id) (api_header E)
          ((out +:+ "/" +:+ seq) +:+ "/" +:+ id +:+ ".jpg")
          ((out +:+ "/" +:+ seq) +:+ "/" +:+ id +:+ "_cubemap.jpg")
          size seq id out (out +:+ "/" +:+ seq) sides w with
  | (Raise e, w2) => (Ok [], (print_exn EmptyString e EmptyString w2).2)
  | (Ok sts, w2) =>
      match collect feature sts [] w2 with
      | (Ok (rs, Some e), w3) => (Ok rs, (print_exn EmptyString e EmptyString w3).2)
      | (Ok (rs, None), w3) => (Ok rs, w3)
      | (Raise e, w3) => (Ok [], (print_exn EmptyString e EmptyString w3).2)
      end
  end.
Proof.
  unfold slow_path. unfold bind at 1. unfold try_except. unfold bind at 1.
  destruct (fetch_and_split _ _ _ _ _ _ _ _ _ _ _ w) as [[sts|e] w2]; [|done].
  destruct (collect feature sts [] w2) as [[[rs [e|]]|e] w3]; done.
Qed.

(* ===================================================================== *)
(** ** C8: the input record is not mutated *)
(* ===================================================================== *)

(** C8. In a store whose references all lead somewhere,
    [download_clip_img] changes no container that was there at the call
    (the store at the return is the store at the call with new containers
    after it), and every record it returns is a copy of the feature made of
    new containers only, equal to the feature but for
    [properties.image_path]. *)
Theorem input_record_not_mutated E feature out size sides w r w' :
  heap_closed (w_heap w) →
  download_clip_img E feature out size sides w = (r, w') →
  (∃ ext, w_heap w' = w_heap w ++ ext) ∧
  ∀ results, r = Ok results →
    Forall (λ o, ∃ path, derived_from (w_heap w) (w_heap w') feature o path) results.
Proof.
  intros Hc Hrun.
  destruct (feature_ids (w_heap w) feature) as [[seq id]|] eqn:Hids.
  2:{ destruct (download_no_ids E feature out size sides w Hids)
        as (e & w1 & Hr & Hh & _).
      rewrite Hr in Hrun. injection Hrun as <- <-. split; [|done].
      exists []. by rewrite app_nil_r. }
  rewrite (download_run _ _ _ _ _ _ _ _ Hids) in Hrun.
  pose proof (feature_ids_closed _ _ _ Hids) as Hfeat.
  destruct (ensure_folder _ w) as [[[]|e] w1] eqn:Een;
    apply ensure_folder_inv in Een as (_ & Hh1 & _).
  2:{ injection Hrun as <- <-. split; [|done]. exists []. by rewrite app_nil_r. }
  assert (∃ e, w_heap w1 = w_heap w ++ e) as Hpre.
  { exists []. by rewrite app_nil_r. }
  destruct (forallb _ _).
  - unfold fast_path in Hrun.
    destruct (fast_loop_inv (w_heap w) feature Hc Hfeat _ _ _ _ _ _ Hrun Hpre)
      as (_ & _ & _ & [e' He'] & _ & Hrs).
    split; [exists e'; by rewrite He', Hh1|].
    intros rs Hr. destruct (Hrs rs Hr) as (new & -> & Hnew). simpl.
    eapply Forall2_Forall_r; [done|]. apply Forall_true. intros i o Ho. eauto.
  - rewrite slow_path_run in Hrun.
    destruct (fetch_and_split _ _ _ _ _ _ _ _ _ _ _ w1) as [[sts|e] w2] eqn:Ef;
      apply keeps_heap_fetch_and_split in Ef.
    2:{ injection Hrun as <- <-. simpl. split.
        - exists []. rewrite app_nil_r. congruence.
        - by intros rs [= <-]. }
    destruct (collect_inv (w_heap w) feature Hc Hfeat sts [] w2)
      as (rs & oe & w3 & Hcol & _ & _ & _ & [e3 He3] & new & -> & Hnew).
    { exists []. rewrite app_nil_r. congruence. }
    rewrite Hcol in Hrun.
    assert (w_heap w' = w_heap w3 ∧ r = Ok ([] ++ new)) as [Hw' ->].
    { destruct oe; injection Hrun as <- <-; done. }
    split.
    + exists e3. rewrite Hw', He3. congruence.
    + intros ? [= <-]. rewrite Hw'. done.
Qed.

Lemma feature_heap_closed : heap_closed Ex.feature_heap.
Proof.
  intros l o Hl.
  repeat (destruct l as [|l];
          [injection Hl as <-; simpl; repeat constructor; simpl; lia|]).
  done.
Qed.

Lemma input_record_not_mutated_witness :
  let run := download_clip_img Ex.online Ex.feature "out" 1 "front,back" Ex.fresh in
  (∃ ext, w_heap run.2 = w_heap Ex.fresh ++ ext) ∧
  ∀ results, run.1 = Ok results →
    Forall (λ o, ∃ path, derived_from (w_heap Ex.fresh) (w_heap run.2) Ex.feature o path)
           results.
Proof.
  intros run.
  apply (input_record_not_mutated Ex.online Ex.feature "out" 1 "front,back"
           Ex.fresh run.1 run.2).
  - exact feature_heap_closed.
  - apply surjective_pairing.
Defined.

(* ===================================================================== *)
(** ** C1: the fast path *)
(* ===================================================================== *)

Lemma split_on_nonempty sep s : PyStr.split_on sep s ≠ [].
Proof.
  destruct s as [|c s]; simpl; [done|].
  destruct (Ascii.eqb c sep); [done|]. by destruct (PyStr.split_on sep s).
Qed.

Lemma ancestors_go_app done d r :
  done +:+ d ≠ EmptyString →
  done +:+ d ∈ PyStr.ancestors_go done (d +:+ "/" +:+ r).
Proof.
  revert done. induction d as [|c d IH]; intros done Hne.
  - rewrite sapp_nil_r in *. rewrite sapp_nil_l.
    change ("/" +:+ r) with (String "/" r). simpl.
    destruct done; [done|]. by left.
  - rewrite sapp_cons. simpl.
    assert (done +:+ String c d = (done +:+ String c EmptyString) +:+ d) as Heq.
    { by rewrite sapp_assoc. }
    assert (done +:+ String c d
            ∈ PyStr.ancestors_go (done +:+ String c EmptyString) (d +:+ "/" +:+ r)) as Hin.
    { rewrite Heq. apply IH. rewrite <- Heq. done. }
    destruct (Ascii.eqb c "/"); [|done].
    destruct done; [done|]. by right.
Qed.

Lemma ancestors_app d r : d ≠ EmptyString → d ∈ PyStr.ancestors (d +:+ "/" +:+ r).
Proof. intros H. apply (ancestors_go_app EmptyString d r). by rewrite sapp_nil_l. Qed.

Lemma path_there_entries w p : path_there w p = true → p ∈ Fs.entries w.
Proof.
  unfold path_there, Fs.is_file, Fs.is_dir.
  intros [H|H]%orb_true_iff; apply bool_decide_eq_true in H.
  - destruct H as [x Hx]. by eapply entries_file.
  - by apply entries_dir.
Qed.

Lemma well_formed_parent w d r :
  Fs.well_formed w = true → d ≠ EmptyString → path_there w (d +:+ "/" +:+ r) = true →
  path_there w d = true.
Proof.
  unfold Fs.well_formed. intros Hwf Hd Hp.
  rewrite forallb_forall in Hwf.
  apply path_there_entries, list_elem_of_In in Hp. specialize (Hwf _ Hp).
  rewrite forallb_forall in Hwf.
  unfold path_there. rewrite (Hwf d); [apply orb_true_r|].
  apply list_elem_of_In. by apply ancestors_app.
Qed.

Lemma folder_nonempty out seq : out +:+ "/" +:+ seq ≠ EmptyString.
Proof. by destruct out. Qed.

Lemma dict_get_set_eq k v kvs : dict_get k (dict_set k v kvs) = Some v.
Proof.
  induction kvs as [|[k0 v0] kvs IH]; simpl.
  - by rewrite String.eqb_refl.
  - destruct (String.eqb k k0) eqn:E; simpl; by rewrite E.
Qed.

Lemma dict_get_set_ne k k' v kvs :
  k ≠ k' → dict_get k (dict_set k' v kvs) = dict_get k kvs.
Proof.
  intros Hne. induction kvs as [|[k0 v0] kvs IH]; simpl.
  - by apply String.eqb_neq in Hne as ->.
  - destruct (String.eqb k' k0) eqn:E; simpl.
    + apply String.eqb_eq in E as <-. by apply String.eqb_neq in Hne as ->.
    + by rewrite IH.
Qed.

(** A derived record carries the path. *)
Lemma derived_image_path h h' feature out path ids :
  derived_from h h' feature out path → feature_ids h feature = Some ids →
  image_path_of h' out = Some (VStr path).
Proof.
  intros (lp & R & Hp & Hv & HR) Hids.
  unfold feature_ids in Hids. rewrite Hp in Hids. unfold props_loc in Hp.
  destruct feature as [|b|z|bits|s|f]; try done.
  destruct (h !! f) as [[kvs|xs]|] eqn:Hf; try done.
  destruct (dict_get "properties" kvs) as [[|b|z|bits|s|lp']|] eqn:Hprops; try done.
  injection Hp as ->.
  destruct (h !! lp) as [[ps|xs]|] eqn:Hlp; try done. clear Hids.
  destruct Hv as (lo & -> & Hlo).
  destruct (HR _ _ Hlo) as (_ & o & o' & Ho & Ho' & vs & -> & Hvs).
  rewrite Hf in Ho. injection Ho as <-.
  (* the record of the copy still has its properties *)
  assert (∃ kvs_e, enrich lp path f (ODict kvs) = ODict kvs_e ∧
                   dict_get "properties" kvs_e = Some (VRef lp)) as (kvs_e & He & Hpe).
  { unfold enrich. destruct (decide (f = lp)).
    - eexists. split; [done|]. by rewrite dict_get_set_ne.
    - by eexists. }
  rewrite He in Ho', Hvs. simpl in Ho', Hvs.
  pose proof (dict_get_zip _ "properties" kvs_e vs Hvs) as Hget.
  rewrite Hpe in Hget.
  destruct (dict_get "properties" (zip kvs_e.*1 vs)) as [x|] eqn:Hx; [|done].
  destruct Hget as (lp2 & -> & Hlp2).
  destruct (HR _ _ Hlp2) as (_ & o & o' & Ho & Ho2 & vs2 & -> & Hvs2).
  rewrite Hlp in Ho. injection Ho as <-.
  unfold enrich in Ho2, Hvs2. rewrite decide_True in Ho2, Hvs2 by done.
  simpl in Ho2, Hvs2.
  pose proof (dict_get_zip _ "image_path" _ vs2 Hvs2) as Hget.
  rewrite dict_get_set_eq in Hget.
  unfold image_path_of, props_loc. rewrite Ho', Hx, Ho2.
  destruct (dict_get "image_path" _) as [y|]; [|done]. simpl in Hget. by subst.
Qed.

(** C1. In a well-formed file system and a store whose references all lead
    somewhere, when a tile exists for every name of [cube_sides.split(",")],
    [download_clip_img] returns one record for each name, in order, each a
    copy of the feature with [properties.image_path] set to the path of
    that tile; it prints nothing, makes no request, starts no process (the
    log is as it was) and leaves the files and directories as they were. *)
Theorem idempotent_fast_path E feature out size sides w seq id :
  heap_closed (w_heap w) →
  Fs.well_formed w = true →
  feature_ids (w_heap w) feature = Some (seq, id) →
  (∀ i, i ∈ split_sides sides →
        path_there w (tile_path (out +:+ "/" +:+ seq) id i) = true) →
  ∃ results w',
    download_clip_img E feature out size sides w = (Ok results, w') ∧
    w_log w' = w_log w ∧ w_files w' = w_files w ∧ w_dirs w' = w_dirs w ∧
    length results = length (split_sides sides) ∧
    Forall2 (λ i o,
               derived_from (w_heap w) (w_heap w') feature o
                 (tile_path (out +:+ "/" +:+ seq) id i) ∧
               image_path_of (w_heap w') o
               = Some (VStr (tile_path (out +:+ "/" +:+ seq) id i)))
            (split_sides sides) results.
Proof.
  intros Hc Hwf Hids Htiles.
  rewrite (download_run _ _ _ _ _ _ _ _ Hids).
  (* the sequence directory is there *)
  assert (path_there w (out +:+ "/" +:+ seq) = true) as Hfolder.
  { destruct (split_sides sides) as [|i0 rest] eqn:Hs.
    { by apply split_on_nonempty in Hs. }
    eapply (well_formed_parent w _ (id +:+ "_" +:+ i0 +:+ ".jpg"));
      [done|apply folder_nonempty|].
    apply (Htiles i0). by left. }
  destruct (ensure_folder _ w) as [r1 w1] eqn:Een.
  apply ensure_folder_inv in Een as (_ & _ & _ & Hsame & _).
  destruct (Hsame Hfolder) as [-> ->].
  rewrite (proj2 (forallb_forall _ _)).
  2:{ intros i Hi. apply Htiles. by apply list_elem_of_In. }
  unfold fast_path.
  pose proof (feature_ids_closed _ _ _ Hids) as Hfeat.
  assert (∃ e, w_heap w = w_heap w ++ e) as Hpre.
  { exists []. by rewrite app_nil_r. }
  destruct (fast_loop_total (w_heap w) feature
              (tile_path (out +:+ "/" +:+ seq) id) (seq, id) (split_sides sides) [] w
              Hids Hpre Hc) as (rs & w' & Hrun).
  exists rs, w'. split; [exact Hrun|].
  destruct (fast_loop_inv (w_heap w) feature Hc Hfeat _ _ _ _ _ _ Hrun Hpre)
    as (Hf & Hd & Hl & _ & _ & Hrs).
  destruct (Hrs rs eq_refl) as (new & -> & Hnew). simpl.
  split; [done|]. split; [done|]. split; [done|].
  split; [symmetry; by eapply Forall2_length|].
  eapply Forall2_impl; [done|]. intros i o Hder. split; [done|].
  eapply derived_image_path; [exact Hder|exact Hids].
Qed.

Lemma idempotent_fast_path_witness :
  ∃ results w',
    download_clip_img Ex.offline Ex.feature "out" 1 "front,back" Ex.tiles_done
    = (Ok results, w') ∧
    w_log w' = w_log Ex.tiles_done ∧ w_files w' = w_files Ex.tiles_done ∧
    w_dirs w' = w_dirs Ex.tiles_done ∧
    length results = length (split_sides "front,back") ∧
    Forall2 (λ i o,
               derived_from (w_heap Ex.tiles_done) (w_heap w') Ex.feature o
                 (tile_path ("out" +:+ "/" +:+ "s") "7" i) ∧
               image_path_of (w_heap w') o
               = Some (VStr (tile_path ("out" +:+ "/" +:+ "s") "7" i)))
            (split_sides "front,back") results.
Proof.
  apply (idempotent_fast_path Ex.offline Ex.feature "out" 1 "front,back"
           Ex.tiles_done "s" "7").
  - exact feature_heap_closed.
  - reflexivity.
  - reflexivity.
  - intros i Hi. vm_compute in Hi.
    apply elem_of_cons in Hi as [->|Hi]; [reflexivity|].
    apply elem_of_cons in Hi as [->|Hi]; [reflexivity|].
    by apply elem_of_nil in Hi.
Defined.

(* ===================================================================== *)
(** ** C2: which exceptions the orchestrator contains *)
(* ===================================================================== *)

(** C2, the claim at an output root that is a regular file: the directory
    of the sequence cannot be created, and the exception of [os.makedirs]
    leaves [download_clip_img]. *)
Lemma error_containment_counterexample :
  (download_clip_img Ex.online Ex.feature "out" 1 "front" Ex.out_is_file).1
  = Raise (NotADirectoryError "out/s").
Proof. vm_compute. reflexivity. Qed.

(** C2, amended. Once the ids were read and the directory of the sequence
    is there (step 1), and not every tile exists, [download_clip_img]
    returns normally whatever happens later; and when fetching,
    projecting, splitting or cleaning raises, it returns no record and
    prints the exception. *)
Theorem slow_path_error_containment E feature out size sides w seq id w1 :
  feature_ids (w_heap w) feature = Some (seq, id) →
  ensure_folder (out +:+ "/" +:+ seq) w = (Ok tt, w1) →
  forallb (λ i, path_there w1 (tile_path (out +:+ "/" +:+ seq) id i))
          (split_sides sides) = false →
  (∃ results w', download_clip_img E feature out size sides w = (Ok results, w')) ∧
  ∀ e w2,
    fetch_and_split E (api_url id) (api_header E)
      ((out +:+ "/" +:+ seq) +:+ "/" +:+ id +:+ ".jpg")
      ((out +:+ "/" +:+ seq) +:+ "/" +:+ id +:+ "_cubemap.jpg")
      size seq id out (out +:+ "/" +:+ seq) sides w1 = (Raise e, w2) →
    download_clip_img E feature out size sides w
    = (Ok [], {| w_files := w_files w2; w_dirs := w_dirs w2; w_heap := w_heap w2;
                 w_log := w_log w2 ++ [EvPrint EmptyString e EmptyString] |}).
Proof.
  intros Hids Hen Hslow.
  rewrite (download_run _ _ _ _ _ _ _ _ Hids), Hen, Hslow, slow_path_run.
  split.
  - destruct (fetch_and_split _ _ _ _ _ _ _ _ _ _ _ w1) as [[sts|e] w2];
      [|by eexists _, _].
    destruct (collect_returns feature sts [] w2) as (rs & oe & w3 & -> & _).
    destruct oe; by eexists _, _.
  - intros e w2 ->. reflexivity.
Qed.

Lemma slow_path_error_containment_witness :
  let w1 := (ensure_folder "out/s" Ex.fresh).2 in
  (∃ results w',
     download_clip_img Ex.offline Ex.feature "out" 1 "front,back" Ex.fresh
     = (Ok results, w')) ∧
  ∀ e w2,
    fetch_and_split Ex.offline (api_url "7") (api_header Ex.offline)
      (("out" +:+ "/" +:+ "s") +:+ "/" +:+ "7" +:+ ".jpg")
      (("out" +:+ "/" +:+ "s") +:+ "/" +:+ "7" +:+ "_cubemap.jpg")
      1 "s" "7" "out" ("out" +:+ "/" +:+ "s") "front,back" w1 = (Raise e, w2) →
    download_clip_img Ex.offline Ex.feature "out" 1 "front,back" Ex.fresh
    = (Ok [], {| w_files := w_files w2; w_dirs := w_dirs w2; w_heap := w_heap w2;
                 w_log := w_log w2 ++ [EvPrint EmptyString e EmptyString] |}).
Proof.
  intros w1.
  apply (slow_path_error_containment Ex.offline Ex.feature "out" 1 "front,back"
           Ex.fresh "s" "7" w1).
  - reflexivity.
  - reflexivity.
  - reflexivity.
Defined.

(* ===================================================================== *)
(** ** C7: what is left after the cleaning *)
(* ===================================================================== *)

Lemma os_system_convert360_spec E src dst size w :
  ∃ w',
    os_system_convert360 E src dst size w = (Ok tt, w') ∧
    w_dirs w' = w_dirs w ∧
    (∀ c img, w_files w !! src = Some c → convert360 E c size = Some img →
              Fs.is_dir (w_dirs w) dst = false →
              w_files w' !! dst = Some (Pic img)).
Proof.
  unfold os_system_convert360, bind, emit, run_convert360. simpl.
  destruct (w_files w !! src) as [c|] eqn:Hsrc; [|by eexists].
  destruct (convert360 E c size) as [cm|] eqn:Hconv.
  2:{ eexists. split; [done|]. split; [done|]. intros ? ? [= <-]. congruence. }
  destruct (Fs.is_dir (w_dirs w) dst) eqn:Hdir.
  - eexists. split; [done|]. split; [done|]. intros. congruence.
  - eexists. split; [done|]. split; [done|].
    intros c' img [= <-] Himg _. simpl. rewrite lookup_insert_eq. congruence.
Qed.

Lemma tile_generated out seq id sides c :
  c ∈ requested_cells (split_sides sides) →
  face_path out seq id c ∈ images_generate (out +:+ "/" +:+ seq) id sides.
Proof.
  intros [_ Hc]%requested_cells_named. apply list_elem_of_fmap.
  exists c.2. split; [|done].
  unfold face_path, chunk_img_path. by rewrite !sapp_assoc.
Qed.

Lemma source_not_generated folder id sides :
  folder +:+ "/" +:+ id +:+ ".jpg" ∉ images_generate folder id sides.
Proof.
  intros (i & Heq & _)%list_elem_of_fmap.
  rewrite <- (sapp_assoc folder "/"), <- (sapp_assoc (folder +:+ "/")) in Heq.
  rewrite <- (sapp_assoc folder "/" id) in Heq.
  by apply sapp_inv_head in Heq.
Qed.






(* ===================================================================== *)
(** ** Runs on the concrete worlds *)
(* ===================================================================== *)

(** With a directory in the place of the front tile, the extractor reports
    [False] for front and the path for back. *)
Example split_front_blocked :
  (cubemap_splitter "out/s/7_cubemap.jpg" 1 "s" "7" "out" "front,back"
     Ex.front_blocked).1
  = Ok [SFalse; SPath "out/s/7_back.jpg"].
Proof. vm_compute. reflexivity. Qed.

(** The outcomes come in the order of the scan, not of the request. *)
Example split_scan_order :
  (cubemap_splitter "out/s/7_cubemap.jpg" 1 "s" "7" "out" "back,top,left"
     (Ex.with_cubemap Ex.cubemap_4x3)).1
  = Ok [SPath "out/s/7_left.jpg"; SPath "out/s/7_top.jpg"; SPath "out/s/7_back.jpg"].
Proof. vm_compute. reflexivity. Qed.

(** Cleaning for image 12 with side front: the tile of image 123 goes
    with the source and the cubemap. *)
Example clean_shared_prefix :
  let w' := (clean_files "out/s" "12" "front" Ex.shared_prefix).2 in
  w_files w' !! "out/s/12_front.jpg" = Some (Raw "front") ∧
  w_files w' !! "out/s/12.jpg" = None ∧
  w_files w' !! "out/s/12_cubemap.jpg" = None ∧
  w_files w' !! "out/s/123_front.jpg" = None ∧
  w_files w' !! "out/s/9_front.jpg" = Some (Raw "unrelated") ∧
  w_files w' !! "out/s/12_notes.txt" = Some (Raw "notes").
Proof. vm_compute. repeat split; reflexivity. Qed.

(** The slow path from nothing: two requests, one run of the projector,
    two records, and the two tiles as the only files. *)
Example slow_run_online :
  let run := download_clip_img Ex.online Ex.feature "out" 1 "front,back" Ex.fresh in
  run.1 = Ok [VRef 8; VRef 16] ∧
  w_log run.2
  = [EvRequest "https://graph.mapillary.com/7?fields=thumb_original_url"
       [("Authorization", "OAuth token")];
     EvRequest "https://cdn/7" [];
     EvSystem "convert360 --convert e2c --i out/s/7.jpg  --o out/s/7_cubemap.jpg --w 1"] ∧
  (map_to_list (w_files run.2)).*1 = ["out/s/7_front.jpg"; "out/s/7_back.jpg"].
Proof. vm_compute. repeat split; reflexivity. Qed.

(** The host cannot be reached: no record, the exception printed. *)
Example slow_run_offline :
  let run := download_clip_img Ex.offline Ex.feature "out" 1 "front,back" Ex.fresh in
  run.1 = Ok [] ∧
  w_log run.2
  = [EvRequest "https://graph.mapillary.com/7?fields=thumb_original_url"
       [("Authorization", "OAuth None")];
     EvPrint EmptyString
       (ConnectionError "https://graph.mapillary.com/7?fields=thumb_original_url")
       EmptyString].
Proof. vm_compute. split; reflexivity. Qed.

(** The fast path: the records are new containers after the four of the
    feature, which are as they were; the copy of the properties carries
    the path. *)
Example fast_run_records :
  let run := download_clip_img Ex.offline Ex.feature "out" 1 "front,back"
               Ex.tiles_done in
  run.1 = Ok [VRef 8; VRef 16] ∧
  take 4 (w_heap run.2) = Ex.feature_heap ∧
  w_heap run.2 !! 8%nat
  = Some (ODict [("type", VStr "Feature"); ("properties", VRef 9);
                 ("geometry", VRef 10)]) ∧
  w_heap run.2 !! 9%nat
  = Some (ODict [("sequence_id", VStr "s"); ("id", VInt 7);
                 ("image_path", VStr "out/s/7_front.jpg")]) ∧
  w_heap run.2 !! 17%nat
  = Some (ODict [("sequence_id", VStr "s"); ("id", VInt 7);
                 ("image_path", VStr "out/s/7_back.jpg")]) ∧
  w_log run.2 = [].
Proof. vm_compute. repeat split; reflexivity. Qed.

(* ===================================================================== *)
(** ** More on the face extractor *)
(* ===================================================================== *)

Section MoreWrites.

Context (dirs : gset string) (img : image) (r size : Z) (out seq id : string).

Lemma face_writes_keep cs files p :
  is_Some (files !! p) →
  is_Some (foldl (face_write dirs img r size out seq id) files cs !! p).
Proof.
  revert files. induction cs as [|c cs IH]; intros files H; [done|]. simpl.
  apply IH. unfold face_write. destruct (face_fails _ _ _ _ _ _ _ c); [done|].
  rewrite lookup_insert_is_Some. destruct (decide (face_path out seq id c = p)); auto.
Qed.

Lemma face_prints_only cs :
  Forall (λ ev, ∃ b e a, ev = EvPrint b e a)
         (omap (face_print dirs img r size out seq id) cs).
Proof.
  induction cs as [|c cs IH]; [constructor|]. simpl.
  unfold face_print at 1. destruct (face_fails _ _ _ _ _ _ _ c); [|done].
  constructor; [eauto|done].
Qed.

End MoreWrites.

Lemma requested_cells_le sides :
  (length (requested_cells sides) ≤ length sides)%nat.
Proof.
  rewrite requested_cells_length.
  etrans; [apply valid_requested_length|]. apply length_filter.
Qed.

Lemma requested_cells_ext sides1 sides2 :
  (∀ n, n ∈ face_names → n ∈ sides1 ↔ n ∈ sides2) →
  requested_cells sides1 = requested_cells sides2.
Proof.
  intros H. rewrite !requested_cells_filter.
  unfold named_cells. rewrite !filter_cons, !filter_nil. simpl.
  assert (∀ n, n ∈ face_names →
               ∀ A (a b : A), (if decide (n ∈ sides1) then a else b)
                              = (if decide (n ∈ sides2) then a else b)) as Hd.
  { intros n Hn A a b. specialize (H n Hn).
    destruct (decide (n ∈ sides1)), (decide (n ∈ sides2)); tauto. }
  unfold face_names in Hd.
  rewrite (Hd "left"), (Hd "top"), (Hd "front"), (Hd "bottom"),
    (Hd "right"), (Hd "back");
    [reflexivity|rewrite !elem_of_cons; auto 10..].
Qed.

(** X1. [cubemap_splitter] never raises: whatever the arguments and the
    world, it returns a list of outcomes, at most one for each requested
    name; it leaves the directories and the store as they are, deletes no
    file, and all it adds to what the program did are printed lines. *)
Theorem cubemap_splitter_never_raises cubemap size seq id out cube_sides w :
  ∃ sts w' prints,
    cubemap_splitter cubemap size seq id out cube_sides w = (Ok sts, w') ∧
    (length sts ≤ length (split_sides cube_sides))%nat ∧
    w_dirs w' = w_dirs w ∧ w_heap w' = w_heap w ∧
    w_log w' = w_log w ++ prints ∧
    Forall (λ ev, ∃ b e a, ev = EvPrint b e a) prints ∧
    ∀ p, is_Some (w_files w !! p) → is_Some (w_files w' !! p).
Proof.
  assert ((∃ img, w_files w !! cubemap = Some (Pic img))
          ∨ ∀ img, w_files w !! cubemap ≠ Some (Pic img)) as [[img Himg]|Hno].
  { destruct (w_files w !! cubemap) as [[b|img]|]; eauto; right; done. }
  - rewrite (cubemap_splitter_readable _ _ _ _ _ _ _ img) by done.
    eexists _, _, _. split; [reflexivity|]. simpl.
    split; [rewrite length_fmap; apply requested_cells_le|].
    do 3 (split; [reflexivity|]).
    split; [apply face_prints_only|]. intros p. apply face_writes_keep.
  - rewrite cubemap_splitter_unreadable by done.
    eexists _, _, _. split; [reflexivity|]. simpl.
    split; [by rewrite length_replicate|].
    do 3 (split; [reflexivity|]). split; [|done].
    constructor; [eauto|constructor].
Qed.

(** X2. On a cubemap that was read, what [cubemap_splitter] returns and
    does depends only on which of the six face names are among the
    requested names: their order, repetitions and names that are no face
    make no difference. *)
Theorem requested_set_decides cubemap size seq id out sides1 sides2 w img :
  w_files w !! cubemap = Some (Pic img) →
  (∀ n, n ∈ face_names → n ∈ split_sides sides1 ↔ n ∈ split_sides sides2) →
  cubemap_splitter cubemap size seq id out sides1 w
  = cubemap_splitter cubemap size seq id out sides2 w.
Proof.
  intros Himg H.
  rewrite !(cubemap_splitter_readable _ _ _ _ _ _ _ img) by done.
  by rewrite (requested_cells_ext _ _ H).
Qed.

Lemma requested_set_decides_witness :
  cubemap_splitter "out/s/7_cubemap.jpg" 1 "s" "7" "out" "front,back"
    (Ex.with_cubemap Ex.cubemap_4x3)
  = cubemap_splitter "out/s/7_cubemap.jpg" 1 "s" "7" "out" "back,up,front,back"
      (Ex.with_cubemap Ex.cubemap_4x3).
Proof.
  apply (requested_set_decides "out/s/7_cubemap.jpg" 1 "s" "7" "out"
           "front,back" "back,up,front,back" (Ex.with_cubemap Ex.cubemap_4x3)
           Ex.cubemap_4x3).
  - reflexivity.
  - intros n Hn.
    change (split_sides "front,back") with ["front"; "back"].
    change (split_sides "back,up,front,back") with ["back"; "up"; "front"; "back"].
    unfold face_names in Hn. rewrite !elem_of_cons, elem_of_nil in Hn.
    rewrite !elem_of_cons, !elem_of_nil.
    destruct Hn as [->|[->|[->|[->|[->|[->|[]]]]]]]; split; intros H;
      repeat (destruct H as [H|H]; try discriminate H); auto 10.
Defined.

Lemma slice_bound_range n i : 0 <= n → 0 <= slice_bound n i <= n.
Proof. unfold slice_bound. intros H. destruct (Z.ltb_spec i 0); lia. Qed.

Lemma slice_bound_span n a size :
  0 <= n → 0 <= size → slice_bound n (a + size) - slice_bound n a <= size.
Proof.
  unfold slice_bound. intros Hn Hs.
  destruct (Z.ltb_spec (a + size) 0), (Z.ltb_spec a 0); lia.
Qed.

(** X3. With a clip size that is not negative, a tile that [write_face]
    writes is never empty and never larger than the clip size, and each of
    its pixels is a pixel of the image, with the channels swapped. *)
Theorem written_tile_bounds img r size x y path w w' :
  0 <= img_height img → 0 <= img_width img → 0 <= size →
  write_face img r size x y path w = (Ok tt, w') →
  ∃ tile,
    w_files w' !! path = Some (Pic tile) ∧
    0 < img_height tile <= size ∧ 0 < img_width tile <= size ∧
    ∀ i j, 0 <= i < img_height tile → 0 <= j < img_width tile →
      ∃ i' j', 0 <= i' < img_height img ∧ 0 <= j' < img_width img ∧
               img_px tile i j = swap_channels (img_px img i' j').
Proof.
  intros HH HW Hs. rewrite write_face_spec. unfold face_error.
  destruct (is_empty (crop_img img r size x y)) eqn:Hemp; [done|].
  destruct (Fs.is_dir _ _); [done|]. destruct (Fs.parent_ok _ _); [|done].
  intros [= <-]. eexists. split; [apply lookup_insert_eq|].
  unfold is_empty in Hemp. apply orb_false_iff in Hemp as [Hh Hw].
  apply Z.leb_gt in Hh, Hw. revert Hh Hw.
  unfold crop_img, slice2. simpl.
  pose proof (slice_bound_span (img_height img) (Z.of_nat y * r) size HH Hs).
  pose proof (slice_bound_span (img_width img) (Z.of_nat x * r) size HW Hs).
  pose proof (slice_bound_range (img_height img) (Z.of_nat y * r) HH).
  pose proof (slice_bound_range (img_height img) (Z.of_nat y * r + size) HH).
  pose proof (slice_bound_range (img_width img) (Z.of_nat x * r) HW).
  pose proof (slice_bound_range (img_width img) (Z.of_nat x * r + size) HW).
  intros Hh Hw. split; [lia|]. split; [lia|].
  intros i j Hi Hj. eexists _, _. split; [|split; [|reflexivity]]; lia.
Qed.

Lemma written_tile_bounds_witness :
  let img := Ex.cubemap_4x3 in
  let w := Ex.with_cubemap Ex.cubemap_4x3 in
  ∃ tile,
    w_files (write_face img 1 2 1 2 "out/s/7_bottom.jpg" w).2 !! "out/s/7_bottom.jpg"
    = Some (Pic tile) ∧
    0 < img_height tile <= 2 ∧ 0 < img_width tile <= 2 ∧
    ∀ i j, 0 <= i < img_height tile → 0 <= j < img_width tile →
      ∃ i' j', 0 <= i' < img_height img ∧ 0 <= j' < img_width img ∧
               img_px tile i j = swap_channels (img_px img i' j').
Proof.
  intros img w.
  apply (written_tile_bounds img 1 2 1 2 "out/s/7_bottom.jpg" w
           (write_face img 1 2 1 2 "out/s/7_bottom.jpg" w).2).
  - simpl. lia.
  - simpl. lia.
  - lia.
  - reflexivity.
Defined.

Lemma named_cells_coords c :
  c ∈ named_cells → (c.1.1 ≤ 3)%nat ∧ (c.1.2 ≤ 2)%nat.
Proof.
  unfold named_cells. rewrite !elem_of_cons, elem_of_nil.
  intros H. repeat (destruct H as [->|H]; [simpl; lia|]). done.
Qed.

(** X4. On a cubemap of four cells by three whose cells have the clip size
    (the size the projector is asked for), no crop is clamped or empty:
    each requested face, on its own, gets its path when its tile can be
    written, and then its tile is the whole cell of the face, the window of
    the clip size at column [x] and row [y] of the grid; it gets [False]
    when its tile cannot be written (a directory in its place, or no
    directory to put it in). The cells of two faces share no pixel. *)
Theorem cross_layout_faces cubemap size seq id out cube_sides w img :
  w_files w !! cubemap = Some (Pic img) →
  0 < size → img_width img = 4 * size → img_height img = 3 * size →
  ∃ sts w',
    cubemap_splitter cubemap size seq id out cube_sides w = (Ok sts, w') ∧
    length sts = length (requested_cells (split_sides cube_sides)) ∧
    (∀ i c, requested_cells (split_sides cube_sides) !! i = Some c →
       Fs.is_dir (w_dirs w) (face_path out seq id c) = false →
       Fs.parent_ok (w_dirs w) (face_path out seq id c) = true →
       sts !! i = Some (SPath (face_path out seq id c)) ∧
       ∃ tile, w_files w' !! face_path out seq id c = Some (Pic tile) ∧
               is_window img (Z.of_nat c.1.2 * size) (Z.of_nat c.1.1 * size)
                         size tile) ∧
    (∀ i c, requested_cells (split_sides cube_sides) !! i = Some c →
       Fs.is_dir (w_dirs w) (face_path out seq id c) = true
       ∨ Fs.parent_ok (w_dirs w) (face_path out seq id c) = false →
       sts !! i = Some SFalse) ∧
    (∀ c1 c2 i1 j1 i2 j2,
       c1 ∈ named_cells → c2 ∈ named_cells → c1 ≠ c2 →
       0 <= i1 < size → 0 <= j1 < size → 0 <= i2 < size → 0 <= j2 < size →
       (Z.of_nat c1.1.2 * size + i1, Z.of_nat c1.1.1 * size + j1)
       ≠ (Z.of_nat c2.1.2 * size + i2, Z.of_nat c2.1.1 * size + j2)).
Proof.
  intros Himg Hs HW HH.
  rewrite (cubemap_splitter_readable _ _ _ _ _ _ _ img) by done. simpl.
  assert (img_width img - img_height img = size) as -> by lia.
  assert (∀ c, c ∈ requested_cells (split_sides cube_sides) →
               is_empty (crop_img img size size c.1.1 c.1.2) = false ∧
               is_window img (Z.of_nat c.1.2 * size) (Z.of_nat c.1.1 * size) size
                         (face_tile img size size c)) as Hcell.
  { intros c [Hn _]%requested_cells_named.
    apply named_cells_coords in Hn as [Hx Hy].
    apply (crop_img_window img size size c.1.1 c.1.2); nia. }
  eexists _, _. split; [reflexivity|]. simpl.
  split; [by rewrite length_fmap|]. split; [|split].
  - intros i c Hi Hd Hp. pose proof (list_elem_of_lookup_2 _ _ _ Hi) as Hc.
    destruct (Hcell c Hc) as [He Hwin].
    assert (face_fails (w_dirs w) img size size out seq id c = None) as Hok.
    { unfold face_fails, face_error. by rewrite He, Hd, Hp. }
    split.
    + rewrite list_lookup_fmap, Hi. simpl. unfold face_status. by rewrite Hok.
    + eexists. split; [|exact Hwin].
      by apply face_writes_hit; [apply requested_paths_nodup| |].
  - intros i c Hi Hbad. pose proof (list_elem_of_lookup_2 _ _ _ Hi) as Hc.
    destruct (Hcell c Hc) as [He _].
    rewrite list_lookup_fmap, Hi. simpl. unfold face_status, face_fails, face_error.
    rewrite He. destruct (Fs.is_dir _ _); [done|].
    destruct Hbad as [Hbad|Hbad]; [done|]. by rewrite Hbad.
  - intros c1 c2 i1 j1 i2 j2 H1 H2 Hne Hi1 Hj1 Hi2 Hj2 [= Hr Hc].
    apply Hne. revert H1 H2 Hr Hc. unfold named_cells.
    rewrite !elem_of_cons, !elem_of_nil.
    intros H1 H2.
    repeat (destruct H1 as [->|H1]); try done;
    repeat (destruct H2 as [->|H2]); try done; simpl; intros; try reflexivity; nia.
Qed.

Lemma cross_layout_faces_witness :
  let img := Ex.cubemap_4x3 in
  let w := Ex.front_blocked in
  ∃ sts w',
    cubemap_splitter "out/s/7_cubemap.jpg" 1 "s" "7" "out" "front,back" w
    = (Ok sts, w') ∧
    length sts = length (requested_cells (split_sides "front,back")) ∧
    (∀ i c, requested_cells (split_sides "front,back") !! i = Some c →
       Fs.is_dir (w_dirs w) (face_path "out" "s" "7" c) = false →
       Fs.parent_ok (w_dirs w) (face_path "out" "s" "7" c) = true →
       sts !! i = Some (SPath (face_path "out" "s" "7" c)) ∧
       ∃ tile, w_files w' !! face_path "out" "s" "7" c = Some (Pic tile) ∧
               is_window img (Z.of_nat c.1.2 * 1) (Z.of_nat c.1.1 * 1) 1 tile) ∧
    (∀ i c, requested_cells (split_sides "front,back") !! i = Some c →
       Fs.is_dir (w_dirs w) (face_path "out" "s" "7" c) = true
       ∨ Fs.parent_ok (w_dirs w) (face_path "out" "s" "7" c) = false →
       sts !! i = Some SFalse) ∧
    (∀ c1 c2 i1 j1 i2 j2,
       c1 ∈ named_cells → c2 ∈ named_cells → c1 ≠ c2 →
       0 <= i1 < 1 → 0 <= j1 < 1 → 0 <= i2 < 1 → 0 <= j2 < 1 →
       (Z.of_nat c1.1.2 * 1 + i1, Z.of_nat c1.1.1 * 1 + j1)
       ≠ (Z.of_nat c2.1.2 * 1 + i2, Z.of_nat c2.1.1 * 1 + j2)).
Proof.
  intros img w.
  apply (cross_layout_faces "out/s/7_cubemap.jpg" 1 "s" "7" "out" "front,back"
           w img).
  - reflexivity.
  - lia.
  - reflexivity.
  - reflexivity.
Defined.

(** X5. On an image as wide as it is high the step between the cells is
    zero: every requested face that is written is written with one and the
    same window, the top left corner of the image. *)
Theorem square_image_one_window cubemap size seq id out cube_sides w img c :
  w_files w !! cubemap = Some (Pic img) →
  img_width img = img_height img →
  c ∈ requested_cells (split_sides cube_sides) →
  face_fails (w_dirs w) img 0 size out seq id c = None →
  w_files (cubemap_splitter cubemap size seq id out cube_sides w).2
    !! face_path out seq id c
  = Some (Pic (rgb_of (slice2 img 0 size 0 size))).
Proof.
  intros Himg Hsq Hc Hok.
  rewrite (cubemap_splitter_readable _ _ _ _ _ _ _ img) by done. simpl.
  assert (img_width img - img_height img = 0) as -> by lia.
  rewrite face_writes_hit; [|apply requested_paths_nodup|done|done].
  unfold face_tile, crop_img. by rewrite !Z.mul_0_r.
Qed.

Lemma square_image_one_window_witness :
  let img := {| img_height := 3; img_width := 3; img_px := λ i j, (i, j, 0) |} in
  w_files (cubemap_splitter "out/s/7_cubemap.jpg" 1 "s" "7" "out" "front,back"
             (Ex.with_cubemap img)).2
    !! face_path "out" "s" "7" (3%nat, 1%nat, "back")
  = Some (Pic (rgb_of (slice2 img 0 1 0 1))).
Proof.
  intros img.
  apply (square_image_one_window "out/s/7_cubemap.jpg" 1 "s" "7" "out"
           "front,back" (Ex.with_cubemap img) img (3%nat, 1%nat, "back")).
  - reflexivity.
  - reflexivity.
  - apply requested_cells_named. split.
    + unfold named_cells. rewrite !elem_of_cons. auto 10.
    + change (split_sides "front,back") with ["front"; "back"].
      rewrite !elem_of_cons. auto.
  - reflexivity.
Defined.

(** X6. When none of the requested names is a face (the empty
    [cube_sides] is the plainest case), [cubemap_splitter] on a cubemap
    that was read returns the empty list and leaves the world as it is;
    on a cubemap that cannot be read the same request still gets a [False]
    for every name, and there is at least one. *)
Theorem no_face_requested cubemap size seq id out cube_sides w :
  (∀ n, n ∈ split_sides cube_sides → n ∉ face_names) →
  (∀ img, w_files w !! cubemap = Some (Pic img) →
          cubemap_splitter cubemap size seq id out cube_sides w = (Ok [], w)) ∧
  ((∀ img, w_files w !! cubemap ≠ Some (Pic img)) →
   ∃ sts, (cubemap_splitter cubemap size seq id out cube_sides w).1 = Ok sts ∧
          (1 ≤ length sts)%nat ∧ Forall (λ s, s = SFalse) sts).
Proof.
  intros Hno. split.
  - intros img Himg.
    rewrite (cubemap_splitter_readable _ _ _ _ _ _ _ img) by done. simpl.
    assert (requested_cells (split_sides cube_sides) = []) as ->.
    { destruct (requested_cells _) as [|c cs] eqn:E; [done|].
      assert (c ∈ requested_cells (split_sides cube_sides)) as Hc
        by (rewrite E; by left).
      apply requested_cells_named in Hc as [Hn Hs].
      destruct (Hno _ Hs). by apply named_cells_face. }
    simpl. by rewrite app_nil_r, world_eta.
  - intros Hun. rewrite cubemap_splitter_unreadable by done.
    eexists. split; [reflexivity|]. rewrite length_replicate. split.
    + pose proof (split_on_nonempty "," cube_sides) as Hne.
      unfold split_sides. destruct (PyStr.split_on _ _); [done|simpl; lia].
    + apply Forall_forall. by intros s [-> _]%elem_of_replicate.
Qed.

Lemma no_face_requested_witness :
  (∀ img, w_files (Ex.with_cubemap Ex.cubemap_4x3) !! "out/s/7_cubemap.jpg"
          = Some (Pic img) →
          cubemap_splitter "out/s/7_cubemap.jpg" 1 "s" "7" "out" EmptyString
            (Ex.with_cubemap Ex.cubemap_4x3)
          = (Ok [], Ex.with_cubemap Ex.cubemap_4x3)) ∧
  ((∀ img, w_files (Ex.with_cubemap Ex.cubemap_4x3) !! "out/s/7_cubemap.jpg"
           ≠ Some (Pic img)) →
   ∃ sts, (cubemap_splitter "out/s/7_cubemap.jpg" 1 "s" "7" "out" EmptyString
             (Ex.with_cubemap Ex.cubemap_4x3)).1 = Ok sts ∧
          (1 ≤ length sts)%nat ∧ Forall (λ s, s = SFalse) sts).
Proof.
  apply (no_face_requested "out/s/7_cubemap.jpg" 1 "s" "7" "out" EmptyString
           (Ex.with_cubemap Ex.cubemap_4x3)).
  intros n Hn. change (split_sides EmptyString) with [EmptyString] in Hn.
  apply list_elem_of_singleton in Hn as ->.
  unfold face_names. rewrite !elem_of_cons, elem_of_nil.
  intros H. repeat (destruct H as [H|H]; [discriminate H|]). done.
Defined.

(* ===================================================================== *)
(** ** The requested names *)
(* ===================================================================== *)

Lemma split_on_cons sep c s :
  PyStr.split_on sep (String c s)
  = if Ascii.eqb c sep then EmptyString :: PyStr.split_on sep s
    else match PyStr.split_on sep s with
         | [] => [String c EmptyString]
         | w :: ws => String c w :: ws
         end.
Proof. reflexivity. Qed.

Lemma concat_cons_cons sep a b l :
  String.concat sep (a :: b :: l) = a +:+ sep +:+ String.concat sep (b :: l).
Proof. reflexivity. Qed.

Lemma join_split s : String.concat "," (PyStr.split_on "," s) = s.
Proof.
  induction s as [|c s IH]; [done|]. rewrite split_on_cons.
  destruct (Ascii.eqb_spec c ",") as [->|Hne].
  - destruct (PyStr.split_on "," s) as [|a l] eqn:E;
      [by apply split_on_nonempty in E|].
    rewrite concat_cons_cons, IH. reflexivity.
  - destruct (PyStr.split_on "," s) as [|a l] eqn:E;
      [by apply split_on_nonempty in E|].
    rewrite <- IH. destruct l; reflexivity.
Qed.

Lemma split_no_sep s :
  Forall (λ n, PyStr.has_char "," n = false) (PyStr.split_on "," s).
Proof.
  induction s as [|c s IH]; [by repeat constructor|]. rewrite split_on_cons.
  destruct (Ascii.eqb c ",") eqn:Ec.
  - by constructor.
  - destruct (PyStr.split_on "," s) as [|a l].
    { constructor; [simpl; by rewrite Ec|constructor]. }
    apply Forall_cons in IH as [Ha Hl]. constructor; [|done].
    simpl. by rewrite Ec, Ha.
Qed.

Lemma split_length s : length (PyStr.split_on "," s) = S (commas s).
Proof.
  unfold commas. induction s as [|c s IH]; [done|]. rewrite split_on_cons.
  simpl list_ascii_of_string. rewrite filter_cons.
  destruct (Ascii.eqb_spec c ",") as [->|Hne].
  - rewrite decide_True by done. simpl. by rewrite IH.
  - rewrite decide_False by done. rewrite <- IH.
    destruct (PyStr.split_on "," s) eqn:E; [by apply split_on_nonempty in E|done].
Qed.

Lemma split_join l :
  l ≠ [] → Forall (λ n, PyStr.has_char "," n = false) l →
  PyStr.split_on "," (String.concat "," l) = l.
Proof.
  induction l as [|a l IH]; [done|]. intros _ H.
  apply Forall_cons in H as [Ha Hl].
  destruct l as [|b l].
  - simpl. clear IH Hl. induction a as [|c a IHa]; [done|].
    simpl in Ha. apply orb_false_iff in Ha as [Hc Ha].
    rewrite split_on_cons, Hc, (IHa Ha). done.
  - rewrite concat_cons_cons. specialize (IH ltac:(done) Hl).
    induction a as [|c a IHa].
    + rewrite sapp_nil_l. change ("," +:+ ?s) with (String "," s).
      by rewrite split_on_cons, Ascii.eqb_refl, IH.
    + simpl in Ha. apply orb_false_iff in Ha as [Hc Ha].
      rewrite sapp_cons, split_on_cons, Hc, (IHa Ha). done.
Qed.

(** X7. [cube_sides.split(",")] and joining with commas are inverse to
    each other: the requested names joined with commas give [cube_sides]
    back, no name holds a comma, there is one name more than there are
    commas (so never none), and a list of comma-free names that is not
    empty is what its joining splits into. *)
Theorem split_sides_round_trip cube_sides :
  String.concat "," (split_sides cube_sides) = cube_sides ∧
  Forall (λ n, PyStr.has_char "," n = false) (split_sides cube_sides) ∧
  length (split_sides cube_sides) = S (commas cube_sides) ∧
  ∀ names, names ≠ [] → Forall (λ n, PyStr.has_char "," n = false) names →
           split_sides (String.concat "," names) = names.
Proof.
  unfold split_sides. split; [apply join_split|].
  split; [apply split_no_sep|]. split; [apply split_length|]. apply split_join.
Qed.

(* ===================================================================== *)
(** ** More on the cleaner *)
(* ===================================================================== *)

Lemma clean_files_unsupported folder id cube_sides w :
  Fs.glob_supported (folder +:+ "/" +:+ id) = false →
  clean_files folder id cube_sides w = (Raise Unmodelled, w).
Proof. intros H. unfold clean_files, bind, Fs.glob_jpg. by rewrite H. Qed.

(** X8. [clean_files] only deletes, and once is enough: it creates and
    changes no file, leaves the directories and the store as they are, and
    a second cleaning right after the first deletes nothing more. *)
Theorem clean_files_twice folder id cube_sides w :
  Fs.glob_supported (folder +:+ "/" +:+ id) = true →
  ∃ w1 w2,
    clean_files folder id cube_sides w = (Ok tt, w1) ∧
    clean_files folder id cube_sides w1 = (Ok tt, w2) ∧
    w_files w1 ⊆ w_files w ∧
    w_files w2 = w_files w1 ∧
    w_dirs w2 = w_dirs w ∧ w_heap w2 = w_heap w.
Proof.
  intros Hsup.
  destruct (clean_files_spec folder id cube_sides w Hsup)
    as (msgs1 & w1 & Hrun1 & Hd1 & Hh1 & _ & _ & Hf1 & _).
  destruct (clean_files_spec folder id cube_sides w1 Hsup)
    as (msgs2 & w2 & Hrun2 & Hd2 & Hh2 & _ & _ & Hf2 & _).
  exists w1, w2. split; [done|]. split; [done|]. split; [|split; [|split]].
  - apply map_subseteq_spec. intros p x. rewrite Hf1. by case_decide.
  - apply map_eq. intros p. rewrite Hf2, Hf1. by case_decide.
  - congruence.
  - congruence.
Qed.

Lemma clean_files_twice_witness :
  ∃ w1 w2,
    clean_files "out/s" "12" "front" Ex.shared_prefix = (Ok tt, w1) ∧
    clean_files "out/s" "12" "front" w1 = (Ok tt, w2) ∧
    w_files w1 ⊆ w_files Ex.shared_prefix ∧
    w_files w2 = w_files w1 ∧
    w_dirs w2 = w_dirs Ex.shared_prefix ∧ w_heap w2 = w_heap Ex.shared_prefix.
Proof.
  apply (clean_files_twice "out/s" "12" "front" Ex.shared_prefix).
  reflexivity.
Defined.

(** X9. The three places that build the path of a tile agree: the path
    [cubemap_splitter] writes the tile of a face to is the path
    [download_clip_img] tests when it looks for the tiles, and it is among
    the paths [clean_files] spares exactly when the face is among the
    requested names. *)
Theorem tile_paths_agree out seq id cube_sides f :
  chunk_img_path out seq id f = tile_path (out +:+ "/" +:+ seq) id f ∧
  (f ∈ split_sides cube_sides ↔
   chunk_img_path out seq id f
   ∈ images_generate (out +:+ "/" +:+ seq) id cube_sides).
Proof.
  assert (∀ g, chunk_img_path out seq id g
               = ((out +:+ "/" +:+ seq) +:+ "/" +:+ id) +:+ "_" +:+ g +:+ ".jpg") as Hp.
  { intros g. unfold chunk_img_path. by rewrite !sapp_assoc. }
  split.
  - unfold chunk_img_path, tile_path. by rewrite !sapp_assoc.
  - unfold images_generate. rewrite list_elem_of_fmap. split.
    + intros Hf. exists f. by rewrite Hp.
    + intros (g & Heq & Hg). rewrite Hp in Heq.
      apply sapp_inv_head, sapp_inv_head, sapp_inv_tail in Heq. by subst.
Qed.

(* ===================================================================== *)
(** ** Which files a computation can touch *)
(* ===================================================================== *)

Lemma writes_within_ret {A} S (a : A) : writes_within S (ret a).
Proof. by intros w r w' [= <- <-]. Qed.

Lemma writes_within_raise {A} S e : writes_within S (@raise A e).
Proof. by intros w r w' [= <- <-]. Qed.

Lemma writes_within_emit S ev : writes_within S (emit ev).
Proof. by intros w r w' [= <- <-]. Qed.

Lemma writes_within_bind {A B} S (m : M A) (k : A → M B) :
  writes_within S m → (∀ a, writes_within S (k a)) → writes_within S (bind m k).
Proof.
  intros Hm Hk w r w'. unfold bind.
  destruct (m w) as [[a|e] w1] eqn:E; apply Hm in E as [Hd Hf].
  - intros [Hd' Hf']%Hk. split; [congruence|].
    intros p Hp. by rewrite Hf', Hf.
  - by intros [= <- <-].
Qed.

Lemma writes_within_try {A} S (m : M A) h :
  writes_within S m → (∀ e, writes_within S (h e)) → writes_within S (try_except m h).
Proof.
  intros Hm Hh w r w'. unfold try_except.
  destruct (m w) as [[a|e] w1] eqn:E; apply Hm in E as [Hd Hf].
  - by intros [= <- <-].
  - intros [Hd' Hf']%Hh. split; [congruence|].
    intros p Hp. by rewrite Hf', Hf.
Qed.

Lemma writes_within_state {A} (S : string → Prop) (m : M A) :
  (∀ w, w_dirs (m w).2 = w_dirs w
        ∧ ∀ p, ¬ S p → w_files (m w).2 !! p = w_files w !! p) →
  writes_within S m.
Proof. intros H w r w' E. specialize (H w). by rewrite E in H. Qed.

Lemma writes_within_open_wb (S : string → Prop) p :
  S p → writes_within S (Fs.open_wb p).
Proof.
  intros Hp. apply writes_within_state. intros w. unfold Fs.open_wb.
  destruct (Fs.is_dir _ _); [done|]. destruct (Fs.parent_ok _ _); [|done].
  split; [done|]. intros q Hq. simpl. apply lookup_insert_ne. by intros ->.
Qed.

Lemma writes_within_write (S : string → Prop) p c :
  S p → writes_within S (Fs.write p c).
Proof.
  intros Hp. apply writes_within_state. intros w. split; [done|].
  intros q Hq. simpl. apply lookup_insert_ne. by intros ->.
Qed.

Lemma starts_with_app chunk rest : starts_with chunk (chunk +:+ rest).
Proof. unfold starts_with. by rewrite strip_prefix_app. Qed.

Lemma starts_with_tile out seq id f :
  starts_with ((out +:+ "/" +:+ seq) +:+ "/" +:+ id) (chunk_img_path out seq id f).
Proof.
  assert (chunk_img_path out seq id f
          = ((out +:+ "/" +:+ seq) +:+ "/" +:+ id) +:+ "_" +:+ f +:+ ".jpg") as ->.
  { unfold chunk_img_path. by rewrite !sapp_assoc. }
  apply starts_with_app.
Qed.

Lemma starts_with_file folder id suffix :
  starts_with (folder +:+ "/" +:+ id) (folder +:+ "/" +:+ id +:+ suffix).
Proof.
  assert (folder +:+ "/" +:+ id +:+ suffix = (folder +:+ "/" +:+ id) +:+ suffix) as ->.
  { by rewrite !sapp_assoc. }
  apply starts_with_app.
Qed.

Lemma not_starts_with_shorter p c s : ¬ starts_with (p +:+ String c s) p.
Proof.
  unfold starts_with. induction p as [|a p IH]; simpl.
  - by intros [? ?].
  - by rewrite Ascii.eqb_refl.
Qed.

Lemma writes_within_cubemap_splitter cubemap size seq id out sides :
  writes_within (starts_with ((out +:+ "/" +:+ seq) +:+ "/" +:+ id))
                (cubemap_splitter cubemap size seq id out sides).
Proof.
  intros w r w'.
  destruct (w_files w !! cubemap) as [[b|img]|] eqn:E.
  - rewrite cubemap_splitter_unreadable by (by rewrite E). by intros [= <- <-].
  - rewrite (cubemap_splitter_readable _ _ _ _ _ _ _ img) by done.
    intros [= <- <-]. split; [done|]. intros p Hp. simpl.
    apply face_writes_other. intros c _ _ <-. apply Hp, starts_with_tile.
  - rewrite cubemap_splitter_unreadable by (by rewrite E). by intros [= <- <-].
Qed.

Lemma writes_within_clean_files folder id sides :
  writes_within (starts_with (folder +:+ "/" +:+ id)) (clean_files folder id sides).
Proof.
  intros w r w' Hrun.
  destruct (Fs.glob_supported (folder +:+ "/" +:+ id)) eqn:Hsup.
  - destruct (clean_files_spec folder id sides w Hsup)
      as (msgs & w1 & Hrun1 & Hd & _ & _ & _ & Hf & _).
    rewrite Hrun1 in Hrun. injection Hrun as <- <-. split; [done|].
    intros p Hp. rewrite Hf, decide_False; [done|].
    intros [Hm _]. apply Hp. unfold Fs.glob_match in Hm. unfold starts_with.
    by destruct (PyStr.strip_prefix _ p).
  - rewrite clean_files_unsupported in Hrun by done. by injection Hrun as <- <-.
Qed.

Lemma writes_within_fetch_source E (S : string → Prop) url header equirect :
  S equirect → writes_within S (fetch_source E url header equirect).
Proof.
  intros HS. unfold fetch_source, request_image_url, request_content.
  apply writes_within_bind.
  { apply writes_within_bind; [apply writes_within_emit|]. intros _.
    destruct (graph_api _ _ _);
      first [apply writes_within_raise|apply writes_within_ret]. }
  intros u. apply writes_within_bind; [by apply writes_within_open_wb|]. intros _.
  apply writes_within_bind; [|intros ?; by apply writes_within_write].
  apply writes_within_bind; [apply writes_within_emit|]. intros _.
  destruct (fetch _ _); first [apply writes_within_raise|apply writes_within_ret].
Qed.

Lemma writes_within_convert360 E (S : string → Prop) src dst size :
  S dst → writes_within S (os_system_convert360 E src dst size).
Proof.
  intros HS. unfold os_system_convert360.
  apply writes_within_bind; [apply writes_within_emit|]. intros _.
  apply writes_within_state. intros w. unfold run_convert360.
  destruct (w_files w !! src) as [c|]; [|done].
  destruct (convert360 E c size); [|done].
  destruct (Fs.is_dir _ _); [done|]. split; [done|].
  intros q Hq. simpl. apply lookup_insert_ne. by intros ->.
Qed.

Lemma writes_within_fetch_and_split E out seq id size sides :
  writes_within (starts_with ((out +:+ "/" +:+ seq) +:+ "/" +:+ id))
    (fetch_and_split E (api_url id) (api_header E)
       ((out +:+ "/" +:+ seq) +:+ "/" +:+ id +:+ ".jpg")
       ((out +:+ "/" +:+ seq) +:+ "/" +:+ id +:+ "_cubemap.jpg")
       size seq id out (out +:+ "/" +:+ seq) sides).
Proof.
  unfold fetch_and_split.
  apply writes_within_bind;
    [apply writes_within_fetch_source, starts_with_file|intros _].
  apply writes_within_bind;
    [apply writes_within_convert360, starts_with_file|intros _].
  apply writes_within_bind; [apply writes_within_cubemap_splitter|intros sts].
  apply writes_within_bind; [apply writes_within_clean_files|intros _].
  apply writes_within_ret.
Qed.

Lemma writes_within_slow_path E feature out size sides seq id :
  writes_within (starts_with ((out +:+ "/" +:+ seq) +:+ "/" +:+ id))
                (slow_path E feature out size sides seq id).
Proof.
  intros w r w'. rewrite slow_path_run.
  destruct (fetch_and_split _ _ _ _ _ _ _ _ _ _ _ w) as [[sts|e] w2] eqn:Ef;
    apply writes_within_fetch_and_split in Ef as [Hd Hf].
  2:{ by intros [= <- <-]. }
  destruct (collect_returns feature sts [] w2) as (rs & oe & w3 & -> & Hf3 & Hd3 & _).
  destruct oe; intros [= <- <-]; simpl; rewrite Hd3, Hf3; done.
Qed.

Lemma fast_path_frame feature (tile : string → string) sides acc w r w' :
  for_each sides
    (λ i results, let* new_feature := derive feature (tile i) in
                  ret (results ++ [new_feature])) acc w = (r, w') →
  w_files w' = w_files w ∧ w_dirs w' = w_dirs w ∧ w_log w' = w_log w.
Proof.
  revert acc w. induction sides as [|i sides IH]; intros acc w.
  - by intros [= <- <-].
  - rewrite for_each_cons. unfold bind at 1. unfold bind at 1.
    destruct (derive feature (tile i) w) as [[o|e] w1] eqn:Ed;
      apply derive_frame in Ed as (Hf & Hd & Hl & _).
    + unfold ret at 1. intros (Hf2 & Hd2 & Hl2)%IH.
      split; [congruence|]. split; congruence.
    + by intros [= <- <-].
Qed.

Lemma ensure_folder_dirs p w r w' :
  ensure_folder p w = (r, w') →
  ∀ d, d ∈ w_dirs w' →
       d ∈ w_dirs w ∨ (path_there w p = false ∧ (d = p ∨ d ∈ PyStr.ancestors p)).
Proof.
  unfold ensure_folder, bind, Fs.path_exists, path_there.
  destruct (Fs.is_file (w_files w) p || Fs.is_dir (w_dirs w) p) eqn:Ex.
  - intros [= <- <-]. auto.
  - unfold Fs.makedirs. rewrite Ex. destruct (existsb _ _).
    + intros [= <- <-]. auto.
    + intros [= <- <-] d. simpl. rewrite !elem_of_union, elem_of_singleton,
        elem_of_list_to_set. tauto.
Qed.

(* ===================================================================== *)
(** ** The first step of the orchestrator *)
(* ===================================================================== *)

(** X10. When the test and the creation of the sequence directory (lines
    87-88) return, the directory path exists, no file was touched, the
    only new directories are the path and the paths above it, and these
    only when the path did not exist; doing it again changes nothing. *)
Theorem ensure_folder_settles p w w' :
  ensure_folder p w = (Ok tt, w') →
  path_there w' p = true ∧
  ensure_folder p w' = (Ok tt, w') ∧
  w_files w' = w_files w ∧
  ∀ d, d ∈ w_dirs w' ↔
       d ∈ w_dirs w ∨ (path_there w p = false ∧ (d = p ∨ d ∈ PyStr.ancestors p)).
Proof.
  intros Hrun.
  pose proof (ensure_folder_dirs _ _ _ _ Hrun) as Hnew.
  pose proof (ensure_folder_inv _ _ _ _ Hrun) as (Hf & _ & _ & Hsame & Hthere & Hold).
  assert (path_there w' p = true) as Hp.
  { destruct (Hthere eq_refl) as [Hd|Hp].
    - unfold path_there. rewrite Hd. apply orb_true_r.
    - by destruct (Hsame Hp) as [_ ->]. }
  split; [done|]. split; [|split; [done|]].
  - destruct (ensure_folder p w') as [r2 w2] eqn:E2.
    apply ensure_folder_inv in E2 as (_ & _ & _ & Hsame2 & _).
    by destruct (Hsame2 Hp) as [-> ->].
  - intros d. split; [apply Hnew|]. intros [Hd|[Hno Hd]]; [by apply Hold|].
    revert Hrun. unfold ensure_folder, bind, Fs.path_exists.
    unfold path_there in Hno. rewrite Hno. unfold Fs.makedirs. rewrite Hno.
    destruct (existsb _ _); [done|]. intros [= <-]. simpl.
    rewrite !elem_of_union, elem_of_singleton, elem_of_list_to_set. tauto.
Qed.

Lemma ensure_folder_settles_witness :
  let w' := (ensure_folder "out/s" Ex.fresh).2 in
  path_there w' "out/s" = true ∧
  ensure_folder "out/s" w' = (Ok tt, w') ∧
  w_files w' = w_files Ex.fresh ∧
  ∀ d, d ∈ w_dirs w' ↔
       d ∈ w_dirs Ex.fresh
       ∨ (path_there Ex.fresh "out/s" = false
          ∧ (d = "out/s" ∨ d ∈ PyStr.ancestors "out/s")).
Proof.
  intros w'. apply (ensure_folder_settles "out/s" Ex.fresh w'). reflexivity.
Defined.

(** X11. A feature whose properties have no [sequence_id] makes
    [download_clip_img] raise [KeyError]: the exception leaves the
    function, and nothing was done yet. *)
Theorem missing_sequence_id_raises E feature out size sides w lp ps :
  props_loc (w_heap w) feature = Some lp →
  w_heap w !! lp = Some (ODict ps) →
  dict_get "sequence_id" ps = None →
  download_clip_img E feature out size sides w = (Raise (KeyError "sequence_id"), w).
Proof.
  unfold props_loc. intros Hp Hlp Hs.
  destruct feature as [|b|z|bits|s|f]; try done.
  destruct (w_heap w !! f) as [[kvs|xs]|] eqn:Hf; try done.
  destruct (dict_get "properties" kvs) as [[|b|z|bits|s|lp']|] eqn:Hprops; try done.
  injection Hp as ->.
  unfold download_clip_img.
  unfold bind at 1, getitem at 1. rewrite Hf, Hprops.
  unfold bind at 1, getitem at 1. by rewrite Hlp, Hs.
Qed.

Lemma missing_sequence_id_raises_witness :
  download_clip_img Ex.online (VRef 0) "out" 1 "front"
    (Scene.fresh_with Scene.no_sequence_heap)
  = (Raise (KeyError "sequence_id"), Scene.fresh_with Scene.no_sequence_heap).
Proof.
  apply (missing_sequence_id_raises Ex.online (VRef 0) "out" 1 "front"
           (Scene.fresh_with Scene.no_sequence_heap) 1%nat [("id", VInt 7)]);
    reflexivity.
Defined.

(** X12. A feature whose properties have a [sequence_id] and no [id]
    makes [download_clip_img] raise [KeyError] after the sequence
    directory was made: the exception leaves the function, and the new
    directory stays. *)
Theorem missing_id_leaves_folder E feature out size sides w lp ps s seq :
  props_loc (w_heap w) feature = Some lp →
  w_heap w !! lp = Some (ODict ps) →
  dict_get "sequence_id" ps = Some s → py_str s = Some seq →
  dict_get "id" ps = None →
  path_there w (out +:+ "/" +:+ seq) = false →
  existsb (Fs.is_file (w_files w)) (PyStr.ancestors (out +:+ "/" +:+ seq)) = false →
  ∃ w',
    download_clip_img E feature out size sides w = (Raise (KeyError "id"), w') ∧
    Fs.is_dir (w_dirs w) (out +:+ "/" +:+ seq) = false ∧
    Fs.is_dir (w_dirs w') (out +:+ "/" +:+ seq) = true ∧
    w_files w' = w_files w ∧ w_heap w' = w_heap w ∧ w_log w' = w_log w.
Proof.
  unfold props_loc. intros Hp Hlp Hs Hseq Hi Hno Hanc.
  destruct feature as [|b|z|bits|s0|f]; try done.
  destruct (w_heap w !! f) as [[kvs|xs]|] eqn:Hf; try done.
  destruct (dict_get "properties" kvs) as [[|b|z|bits|s0|lp']|] eqn:Hprops; try done.
  injection Hp as ->.
  unfold download_clip_img.
  unfold bind at 1, getitem at 1. rewrite Hf, Hprops.
  unfold bind at 1, getitem at 1. rewrite Hlp, Hs.
  unfold bind at 1, fmt at 1. rewrite Hseq. unfold ret at 1.
  unfold bind at 1.
  assert (ensure_folder (out +:+ "/" +:+ seq) w
          = (Ok tt, set_dirs (w_dirs w ∪ {[out +:+ "/" +:+ seq]}
                              ∪ list_to_set (PyStr.ancestors (out +:+ "/" +:+ seq))) w))
    as ->.
  { unfold ensure_folder, bind, Fs.path_exists. unfold path_there in Hno.
    rewrite Hno. unfold Fs.makedirs. by rewrite Hno, Hanc. }
  unfold bind at 1, getitem at 1. simpl w_heap. rewrite Hf, Hprops.
  unfold bind at 1, getitem at 1. simpl w_heap. rewrite Hlp, Hi.
  eexists. split; [reflexivity|]. simpl.
  unfold path_there in Hno. apply orb_false_iff in Hno as [_ Hnd].
  split; [done|]. split; [|done].
  unfold Fs.is_dir. apply bool_decide_eq_true. set_solver.
Qed.

Lemma missing_id_leaves_folder_witness :
  ∃ w',
    download_clip_img Ex.online (VRef 0) "out" 1 "front"
      (Scene.fresh_with Scene.no_id_heap) = (Raise (KeyError "id"), w') ∧
    Fs.is_dir (w_dirs (Scene.fresh_with Scene.no_id_heap)) ("out" +:+ "/" +:+ "s")
    = false ∧
    Fs.is_dir (w_dirs w') ("out" +:+ "/" +:+ "s") = true ∧
    w_files w' = w_files (Scene.fresh_with Scene.no_id_heap) ∧
    w_heap w' = w_heap (Scene.fresh_with Scene.no_id_heap) ∧
    w_log w' = w_log (Scene.fresh_with Scene.no_id_heap).
Proof.
  apply (missing_id_leaves_folder Ex.online (VRef 0) "out" 1 "front"
           (Scene.fresh_with Scene.no_id_heap) 1%nat
           [("sequence_id", VStr "s")] (VStr "s") "s");
    reflexivity.
Defined.

(* ===================================================================== *)
(** ** The footprint of the orchestrator *)
(* ===================================================================== *)



(* ===================================================================== *)
(** ** When the host or the projector fails *)
(* ===================================================================== *)

(** X14. On the slow path, when the metadata request gives no address of
    the image (the host is not reached, the answer is no JSON, or it has
    no [thumb_original_url]), [download_clip_img] returns no record; it
    made that one request and printed the exception, and no file was
    created or changed. *)
Theorem metadata_failure E feature out size sides w seq id w1 :
  feature_ids (w_heap w) feature = Some (seq, id) →
  ensure_folder (out +:+ "/" +:+ seq) w = (Ok tt, w1) →
  forallb (λ i, path_there w1 (tile_path (out +:+ "/" +:+ seq) id i))
          (split_sides sides) = false →
  (∀ u, graph_api E (api_url id) (api_header E) ≠ ApiUrl u) →
  download_clip_img E feature out size sides w
  = (Ok [],
     {| w_files := w_files w; w_dirs := w_dirs w1; w_heap := w_heap w;
        w_log := w_log w ++
          [EvRequest (api_url id) (api_header E);
           EvPrint EmptyString match graph_api E (api_url id) (api_header E) with
                      | ApiUnreachable => ConnectionError (api_url id)
                      | ApiNotJson => JSONDecodeError
                      | _ => KeyError "thumb_original_url"
                      end EmptyString] |}).
Proof.
  intros Hids Hen Hslow Hapi.
  rewrite (download_run _ _ _ _ _ _ _ _ Hids), Hen, Hslow, slow_path_run.
  apply ensure_folder_inv in Hen as (Hf & Hh & Hl & _).
  unfold fetch_and_split. unfold bind at 1. unfold fetch_source.
  unfold bind at 1. unfold request_image_url. unfold bind at 1. unfold emit at 1.
  destruct (graph_api E (api_url id) (api_header E)) as [| | |u] eqn:Ea;
    [..|by destruct (Hapi u)];
    unfold raise; simpl; rewrite Hf, Hh, Hl, <- app_assoc; reflexivity.
Qed.

Lemma metadata_failure_witness :
  let w1 := (ensure_folder "out/s" Ex.fresh).2 in
  download_clip_img Ex.offline Ex.feature "out" 1 "front,back" Ex.fresh
  = (Ok [],
     {| w_files := w_files Ex.fresh; w_dirs := w_dirs w1; w_heap := w_heap Ex.fresh;
        w_log := w_log Ex.fresh ++
          [EvRequest (api_url "7") (api_header Ex.offline);
           EvPrint EmptyString
             match graph_api Ex.offline (api_url "7") (api_header Ex.offline) with
             | ApiUnreachable => ConnectionError (api_url "7")
             | ApiNotJson => JSONDecodeError
             | _ => KeyError "thumb_original_url"
             end EmptyString] |}).
Proof.
  intros w1.
  apply (metadata_failure Ex.offline Ex.feature "out" 1 "front,back" Ex.fresh
           "s" "7" w1).
  - reflexivity.
  - reflexivity.
  - reflexivity.
  - intros u. discriminate.
Defined.

(** X15. On the slow path, when the address of the image was obtained and
    fetching the image fails, [download_clip_img] returns no record and
    leaves the source file behind, empty: the file was opened for writing
    before the request, and neither the projector nor the cleaner runs. *)
Theorem image_fetch_failure E feature out size sides w seq id w1 u :
  let equirect := (out +:+ "/" +:+ seq) +:+ "/" +:+ id +:+ ".jpg" in
  feature_ids (w_heap w) feature = Some (seq, id) →
  ensure_folder (out +:+ "/" +:+ seq) w = (Ok tt, w1) →
  forallb (λ i, path_there w1 (tile_path (out +:+ "/" +:+ seq) id i))
          (split_sides sides) = false →
  graph_api E (api_url id) (api_header E) = ApiUrl u →
  fetch E u = None →
  Fs.is_dir (w_dirs w1) equirect = false →
  Fs.parent_ok (w_dirs w1) equirect = true →
  download_clip_img E feature out size sides w
  = (Ok [],
     {| w_files := <[equirect := Raw EmptyString]> (w_files w);
        w_dirs := w_dirs w1; w_heap := w_heap w;
        w_log := w_log w ++
          [EvRequest (api_url id) (api_header E); EvRequest u [];
           EvPrint EmptyString (ConnectionError u) EmptyString] |}).
Proof.
  intros equirect Hids Hen Hslow Hapi Hfetch Hdir Hparent.
  rewrite (download_run _ _ _ _ _ _ _ _ Hids), Hen, Hslow, slow_path_run.
  apply ensure_folder_inv in Hen as (Hf & Hh & Hl & _).
  fold equirect.
  unfold fetch_and_split. unfold bind at 1. unfold fetch_source.
  unfold bind at 1. unfold request_image_url. unfold bind at 1. unfold emit at 1.
  rewrite Hapi. unfold ret at 1.
  unfold bind at 1. unfold Fs.open_wb. simpl w_dirs. rewrite Hdir, Hparent.
  unfold bind at 1. unfold request_content. unfold bind at 1. unfold emit at 1.
  rewrite Hfetch. unfold raise. simpl.
  rewrite Hf, Hh, Hl, <- !app_assoc. reflexivity.
Qed.

Lemma image_fetch_failure_witness :
  let w1 := (ensure_folder "out/s" Ex.fresh).2 in
  let equirect := ("out" +:+ "/" +:+ "s") +:+ "/" +:+ "7" +:+ ".jpg" in
  download_clip_img Scene.no_image Ex.feature "out" 1 "front,back" Ex.fresh
  = (Ok [],
     {| w_files := <[equirect := Raw EmptyString]> (w_files Ex.fresh);
        w_dirs := w_dirs w1; w_heap := w_heap Ex.fresh;
        w_log := w_log Ex.fresh ++
          [EvRequest (api_url "7") (api_header Scene.no_image);
           EvRequest "https://cdn/7" [];
           EvPrint EmptyString (ConnectionError "https://cdn/7") EmptyString] |}).
Proof.
  intros w1 equirect.
  apply (image_fetch_failure Scene.no_image Ex.feature "out" 1 "front,back"
           Ex.fresh "s" "7" w1 "https://cdn/7"); reflexivity.
Defined.

Lemma os_system_convert360_nothing E src dst size w :
  (∀ c, w_files w !! src = Some c → convert360 E c size = None) →
  os_system_convert360 E src dst size w
  = (Ok tt,
     {| w_files := w_files w; w_dirs := w_dirs w; w_heap := w_heap w;
        w_log := w_log w ++
          [EvSystem ("convert360 --convert e2c --i " +:+ src +:+ "  --o " +:+ dst
                       +:+ " --w " +:+ pretty size)] |}).
Proof.
  intros H. unfold os_system_convert360, bind, emit, run_convert360. simpl.
  destruct (w_files w !! src) as [c|]; [|done]. by rewrite (H c eq_refl).
Qed.

Lemma collect_nothing feature n acc w :
  collect feature (replicate n SFalse) acc w = (Ok (acc, None), w).
Proof. induction n as [|n IH]; [done|]. simpl. exact IH. Qed.

(** X16. When the path [{out}/{seq}/{id}] has no wildcard character and
    its directory part does not end in a slash, and the image id is a name
    that is not empty and has no slash: on the slow path, when the image
    was fetched and the projector leaves no cubemap that can be read,
    [download_clip_img] returns no record and does not raise: after the
    run of the projector the extractor prints its [error:] line, and the
    cleaner still deletes the source image. *)
Theorem projector_gives_nothing E feature out size sides w seq id w1 w2 :
  let folder := out +:+ "/" +:+ seq in
  let equirect := folder +:+ "/" +:+ id +:+ ".jpg" in
  let cubemap := folder +:+ "/" +:+ id +:+ "_cubemap.jpg" in
  feature_ids (w_heap w) feature = Some (seq, id) →
  Fs.glob_supported (folder +:+ "/" +:+ id) = true →
  id ≠ EmptyString →
  PyStr.has_char "/" id = false →
  ensure_folder folder w = (Ok tt, w1) →
  forallb (λ i, path_there w1 (tile_path folder id i)) (split_sides sides) = false →
  fetch_source E (api_url id) (api_header E) equirect w1 = (Ok tt, w2) →
  (∀ c, w_files w2 !! equirect = Some c → convert360 E c size = None) →
  (∀ img, w_files w2 !! cubemap ≠ Some (Pic img)) →
  ∃ w' msgs,
    download_clip_img E feature out size sides w = (Ok [], w') ∧
    w_files w' !! equirect = None ∧
    w_log w'
    = w_log w2 ++
      EvSystem ("convert360 --convert e2c --i " +:+ equirect +:+ "  --o " +:+ cubemap
                  +:+ " --w " +:+ pretty size)
      :: EvPrint "error: " AttributeError
           (" in " +:+ out +:+ "/" +:+ seq +:+ "/" +:+ id +:+ ".jpg")
      :: msgs ∧
    Forall (λ ev, ∃ e, ev = EvPrint "An error occurred: " e EmptyString) msgs.
Proof.
  intros folder equirect cubemap Hids Hsup Hid Hslash Hen Hslow Hfetch Hconv Hcm.
  rewrite (download_run _ _ _ _ _ _ _ _ Hids). fold folder. rewrite Hen, Hslow.
  rewrite slow_path_run. fold folder equirect cubemap.
  unfold fetch_and_split. unfold bind at 1. rewrite Hfetch.
  unfold bind at 1. rewrite (os_system_convert360_nothing _ _ _ _ _ Hconv).
  unfold bind at 1. rewrite cubemap_splitter_unreadable by exact Hcm.
  unfold bind at 1.
  match goal with
  | |- context [clean_files folder id sides ?w3] =>
      destruct (clean_files_spec folder id sides w3 Hsup)
        as (msgs & w4 & Hclean & _ & _ & Hlog & Hall & Hf4 & _)
  end.
  rewrite Hclean. unfold ret at 1.
  rewrite collect_nothing.
  exists w4, msgs. split; [done|]. split; [|split; [|done]].
  - rewrite Hf4, decide_True; [done|]. split; [|apply source_not_generated].
    apply glob_match_jpg; [done..|].
    exists EmptyString. split; [|done]. unfold equirect. by rewrite !sapp_assoc.
  - rewrite Hlog. simpl. by rewrite <- !app_assoc.
Qed.

Lemma projector_gives_nothing_witness :
  let w1 := (ensure_folder "out/s" Ex.fresh).2 in
  let w2 := (fetch_source Scene.no_cubemap (api_url "7") (api_header Scene.no_cubemap)
               "out/s/7.jpg" w1).2 in
  ∃ w' msgs,
    download_clip_img Scene.no_cubemap Ex.feature "out" 1 "front,back" Ex.fresh
    = (Ok [], w') ∧
    w_files w' !! "out/s/7.jpg" = None ∧
    w_log w'
    = w_log w2 ++
      EvSystem ("convert360 --convert e2c --i " +:+ "out/s/7.jpg" +:+ "  --o "
                  +:+ "out/s/7_cubemap.jpg" +:+ " --w " +:+ pretty 1)
      :: EvPrint "error: " AttributeError
           (" in " +:+ "out" +:+ "/" +:+ "s" +:+ "/" +:+ "7" +:+ ".jpg")
      :: msgs ∧
    Forall (λ ev, ∃ e, ev = EvPrint "An error occurred: " e EmptyString) msgs.
Proof.
  intros w1 w2.
  apply (projector_gives_nothing Scene.no_cubemap Ex.feature "out" 1 "front,back"
           Ex.fresh "s" "7" w1 w2).
  - reflexivity.
  - reflexivity.
  - discriminate.
  - reflexivity.
  - reflexivity.
  - reflexivity.
  - reflexivity.
  - intros c _. reflexivity.
  - intros img. vm_compute. discriminate.
Defined.

(* ===================================================================== *)
(** ** The records of the slow path *)
(* ===================================================================== *)

Lemma chunk_img_path_nonempty out seq id f : chunk_img_path out seq id f ≠ EmptyString.
Proof. unfold chunk_img_path. by destruct out. Qed.

Lemma status_paths_cons i sts :
  status_paths (i :: sts)
  = match i with
    | SPath EmptyString | SFalse => status_paths sts
    | SPath p => p :: status_paths sts
    end.
Proof. by destruct i as [[|c p]|]. Qed.

Lemma status_paths_faces dirs img r size out seq id cs :
  status_paths (face_status dirs img r size out seq id <$> cs)
  = face_path out seq id
      <$> filter (λ c, face_fails dirs img r size out seq id c = None) cs.
Proof.
  induction cs as [|c cs IH]; [done|].
  rewrite fmap_cons, filter_cons, status_paths_cons, IH. unfold face_status at 1.
  destruct (face_fails dirs img r size out seq id c) as [e|] eqn:E.
  - by rewrite decide_False.
  - rewrite decide_True by done. rewrite fmap_cons.
    pose proof (chunk_img_path_nonempty out seq id c.2) as Hne.
    unfold face_path at 1 2. by destruct (chunk_img_path out seq id c.2).
Qed.

Lemma status_paths_replicate n : status_paths (replicate n SFalse) = [].
Proof.
  induction n as [|n IH]; [done|].
  change (replicate (S n) SFalse) with (SFalse :: replicate n SFalse).
  by rewrite status_paths_cons.
Qed.

Lemma status_paths_length sts : (length (status_paths sts) ≤ length sts)%nat.
Proof.
  induction sts as [|i sts IH]; [done|]. rewrite status_paths_cons.
  destruct i as [[|c p]|]; simpl; lia.
Qed.

Lemma Forall2_witnesses {A B} (P : A → B → Prop) l k :
  Forall2 P l k → Forall (λ y, ∃ x, x ∈ l ∧ P x y) k.
Proof.
  induction 1 as [|x y l k Hxy _ IH]; constructor.
  - exists x. split; [by left|done].
  - eapply Forall_impl; [exact IH|]. intros b (a & Ha & Hab).
    exists a. split; [by right|done].
Qed.

Section Collect.

Local Open Scope nat_scope.

Context (h0 : list pyobj) (feature : pyval).
Context (Hclosed0 : heap_closed h0) (Hfeature : val_closed h0 feature).

Lemma collect_total ids sts acc w :
  feature_ids h0 feature = Some ids →
  (∃ e, w_heap w = h0 ++ e) → heap_closed (w_heap w) →
  ∃ new w',
    collect feature sts acc w = (Ok (acc ++ new, None), w') ∧
    w_files w' = w_files w ∧ w_dirs w' = w_dirs w ∧ w_log w' = w_log w ∧
    (∃ e', w_heap w' = w_heap w ++ e') ∧ heap_closed (w_heap w') ∧
    Forall2 (λ p o, derived_from h0 (w_heap w') feature o p) (status_paths sts) new.
Proof.
  intros Hids. revert acc w. induction sts as [|i sts IH]; intros acc w Hpre Hc.
  - exists [], w. simpl. rewrite app_nil_r.
    do 4 (split; [done|]). split; [exists []; by rewrite app_nil_r|].
    split; [done|constructor].
  - assert (truthy i = false ∧ status_paths (i :: sts) = status_paths sts
            ∨ ∃ p, truthy i = true ∧ i = SPath p
                   ∧ status_paths (i :: sts) = p :: status_paths sts) as [[Ht Hs]|(p & Ht & -> & Hs)].
    { rewrite status_paths_cons. destruct i as [[|c p]|]; simpl; eauto. }
    + cbn [collect]. rewrite Ht, Hs. by apply IH.
    + cbn [collect]. rewrite Ht, Hs. destruct ids as [seq id].
      destruct Hpre as [e0 He0].
      destruct (derive_total feature p w seq id Hc) as (o & w1 & Ed).
      { rewrite He0. by apply feature_ids_ext. }
      rewrite Ed.
      destruct (derive_frame _ _ _ _ _ Ed) as (Hf1 & Hd1 & Hl1 & [e1 He1] & Hc1).
      assert (derived_from h0 (w_heap w1) feature o p) as Hder.
      { eapply derive_derived; [exact Ed|done|by exists e0|done]. }
      destruct (IH (acc ++ [o]) w1)
        as (new & w' & Hrun & Hf2 & Hd2 & Hl2 & [e2 He2] & Hc2 & Hnew).
      { exists (e0 ++ e1). by rewrite He1, He0, app_assoc. }
      { auto. }
      exists (o :: new), w'. rewrite Hrun, <- app_assoc. split; [done|].
      split; [congruence|]. split; [congruence|]. split; [congruence|]. split.
      { exists (e1 ++ e2). by rewrite He2, He1, app_assoc. }
      split; [done|].
      constructor; [|done]. eapply derived_from_later; [done|]. by exists e2.
Qed.

End Collect.

Section SlowRun.

Context (E : env) (out seq id : string) (size : Z) (sides : string).

Lemma fetch_and_split_tiles w sts w' :
  let folder := out +:+ "/" +:+ seq in
  let equirect := folder +:+ "/" +:+ id +:+ ".jpg" in
  let cubemap := folder +:+ "/" +:+ id +:+ "_cubemap.jpg" in
  fetch_and_split E (api_url id) (api_header E) equirect cubemap size seq id out
    folder sides w = (Ok sts, w') →
  (length sts ≤ length (split_sides sides))%nat ∧
  ∀ p, p ∈ status_paths sts → Fs.is_file (w_files w') p = true.
Proof.
  intros folder equirect cubemap.
  unfold fetch_and_split. unfold bind at 1.
  destruct (fetch_source _ _ _ _ w) as [[[]|e] w2]; [|done].
  destruct (os_system_convert360_spec E equirect cubemap size w2)
    as (w2' & Hos & _).
  unfold bind at 1. rewrite Hos. unfold bind at 1.
  assert ((∃ img, w_files w2' !! cubemap = Some (Pic img))
          ∨ ∀ img, w_files w2' !! cubemap ≠ Some (Pic img)) as [[img Himg]|Hno].
  { destruct (w_files w2' !! cubemap) as [[b|img]|]; eauto; right; done. }
  - rewrite (cubemap_splitter_readable _ _ _ _ _ _ _ img) by done.
    cbv zeta. unfold bind at 1.
    destruct (Fs.glob_supported (folder +:+ "/" +:+ id)) eqn:Hsup.
    2:{ by rewrite clean_files_unsupported. }
    match goal with
    | |- context [clean_files folder id sides ?w3] =>
        destruct (clean_files_spec folder id sides w3 Hsup)
          as (msgs & w4 & Hclean & _ & _ & _ & _ & Hf4 & _)
    end.
    rewrite Hclean. intros [= <- <-].
    split; [rewrite length_fmap; apply requested_cells_le|].
    intros p. rewrite status_paths_faces.
    intros (c & -> & [Hok Hc]%list_elem_of_filter)%list_elem_of_fmap.
    unfold Fs.is_file. apply bool_decide_eq_true.
    rewrite Hf4, decide_False.
    2:{ intros [_ Hng]. apply Hng. by apply tile_generated. }
    simpl. rewrite face_writes_hit; [eauto|apply requested_paths_nodup|done|done].
  - rewrite cubemap_splitter_unreadable by done. unfold bind at 1.
    destruct (clean_files _ _ _ _) as [[[]|e] w4]; [|done].
    intros [= <- <-]. rewrite length_replicate, status_paths_replicate.
    split; [done|]. by intros p Hp%elem_of_nil.
Qed.

Lemma fetch_and_split_ok w1 w2 src img :
  let folder := out +:+ "/" +:+ seq in
  let equirect := folder +:+ "/" +:+ id +:+ ".jpg" in
  let cubemap := folder +:+ "/" +:+ id +:+ "_cubemap.jpg" in
  let r := img_width img - img_height img in
  Fs.glob_supported (folder +:+ "/" +:+ id) = true →
  fetch_source E (api_url id) (api_header E) equirect w1 = (Ok tt, w2) →
  w_files w2 !! equirect = Some src →
  convert360 E src size = Some img →
  Fs.is_dir (w_dirs w2) cubemap = false →
  ∃ w4,
    fetch_and_split E (api_url id) (api_header E) equirect cubemap size seq id out
      folder sides w1
    = (Ok (face_status (w_dirs w2) img r size out seq id
             <$> requested_cells (split_sides sides)), w4) ∧
    ∀ c, c ∈ requested_cells (split_sides sides) →
         face_fails (w_dirs w2) img r size out seq id c = None →
         w_files w4 !! face_path out seq id c = Some (Pic (face_tile img r size c)).
Proof.
  intros folder equirect cubemap r Hsup Hfetch Hsrc Hconv Hdir.
  unfold fetch_and_split. unfold bind at 1. rewrite Hfetch.
  destruct (os_system_convert360_spec E equirect cubemap size w2)
    as (w2' & Hos & Hd2 & Hcm).
  unfold bind at 1. rewrite Hos. unfold bind at 1.
  rewrite (cubemap_splitter_readable _ _ _ _ _ _ _ img) by eauto.
  cbv zeta. unfold bind at 1.
  match goal with
  | |- context [clean_files folder id sides ?w3] =>
      destruct (clean_files_spec folder id sides w3 Hsup)
        as (msgs & w4 & Hclean & _ & _ & _ & _ & Hf4 & _)
  end.
  rewrite Hclean. unfold ret. rewrite Hd2. exists w4. split; [done|].
  intros c Hc Hok. rewrite Hf4, decide_False.
  2:{ intros [_ Hng]. apply Hng. by apply tile_generated. }
  simpl. rewrite Hd2.
  by apply face_writes_hit; [apply requested_paths_nodup| |].
Qed.

Lemma slow_run feature w w1 w2 src img :
  let folder := out +:+ "/" +:+ seq in
  let equirect := folder +:+ "/" +:+ id +:+ ".jpg" in
  let cubemap := folder +:+ "/" +:+ id +:+ "_cubemap.jpg" in
  let r := img_width img - img_height img in
  heap_closed (w_heap w) →
  feature_ids (w_heap w) feature = Some (seq, id) →
  Fs.glob_supported (folder +:+ "/" +:+ id) = true →
  ensure_folder folder w = (Ok tt, w1) →
  forallb (λ i, path_there w1 (tile_path folder id i)) (split_sides sides) = false →
  fetch_source E (api_url id) (api_header E) equirect w1 = (Ok tt, w2) →
  w_files w2 !! equirect = Some src →
  convert360 E src size = Some img →
  Fs.is_dir (w_dirs w2) cubemap = false →
  ∃ results w',
    download_clip_img E feature out size sides w = (Ok results, w') ∧
    w_dirs w' = w_dirs w1 ∧
    (∃ ext, w_heap w' = w_heap w ++ ext) ∧ heap_closed (w_heap w') ∧
    (∀ p, ¬ starts_with (folder +:+ "/" +:+ id) p →
          w_files w' !! p = w_files w !! p) ∧
    (∀ c, c ∈ requested_cells (split_sides sides) →
          face_fails (w_dirs w2) img r size out seq id c = None →
          w_files w' !! face_path out seq id c = Some (Pic (face_tile img r size c))) ∧
    Forall2 (λ c o, derived_from (w_heap w) (w_heap w') feature o
                      (face_path out seq id c))
            (filter (λ c, face_fails (w_dirs w2) img r size out seq id c = None)
                    (requested_cells (split_sides sides)))
            results.
Proof.
  intros folder equirect cubemap r Hc Hids Hsup Hen Hslow Hfetch Hsrc Hconv Hdir.
  subst r cubemap equirect folder.
  rewrite (download_run _ _ _ _ _ _ _ _ Hids). rewrite Hen, Hslow.
  rewrite slow_path_run.
  destruct (fetch_and_split_ok w1 w2 src img Hsup Hfetch Hsrc Hconv Hdir)
    as (w4 & Hrun & Htiles).
  rewrite Hrun.
  pose proof (keeps_heap_fetch_and_split _ _ _ _ _ _ _ _ _ _ _ _ _ _ Hrun) as Hh4.
  pose proof (writes_within_fetch_and_split E out seq id size sides _ _ _ Hrun)
    as [Hd4 Hf4].
  apply ensure_folder_inv in Hen as (Hf1 & Hh1 & _).
  pose proof (feature_ids_closed _ _ _ Hids) as Hfeat.
  destruct (collect_total (w_heap w) feature Hc Hfeat (seq, id)
              (face_status (w_dirs w2) img (img_width img - img_height img) size
                 out seq id <$> requested_cells (split_sides sides)) [] w4 Hids)
    as (new & w5 & Hcol & Hf5 & Hd5 & _ & [e5 He5] & Hc5 & Hnew).
  { exists []. rewrite app_nil_r. congruence. }
  { by rewrite Hh4, Hh1. }
  rewrite Hcol. exists new, w5. split; [done|]. split; [congruence|].
  split; [exists e5; congruence|]. split; [done|].
  split; [intros p Hp; rewrite Hf5, Hf4, Hf1; done|].
  split; [intros c H1 H2; rewrite Hf5; by apply Htiles|].
  rewrite status_paths_faces in Hnew. by apply Forall2_fmap_l in Hnew.
Qed.

End SlowRun.

Lemma fast_run E feature out size sides w seq id :
  heap_closed (w_heap w) →
  feature_ids (w_heap w) feature = Some (seq, id) →
  path_there w (out +:+ "/" +:+ seq) = true →
  (∀ i, i ∈ split_sides sides →
        path_there w (tile_path (out +:+ "/" +:+ seq) id i) = true) →
  ∃ results w',
    download_clip_img E feature out size sides w = (Ok results, w') ∧
    w_log w' = w_log w ∧ w_files w' = w_files w ∧ w_dirs w' = w_dirs w ∧
    Forall2 (λ i o,
               derived_from (w_heap w) (w_heap w') feature o
                 (tile_path (out +:+ "/" +:+ seq) id i))
            (split_sides sides) results.
Proof.
  intros Hc Hids Hfolder Htiles.
  rewrite (download_run _ _ _ _ _ _ _ _ Hids).
  destruct (ensure_folder _ w) as [r1 w1] eqn:Een.
  apply ensure_folder_inv in Een as (_ & _ & _ & Hsame & _).
  destruct (Hsame Hfolder) as [-> ->].
  rewrite (proj2 (forallb_forall _ _)).
  2:{ intros i Hi. apply Htiles. by apply list_elem_of_In. }
  unfold fast_path.
  pose proof (feature_ids_closed _ _ _ Hids) as Hfeat.
  assert (∃ e, w_heap w = w_heap w ++ e) as Hpre.
  { exists []. by rewrite app_nil_r. }
  destruct (fast_loop_total (w_heap w) feature
              (tile_path (out +:+ "/" +:+ seq) id) (seq, id) (split_sides sides) [] w
              Hids Hpre Hc) as (rs & w' & Hrun).
  exists rs, w'. split; [exact Hrun|].
  destruct (fast_loop_inv (w_heap w) feature Hc Hfeat _ _ _ _ _ _ Hrun Hpre)
    as (Hf & Hd & Hl & _ & _ & Hrs).
  destruct (Hrs rs eq_refl) as (new & -> & Hnew). done.
Qed.

(** X17. In a store whose references all lead somewhere, and when the
    path [{out}/{seq}/{id}] has no wildcard character and its directory
    part does not end in a slash: on the slow path, when the image was
    fetched and the projector wrote a cubemap, [download_clip_img] returns
    one record for each requested face whose tile was written, in the
    order of the scan; the record is a copy of the feature made of new
    containers, its [properties.image_path] is the path of the tile, and
    the tile is in that file at the return. *)
Theorem slow_path_records E feature out size sides w seq id w1 w2 src img :
  let folder := out +:+ "/" +:+ seq in
  let equirect := folder +:+ "/" +:+ id +:+ ".jpg" in
  let cubemap := folder +:+ "/" +:+ id +:+ "_cubemap.jpg" in
  let r := img_width img - img_height img in
  heap_closed (w_heap w) →
  feature_ids (w_heap w) feature = Some (seq, id) →
  Fs.glob_supported (folder +:+ "/" +:+ id) = true →
  ensure_folder folder w = (Ok tt, w1) →
  forallb (λ i, path_there w1 (tile_path folder id i)) (split_sides sides) = false →
  fetch_source E (api_url id) (api_header E) equirect w1 = (Ok tt, w2) →
  w_files w2 !! equirect = Some src →
  convert360 E src size = Some img →
  Fs.is_dir (w_dirs w2) cubemap = false →
  ∃ results w',
    download_clip_img E feature out size sides w = (Ok results, w') ∧
    Forall2 (λ c o,
               derived_from (w_heap w) (w_heap w') feature o (face_path out seq id c) ∧
               image_path_of (w_heap w') o = Some (VStr (face_path out seq id c)) ∧
               w_files w' !! face_path out seq id c
               = Some (Pic (face_tile img r size c)))
            (filter (λ c, face_fails (w_dirs w2) img r size out seq id c = None)
                    (requested_cells (split_sides sides)))
            results.
Proof.
  intros folder equirect cubemap r Hc Hids Hsup Hen Hslow Hfetch Hsrc Hconv Hdir.
  subst r.
  destruct (slow_run E out seq id size sides feature w w1 w2 src img
              Hc Hids Hsup Hen Hslow Hfetch Hsrc Hconv Hdir)
    as (results & w' & Hrun & _ & _ & _ & _ & Htiles & Hrec).
  exists results, w'. split; [done|].
  apply Forall2_same_length_lookup. split; [by eapply Forall2_length|].
  intros i c o Hi Ho.
  pose proof (Forall2_lookup_lr _ _ _ _ _ _ Hrec Hi Ho) as Hder.
  apply list_elem_of_lookup_2, list_elem_of_filter in Hi as [Hok Hin].
  simpl in Hder. split; [done|].
  split; [eapply derived_image_path; [exact Hder|exact Hids]|]. by apply Htiles.
Qed.

Lemma slow_path_records_witness :
  let w1 := (ensure_folder "out/s" Ex.fresh).2 in
  let w2 := (fetch_source Ex.online (api_url "7") (api_header Ex.online)
               "out/s/7.jpg" w1).2 in
  let img := Ex.cubemap_4x3 in
  ∃ results w',
    download_clip_img Ex.online Ex.feature "out" 1 "front,back" Ex.fresh
    = (Ok results, w') ∧
    Forall2 (λ c o,
               derived_from (w_heap Ex.fresh) (w_heap w') Ex.feature o
                 (face_path "out" "s" "7" c) ∧
               image_path_of (w_heap w') o = Some (VStr (face_path "out" "s" "7" c)) ∧
               w_files w' !! face_path "out" "s" "7" c
               = Some (Pic (face_tile img (img_width img - img_height img) 1 c)))
            (filter (λ c, face_fails (w_dirs w2) img (img_width img - img_height img)
                            1 "out" "s" "7" c = None)
                    (requested_cells (split_sides "front,back")))
            results.
Proof.
  intros w1 w2 img.
  apply (slow_path_records Ex.online Ex.feature "out" 1 "front,back" Ex.fresh
           "s" "7" w1 w2 (Raw "jpeg bytes") img).
  - exact feature_heap_closed.
  - reflexivity.
  - reflexivity.
  - reflexivity.
  - reflexivity.
  - reflexivity.
  - reflexivity.
  - reflexivity.
  - reflexivity.
Defined.

(** X18. In a store whose references all lead somewhere, and when the
    path [{out}/{seq}/{id}] has no wildcard character and its directory
    part does not end in a slash, every record that [download_clip_img]
    returns points at something that exists: its [properties.image_path]
    is a path that is there at the return. There are never more records
    than requested names. *)
Theorem records_point_to_files E feature out size sides w results w' seq id :
  heap_closed (w_heap w) →
  feature_ids (w_heap w) feature = Some (seq, id) →
  Fs.glob_supported ((out +:+ "/" +:+ seq) +:+ "/" +:+ id) = true →
  download_clip_img E feature out size sides w = (Ok results, w') →
  (length results ≤ length (split_sides sides))%nat ∧
  Forall (λ o, ∃ p, image_path_of (w_heap w') o = Some (VStr p)
                    ∧ path_there w' p = true) results.
Proof.
  intros Hc Hids _ Hrun.
  rewrite (download_run _ _ _ _ _ _ _ _ Hids) in Hrun.
  pose proof (feature_ids_closed _ _ _ Hids) as Hfeat.
  destruct (ensure_folder _ w) as [[[]|e] w1] eqn:Een; [|done].
  apply ensure_folder_inv in Een as (_ & Hh1 & _).
  assert (∃ e, w_heap w1 = w_heap w ++ e) as Hpre.
  { exists []. by rewrite app_nil_r. }
  destruct (forallb _ _) eqn:Hall.
  - unfold fast_path in Hrun.
    destruct (fast_loop_inv (w_heap w) feature Hc Hfeat _ _ _ _ _ _ Hrun Hpre)
      as (Hf & Hd & _ & _ & _ & Hrs).
    destruct (Hrs results eq_refl) as (new & -> & Hnew). simpl.
    split; [by rewrite (Forall2_length _ _ _ Hnew)|].
    eapply Forall_impl; [apply (Forall2_witnesses _ _ _ Hnew)|].
    intros o (i & Hi & Hder). eexists. split; [by eapply derived_image_path|].
    rewrite forallb_forall in Hall. apply list_elem_of_In, Hall in Hi.
    unfold path_there in *. by rewrite Hf, Hd.
  - rewrite slow_path_run in Hrun.
    destruct (fetch_and_split _ _ _ _ _ _ _ _ _ _ _ w1) as [[sts|e] w4] eqn:Ef.
    2:{ injection Hrun as <- <-. split; [simpl; lia|constructor]. }
    pose proof (keeps_heap_fetch_and_split _ _ _ _ _ _ _ _ _ _ _ _ _ _ Ef) as Hh4.
    apply fetch_and_split_tiles in Ef as [Hlen Hthere].
    destruct (collect_total (w_heap w) feature Hc Hfeat (seq, id) sts [] w4 Hids)
      as (new & w5 & Hcol & Hf5 & Hd5 & _ & _ & _ & Hnew).
    { exists []. rewrite app_nil_r. congruence. }
    { by rewrite Hh4, Hh1. }
    rewrite Hcol in Hrun. injection Hrun as <- <-. simpl. split.
    + rewrite <- (Forall2_length _ _ _ Hnew).
      etrans; [apply status_paths_length|done].
    + eapply Forall_impl; [apply (Forall2_witnesses _ _ _ Hnew)|].
      intros o (p & Hp & Hder). exists p. split; [by eapply derived_image_path|].
      unfold path_there. by rewrite Hf5, (Hthere p Hp).
Qed.

Lemma records_point_to_files_witness :
  let run := download_clip_img Ex.online Ex.feature "out" 1 "front,back" Ex.fresh in
  ∃ results,
    run.1 = Ok results ∧
    (length results ≤ length (split_sides "front,back"))%nat ∧
    Forall (λ o, ∃ p, image_path_of (w_heap run.2) o = Some (VStr p)
                      ∧ path_there run.2 p = true) results.
Proof.
  intros run. exists [VRef 8; VRef 16]. split; [vm_compute; reflexivity|].
  apply (records_point_to_files Ex.online Ex.feature "out" 1 "front,back" Ex.fresh
           [VRef 8; VRef 16] run.2 "s" "7").
  - exact feature_heap_closed.
  - reflexivity.
  - reflexivity.
  - vm_compute. reflexivity.
Defined.

Lemma face_name_cell n : n ∈ face_names → ∃ c, c ∈ named_cells ∧ c.2 = n.
Proof.
  unfold face_names, named_cells. rewrite !elem_of_cons, elem_of_nil.
  intros [->|[->|[->|[->|[->|[->|[]]]]]]];
    [exists (1, 0, "top")%nat | exists (0, 1, "left")%nat
    | exists (1, 1, "front")%nat | exists (2, 1, "right")%nat
    | exists (3, 1, "back")%nat | exists (1, 2, "bottom")%nat];
    (split; [rewrite !elem_of_cons; auto 10|reflexivity]).
Qed.

(** X19. A run that did all the work makes the next run cheap. In a
    store whose references all lead somewhere, and when the path
    [{out}/{seq}/{id}] has no wildcard character and its directory part
    does not end in a slash: when every requested name is a face and the
    slow path wrote the tile of each of them, a second call of
    [download_clip_img] for the same feature makes no request, starts no
    process and touches no file, and returns one record for each requested
    name, with the path of its tile. *)
Theorem second_run_is_fast E feature out size sides w seq id w1 w2 src img :
  let folder := out +:+ "/" +:+ seq in
  let equirect := folder +:+ "/" +:+ id +:+ ".jpg" in
  let cubemap := folder +:+ "/" +:+ id +:+ "_cubemap.jpg" in
  let r := img_width img - img_height img in
  heap_closed (w_heap w) →
  feature_ids (w_heap w) feature = Some (seq, id) →
  Fs.glob_supported (folder +:+ "/" +:+ id) = true →
  ensure_folder folder w = (Ok tt, w1) →
  forallb (λ i, path_there w1 (tile_path folder id i)) (split_sides sides) = false →
  fetch_source E (api_url id) (api_header E) equirect w1 = (Ok tt, w2) →
  w_files w2 !! equirect = Some src →
  convert360 E src size = Some img →
  Fs.is_dir (w_dirs w2) cubemap = false →
  (∀ n, n ∈ split_sides sides → n ∈ face_names) →
  (∀ c, c ∈ requested_cells (split_sides sides) →
        face_fails (w_dirs w2) img r size out seq id c = None) →
  ∃ results w' again w'',
    download_clip_img E feature out size sides w = (Ok results, w') ∧
    download_clip_img E feature out size sides w' = (Ok again, w'') ∧
    w_log w'' = w_log w' ∧ w_files w'' = w_files w' ∧ w_dirs w'' = w_dirs w' ∧
    Forall2 (λ i o, image_path_of (w_heap w'') o = Some (VStr (tile_path folder id i)))
            (split_sides sides) again.
Proof.
  intros folder equirect cubemap r Hc Hids Hsup Hen Hslow Hfetch Hsrc Hconv Hdir
    Hnames Hall. subst r.
  destruct (slow_run E out seq id size sides feature w w1 w2 src img
              Hc Hids Hsup Hen Hslow Hfetch Hsrc Hconv Hdir)
    as (results & w' & Hrun & Hd' & [ext Hext] & Hc' & Hframe & Htiles & _).
  assert (feature_ids (w_heap w') feature = Some (seq, id)) as Hids'.
  { rewrite Hext. by apply feature_ids_ext. }
  destruct (fast_run E feature out size sides w' seq id Hc' Hids')
    as (again & w'' & Hrun2 & Hl & Hf & Hd & Hrec).
  - (* the sequence directory is still there *)
    fold folder.
    pose proof (ensure_folder_inv _ _ _ _ Hen) as (_ & _ & _ & Hsame & Hthere & _).
    unfold path_there. rewrite Hd'.
    destruct (Hthere eq_refl) as [Hdir1|Hwas]; [rewrite Hdir1; apply orb_true_r|].
    destruct (Hsame Hwas) as [_ ->]. unfold path_there in Hwas.
    rewrite <- Hwas. f_equal. unfold Fs.is_file. rewrite Hframe; [done|].
    apply not_starts_with_shorter.
  - (* the tile of every requested name is there *)
    intros i Hi. destruct (face_name_cell i (Hnames i Hi)) as (c & Hc1 & <-).
    assert (c ∈ requested_cells (split_sides sides)) as Hreq
      by by apply requested_cells_named.
    assert (tile_path (out +:+ "/" +:+ seq) id c.2 = face_path out seq id c) as ->.
    { unfold tile_path, face_path, chunk_img_path. by rewrite !sapp_assoc. }
    unfold path_there, Fs.is_file. rewrite (Htiles c Hreq (Hall c Hreq)).
    by rewrite bool_decide_eq_true_2.
  - exists results, w', again, w''. do 5 (split; [done|]).
    eapply Forall2_impl; [exact Hrec|]. intros i o Hder. simpl in Hder.
    eapply derived_image_path; [exact Hder|exact Hids'].
Qed.

Lemma second_run_is_fast_witness :
  let w1 := (ensure_folder "out/s" Ex.fresh).2 in
  ∃ results w' again w'',
    download_clip_img Ex.online Ex.feature "out" 1 "front,back" Ex.fresh
    = (Ok results, w') ∧
    download_clip_img Ex.online Ex.feature "out" 1 "front,back" w' = (Ok again, w'') ∧
    w_log w'' = w_log w' ∧ w_files w'' = w_files w' ∧ w_dirs w'' = w_dirs w' ∧
    Forall2 (λ i o, image_path_of (w_heap w'') o
                    = Some (VStr (tile_path ("out" +:+ "/" +:+ "s") "7" i)))
            (split_sides "front,back") again.
Proof.
  intros w1.
  apply (second_run_is_fast Ex.online Ex.feature "out" 1 "front,back" Ex.fresh
           "s" "7" w1
           (fetch_source Ex.online (api_url "7") (api_header Ex.online)
              "out/s/7.jpg" w1).2
           (Raw "jpeg bytes") Ex.cubemap_4x3).
  - exact feature_heap_closed.
  - reflexivity.
  - reflexivity.
  - reflexivity.
  - reflexivity.
  - reflexivity.
  - reflexivity.
  - reflexivity.
  - reflexivity.
  - intros n Hn. change (split_sides "front,back") with ["front"; "back"] in Hn.
    unfold face_names. rewrite !elem_of_cons, elem_of_nil in Hn.
    rewrite !elem_of_cons. destruct Hn as [->|[->|[]]]; auto 10.
  - intros c Hc. apply requested_cells_named in Hc as [Hn _].
    unfold named_cells in Hn. rewrite !elem_of_cons, elem_of_nil in Hn.
    repeat (destruct Hn as [->|Hn]; [reflexivity|]). done.
Defined.

(* ===================================================================== *)
(** ** The batch *)
(* ===================================================================== *)

Lemma for_each_app {A B} (xs ys : list A) (body : A → B → M B) acc w :
  for_each (xs ++ ys) body acc w
  = match for_each xs body acc w with
    | (Ok a, w1) => for_each ys body a w1
    | (Raise e, w1) => (Raise e, w1)
    end.
Proof.
  revert acc w. induction xs as [|x xs IH]; intros acc w; [done|].
  rewrite <- app_comm_cons, !for_each_cons. unfold bind.
  destruct (body x acc w) as [[a|e] w1]; [apply IH|done].
Qed.

Lemma filter_all {A} (P : A → Prop) `{∀ x, Decision (P x)} (l : list A) :
  Forall P l → filter P l = l.
Proof.
  induction 1 as [|x l Hx _ IH]; [done|].
  by rewrite filter_cons, decide_True, IH.
Qed.

Lemma dict_set_cons k v kvs : ∃ kv r, dict_set k v kvs = kv :: r.
Proof.
  destruct kvs as [|[k0 v0] r]; simpl; [eauto|].
  destruct (String.eqb k k0); eauto.
Qed.

(** A derived record is a dict that is not empty. *)
Lemma derived_truthy h h' feature o path :
  derived_from h h' feature o path → py_bool h' o = true.
Proof.
  intros (lp & R & Hp & Hv & HR). unfold props_loc in Hp.
  destruct feature as [|b|z|bits|s|f]; try done.
  destruct (h !! f) as [[kvs|xs]|] eqn:Hf; try done.
  destruct (dict_get "properties" kvs) as [[|b|z|bits|s|lp']|] eqn:Hprops; try done.
  injection Hp as ->.
  destruct Hv as (lo & -> & Hlo).
  destruct (HR _ _ Hlo) as (_ & o0 & o' & Ho & Ho' & vs & -> & Hvs).
  rewrite Hf in Ho. injection Ho as <-.
  assert (∃ kv kvs_e, enrich lp path f (ODict kvs) = ODict (kv :: kvs_e))
    as (kv & kvs_e & He).
  { unfold enrich. destruct (decide (f = lp)).
    - destruct (dict_set_cons "image_path" (VStr path) kvs) as (kv & r & ->). eauto.
    - destruct kvs as [|kv kvs]; [done|]. eauto. }
  rewrite He in Ho', Hvs. simpl in Ho', Hvs.
  apply Forall2_cons_inv_l in Hvs as (v' & vs' & _ & _ & ->).
  simpl. by rewrite Ho'.
Qed.

Lemma download_derives E h0 feature out size sides w r w' :
  heap_closed h0 → val_closed h0 feature → (∃ e, w_heap w = h0 ++ e) →
  download_clip_img E feature out size sides w = (r, w') →
  (∃ ext, w_heap w' = w_heap w ++ ext) ∧
  ∀ results, r = Ok results →
    Forall (λ o, ∃ path, derived_from h0 (w_heap w') feature o path) results.
Proof.
  intros Hc Hfeat Hpre Hrun.
  destruct (feature_ids (w_heap w) feature) as [[seq id]|] eqn:Hids.
  2:{ destruct (download_no_ids E feature out size sides w Hids)
        as (e & w1 & Hr & Hh & _).
      rewrite Hr in Hrun. injection Hrun as <- <-. split; [|done].
      exists []. by rewrite app_nil_r. }
  rewrite (download_run _ _ _ _ _ _ _ _ Hids) in Hrun.
  destruct (ensure_folder _ w) as [[[]|e] w1] eqn:Een;
    apply ensure_folder_inv in Een as (_ & Hh1 & _).
  2:{ injection Hrun as <- <-. split; [|done]. exists []. by rewrite app_nil_r. }
  assert (∃ e, w_heap w1 = h0 ++ e) as Hpre1 by (by rewrite Hh1).
  destruct (forallb _ _).
  - unfold fast_path in Hrun.
    destruct (fast_loop_inv h0 feature Hc Hfeat _ _ _ _ _ _ Hrun Hpre1)
      as (_ & _ & _ & [e' He'] & _ & Hrs).
    split; [exists e'; by rewrite He', Hh1|].
    intros rs Hr. destruct (Hrs rs Hr) as (new & -> & Hnew). simpl.
    eapply Forall2_Forall_r; [done|]. apply Forall_true. intros i o Ho. eauto.
  - rewrite slow_path_run in Hrun.
    destruct (fetch_and_split _ _ _ _ _ _ _ _ _ _ _ w1) as [[sts|e] w2] eqn:Ef;
      apply keeps_heap_fetch_and_split in Ef.
    2:{ injection Hrun as <- <-. simpl. split.
        - exists []. rewrite app_nil_r. congruence.
        - by intros rs [= <-]. }
    destruct (collect_inv h0 feature Hc Hfeat sts [] w2)
      as (rs & oe & w3 & Hcol & _ & _ & _ & [e3 He3] & new & -> & Hnew).
    { by rewrite Ef. }
    rewrite Hcol in Hrun.
    assert (w_heap w' = w_heap w3 ∧ r = Ok ([] ++ new)) as [Hw' ->].
    { destruct oe; injection Hrun as <- <-; done. }
    split.
    + exists e3. rewrite Hw', He3. congruence.
    + intros ? [= <-]. rewrite Hw'. done.
Qed.

Lemma one_worker_inv E h0 out size sides features acc w r w' :
  heap_closed h0 → Forall (val_closed h0) features → (∃ e, w_heap w = h0 ++ e) →
  for_each ((λ feature, download_clip_img E feature out size sides) <$> features)
    (λ task done, let* r := task in ret (done ++ [r])) acc w = (r, w') →
  (∃ ext, w_heap w' = w_heap w ++ ext) ∧
  ∀ results2d, r = Ok results2d →
    ∃ new, results2d = acc ++ new ∧
      Forall2 (λ feature rs,
                 Forall (λ o, ∃ path, derived_from h0 (w_heap w') feature o path) rs)
              features new.
Proof.
  intros Hc Hfs. revert acc w.
  induction Hfs as [|feature features Hfeat _ IH]; intros acc w Hpre.
  - intros [= <- <-]. split; [exists []; by rewrite app_nil_r|].
    intros ? [= <-]. exists []. by rewrite app_nil_r.
  - rewrite fmap_cons, for_each_cons. unfold bind at 1. unfold bind at 1.
    destruct (download_clip_img E feature out size sides w) as [[rs|e] w1] eqn:Ed;
      destruct (download_derives _ _ _ _ _ _ _ _ _ Hc Hfeat Hpre Ed) as [[e1 He1] Hrs].
    2:{ intros [= <- <-]. split; [by exists e1|done]. }
    unfold ret at 1. intros Hrun.
    destruct Hpre as [e0 He0].
    destruct (IH _ _ ltac:(exists (e0 ++ e1); by rewrite He1, He0, app_assoc) Hrun)
      as [[e2 He2] Hall].
    split; [exists (e1 ++ e2); by rewrite He2, He1, app_assoc|].
    intros results2d Hr. destruct (Hall _ Hr) as (new & -> & Hnew).
    exists (rs :: new). split; [by rewrite <- app_assoc|].
    constructor; [|done].
    eapply Forall_impl; [exact (Hrs rs eq_refl)|].
    intros o [path Hder]. exists path.
    eapply derived_from_later; [done|]. by exists e2.
Qed.

(** X20. [process_image] on a pool with one worker, in a store whose
    references all lead somewhere: no container that was there at the call
    is changed; when it returns, the final filter dropped nothing, so that
    the result is the lists of the features chained in the order of the
    features, and every record is a copy of its own feature, made of new
    containers, with [properties.image_path] set. *)
Theorem process_image_chains E features out size sides w r w' :
  heap_closed (w_heap w) →
  Forall (val_closed (w_heap w)) features →
  process_image E one_worker features out size sides w = (r, w') →
  (∃ ext, w_heap w' = w_heap w ++ ext) ∧
  ∀ results, r = Ok results →
    ∃ results2d,
      one_worker ((λ feature, download_clip_img E feature out size sides)
                    <$> features) w = (Ok results2d, w') ∧
      results = concat results2d ∧
      Forall2 (λ feature rs,
                 Forall (λ o, ∃ path,
                           derived_from (w_heap w) (w_heap w') feature o path) rs)
              features results2d.
Proof.
  intros Hc Hfs. unfold process_image, bind.
  destruct (one_worker _ w) as [[results2d|e] w1] eqn:Epool.
  2:{ intros [= <- <-]. unfold one_worker in Epool.
      apply (one_worker_inv _ (w_heap w)) in Epool as [Hext _];
        [done..|exists []; by rewrite app_nil_r]. }
  intros [= <- <-].
  pose proof Epool as Hinv. unfold one_worker in Hinv.
  apply (one_worker_inv _ (w_heap w)) in Hinv as [Hext Hall];
    [|done..|exists []; by rewrite app_nil_r].
  split; [done|]. intros results [= <-].
  destruct (Hall _ eq_refl) as (new & -> & Hnew). simpl in *.
  exists new. split; [done|]. split; [|done].
  apply filter_all. apply Forall_concat.
  eapply Forall2_Forall_r; [exact Hnew|]. apply Forall_true.
  intros feature rs Hrs. eapply Forall_impl; [exact Hrs|].
  intros o [path Hder]. by eapply derived_truthy.
Qed.

Lemma process_image_chains_witness :
  let run := process_image Ex.online one_worker [Ex.feature; Ex.feature] "out" 1
               "front,back" Ex.fresh in
  (∃ ext, w_heap run.2 = w_heap Ex.fresh ++ ext) ∧
  ∀ results, run.1 = Ok results →
    ∃ results2d,
      one_worker ((λ feature, download_clip_img Ex.online feature "out" 1 "front,back")
                    <$> [Ex.feature; Ex.feature]) Ex.fresh = (Ok results2d, run.2) ∧
      results = concat results2d ∧
      Forall2 (λ feature rs,
                 Forall (λ o, ∃ path,
                           derived_from (w_heap Ex.fresh) (w_heap run.2) feature o path)
                        rs)
              [Ex.feature; Ex.feature] results2d.
Proof.
  intros run.
  apply (process_image_chains Ex.online [Ex.feature; Ex.feature] "out" 1
           "front,back" Ex.fresh run.1 run.2).
  - exact feature_heap_closed.
  - repeat constructor; simpl; lia.
  - apply surjective_pairing.
Defined.

(** X21. On a pool with one worker an exception that leaves
    [download_clip_img] for one feature leaves [process_image]: the batch
    stops there, the records of the features before it are not returned,
    and the features after it are not looked at. *)
Theorem batch_stops_at_exception E before feature after out size sides w rs w1 e w2 :
  one_worker ((λ feature, download_clip_img E feature out size sides) <$> before) w
  = (Ok rs, w1) →
  download_clip_img E feature out size sides w1 = (Raise e, w2) →
  process_image E one_worker (before ++ feature :: after) out size sides w
  = (Raise e, w2).
Proof.
  intros Hbefore Hraise. unfold process_image, bind, one_worker in *.
  rewrite fmap_app, for_each_app, Hbefore, fmap_cons, for_each_cons.
  unfold bind at 1. unfold bind at 1. by rewrite Hraise.
Qed.

Lemma batch_stops_at_exception_witness :
  ∃ w2,
    process_image Ex.online one_worker
      ([Ex.feature] ++ Scene.broken_feature :: [Ex.feature]) "out" 1 "front,back"
      (Scene.fresh_with Scene.batch_heap)
    = (Raise (KeyError "sequence_id"), w2).
Proof.
  eexists.
  eapply (batch_stops_at_exception Ex.online [Ex.feature] Scene.broken_feature
            [Ex.feature] "out" 1 "front,back" (Scene.fresh_with Scene.batch_heap)).
  - vm_compute. reflexivity.
  - vm_compute. reflexivity.
Defined.

(* ===================================================================== *)
(** ** What a run asks of the outside *)
(* ===================================================================== *)

Lemma requests_app a b : requests (a ++ b) = requests a ++ requests b.
Proof. apply omap_app. Qed.

Lemma commands_app a b : commands (a ++ b) = commands a ++ commands b.
Proof. apply omap_app. Qed.

Lemma only_prints_same {A} (m : M A) :
  (∀ w, w_log (m w).2 = w_log w) → only_prints m.
Proof.
  intros H w r w' E. specialize (H w). rewrite E in H.
  exists []. by rewrite app_nil_r.
Qed.

Lemma only_prints_ret {A} (a : A) : only_prints (ret a).
Proof. by apply only_prints_same. Qed.

Lemma only_prints_raise {A} e : only_prints (@raise A e).
Proof. by apply only_prints_same. Qed.

Lemma only_prints_print b e a : only_prints (print_exn b e a).
Proof. intros w r w' [= <- <-]. by eexists. Qed.

Lemma only_prints_bind {A B} (m : M A) (k : A → M B) :
  only_prints m → (∀ a, only_prints (k a)) → only_prints (bind m k).
Proof.
  intros Hm Hk w r w'. unfold bind.
  destruct (m w) as [[a|e] w1] eqn:E; apply Hm in E as (ps & Hl & Hr & Hc).
  - intros (ps' & Hl' & Hr' & Hc')%Hk. exists (ps ++ ps').
    rewrite Hl', Hl, app_assoc, requests_app, commands_app, Hr, Hr', Hc, Hc'. done.
  - intros [= <- <-]. eauto.
Qed.

Lemma only_prints_try {A} (m : M A) h :
  only_prints m → (∀ e, only_prints (h e)) → only_prints (try_except m h).
Proof.
  intros Hm Hh w r w'. unfold try_except.
  destruct (m w) as [[a|e] w1] eqn:E; apply Hm in E as (ps & Hl & Hr & Hc).
  - intros [= <- <-]. eauto.
  - intros (ps' & Hl' & Hr' & Hc')%Hh. exists (ps ++ ps').
    rewrite Hl', Hl, app_assoc, requests_app, commands_app, Hr, Hr', Hc, Hc'. done.
Qed.

Lemma only_prints_for_each {A B} (xs : list A) (body : A → B → M B) acc :
  (∀ x b, only_prints (body x b)) → only_prints (for_each xs body acc).
Proof.
  intros Hb. revert acc. induction xs as [|x xs IH]; intros acc; simpl.
  - apply only_prints_ret.
  - apply only_prints_bind; [apply Hb|apply IH].
Qed.

Lemma only_prints_cubemap_splitter cubemap size seq id out sides :
  only_prints (cubemap_splitter cubemap size seq id out sides).
Proof.
  unfold cubemap_splitter.
  apply only_prints_try.
  - apply only_prints_bind; [by apply only_prints_same|]. intros [img|].
    2:{ apply only_prints_raise. }
    apply only_prints_for_each. intros [x y] st. unfold split_cell.
    destruct (index_dict !! cell_index x y) as [face|]; [|apply only_prints_ret].
    destruct (bool_decide _); [|apply only_prints_ret].
    apply only_prints_try.
    + apply only_prints_bind; [|intros; apply only_prints_ret].
      apply only_prints_same. intros w. rewrite write_face_spec.
      by destruct (face_error _ _ _ _ _ _ _).
    + intros e. apply only_prints_bind; [apply only_prints_print|].
      intros; apply only_prints_ret.
  - intros e. apply only_prints_bind; [apply only_prints_print|].
    intros; apply only_prints_ret.
Qed.

Lemma only_prints_clean_files folder id sides :
  only_prints (clean_files folder id sides).
Proof.
  unfold clean_files. apply only_prints_bind.
  - apply only_prints_same. intros w. unfold Fs.glob_jpg.
    by destruct (Fs.glob_supported _).
  - intros found. apply only_prints_for_each. intros file [].
    apply only_prints_try; [|intros; apply only_prints_print].
    apply only_prints_same. intros w. unfold Fs.remove.
    by repeat (destruct (_ : bool)).
Qed.

Section Asks.

Context (E : env).

Lemma fetch_source_log url header equirect w r w' :
  fetch_source E url header equirect w = (r, w') →
  (w_log w' = w_log w ++ [EvRequest url header] ∧ ∃ e, r = Raise e)
  ∨ ∃ u, graph_api E url header = ApiUrl u ∧
         w_log w' = w_log w ++ [EvRequest url header; EvRequest u []] ∧
         (r = Ok tt → fetch E u ≠ None) ∧ ((∃ e, r = Raise e) ∨ r = Ok tt).
Proof.
  unfold fetch_source. unfold bind at 1. unfold request_image_url.
  unfold bind at 1. unfold emit at 1.
  destruct (graph_api E url header) as [| | |u] eqn:Ea;
    try (intros [= <- <-]; left; split; [done|eauto]).
  unfold ret at 1. unfold bind at 1. unfold Fs.open_wb. simpl w_dirs.
  destruct (Fs.is_dir _ _); cbv beta iota.
  { intros [= <- <-]. left. split; [reflexivity|eauto]. }
  destruct (Fs.parent_ok _ _); cbv beta iota.
  2:{ intros [= <- <-]. left. split; [reflexivity|eauto]. }
  unfold bind at 1. unfold request_content. unfold bind at 1. unfold emit at 1.
  destruct (fetch E u) as [body|] eqn:Ef.
  - intros [= <- <-]. right. exists u. split; [done|]. simpl.
    rewrite <- app_assoc. split; [done|]. split; [by rewrite Ef|by right].
  - intros [= <- <-]. right. exists u. split; [done|]. simpl.
    rewrite <- app_assoc. split; [done|]. split; [done|left; eauto].
Qed.

Lemma fetch_and_split_log equirect cubemap size seq id out folder sides w r w' :
  fetch_and_split E (api_url id) (api_header E) equirect cubemap size seq id out
    folder sides w = (r, w') →
  ∃ new,
    w_log w' = w_log w ++ new ∧
    (requests new = [(api_url id, api_header E)] ∧ commands new = []
     ∨ ∃ u, graph_api E (api_url id) (api_header E) = ApiUrl u ∧
            requests new = [(api_url id, api_header E); (u, [])] ∧
            (commands new = []
             ∨ fetch E u ≠ None ∧
               commands new
               = ["convert360 --convert e2c --i " +:+ equirect +:+ "  --o "
                    +:+ cubemap +:+ " --w " +:+ pretty size])).
Proof.
  unfold fetch_and_split. unfold bind at 1.
  destruct (fetch_source _ _ _ _ w) as [r1 w1] eqn:Ef.
  apply fetch_source_log in Ef as [[Hl [e ->]]|(u & Hu & Hl & Hok & [[e ->]| ->])].
  - intros [= <- <-]. eexists. split; [exact Hl|]. by left.
  - intros [= <- <-]. eexists. split; [exact Hl|]. right. exists u. auto.
  - unfold bind at 1. unfold os_system_convert360 at 1. unfold bind at 1.
    unfold emit at 1.
    match goal with
    | |- context [run_convert360 E equirect cubemap size ?w0] =>
        assert (∃ w2, run_convert360 E equirect cubemap size w0 = (Ok tt, w2)
                      ∧ w_log w2 = w_log w0) as (w2 & -> & Hl2)
    end.
    { unfold run_convert360. simpl.
      destruct (w_files w1 !! equirect) as [c|]; [|by eexists].
      destruct (convert360 E c size); [|by eexists].
      destruct (Fs.is_dir _ _); by eexists. }
    simpl in Hl2.
    match goal with
    | |- ?m w2 = _ → _ =>
        assert (only_prints m) as Hrest
    end.
    { apply only_prints_bind; [apply only_prints_cubemap_splitter|]. intros sts.
      apply only_prints_bind; [apply only_prints_clean_files|].
      intros; apply only_prints_ret. }
    intros (ps & Hl3 & Hr3 & Hc3)%Hrest.
    eexists. split.
    { rewrite Hl3, Hl2, Hl, <- !app_assoc. reflexivity. }
    right. exists u. split; [done|].
    rewrite !requests_app, !commands_app, Hr3, Hc3. simpl. split; [done|].
    right. by split; [apply Hok|].
Qed.

Lemma slow_path_log feature out size sides seq id w r w' :
  slow_path E feature out size sides seq id w = (r, w') →
  ∃ results new,
    r = Ok results ∧
    w_log w' = w_log w ++ new ∧
    (requests new = [(api_url id, api_header E)] ∧ commands new = []
     ∨ ∃ u, graph_api E (api_url id) (api_header E) = ApiUrl u ∧
            requests new = [(api_url id, api_header E); (u, [])] ∧
            (commands new = []
             ∨ fetch E u ≠ None ∧
               commands new
               = ["convert360 --convert e2c --i "
                    +:+ ((out +:+ "/" +:+ seq) +:+ "/" +:+ id +:+ ".jpg")
                    +:+ "  --o "
                    +:+ ((out +:+ "/" +:+ seq) +:+ "/" +:+ id +:+ "_cubemap.jpg")
                    +:+ " --w " +:+ pretty size])).
Proof.
  rewrite slow_path_run.
  destruct (fetch_and_split _ _ _ _ _ _ _ _ _ _ _ w) as [r2 w2] eqn:Ef.
  apply fetch_and_split_log in Ef as (new & Hl2 & Hshape).
  assert (∀ e, ∃ new', w_log w ++ new ++ [EvPrint EmptyString e EmptyString] = w_log w ++ new' ∧
                       requests new' = requests new ∧ commands new' = commands new)
    as Hadd.
  { intros e. exists (new ++ [EvPrint EmptyString e EmptyString]).
    by rewrite requests_app, commands_app, !app_nil_r. }
  destruct r2 as [sts|e].
  - destruct (collect_returns feature sts [] w2) as (rs & oe & w3 & -> & _ & _ & Hl3).
    destruct oe as [e|]; intros [= <- <-].
    + destruct (Hadd e) as (new' & Heq & Hr & Hc).
      exists rs, new'. split; [done|]. simpl.
      rewrite Hl3, Hl2, <- app_assoc, Heq, Hr, Hc. done.
    + exists rs, new. rewrite Hl3, Hl2. done.
  - intros [= <- <-]. destruct (Hadd e) as (new' & Heq & Hr & Hc).
    exists [], new'. split; [done|]. simpl.
    rewrite Hl2, <- app_assoc, Heq, Hr, Hc. done.
Qed.

(** X22. What a run of [download_clip_img] asks of the outside: nothing
    at all, or the metadata request alone, or the metadata request and then
    the request for the image at the address the metadata gave; the
    authorization header goes with the metadata request only; the projector
    is started at most once, and only in a run that made both requests and
    fetched the image. *)
Theorem requests_of_a_run feature out size sides w r w' seq id :
  feature_ids (w_heap w) feature = Some (seq, id) →
  download_clip_img E feature out size sides w = (r, w') →
  ∃ new,
    w_log w' = w_log w ++ new ∧
    (requests new = [] ∧ commands new = []
     ∨ requests new = [(api_url id, api_header E)] ∧ commands new = []
     ∨ ∃ u, graph_api E (api_url id) (api_header E) = ApiUrl u ∧
            requests new = [(api_url id, api_header E); (u, [])] ∧
            (commands new = []
             ∨ fetch E u ≠ None ∧
               commands new
               = ["convert360 --convert e2c --i "
                    +:+ ((out +:+ "/" +:+ seq) +:+ "/" +:+ id +:+ ".jpg")
                    +:+ "  --o "
                    +:+ ((out +:+ "/" +:+ seq) +:+ "/" +:+ id +:+ "_cubemap.jpg")
                    +:+ " --w " +:+ pretty size])).
Proof.
  intros Hids. rewrite (download_run _ _ _ _ _ _ _ _ Hids).
  destruct (ensure_folder _ w) as [r1 w1] eqn:Een.
  apply ensure_folder_inv in Een as (_ & _ & Hl1 & _).
  destruct r1 as [[]|e].
  2:{ intros [= <- <-]. exists []. rewrite app_nil_r. auto. }
  destruct (forallb _ _).
  - unfold fast_path. intros (_ & _ & Hl)%fast_path_frame.
    exists []. rewrite app_nil_r. split; [congruence|auto].
  - intros (rs & new & _ & Hl & Hshape)%slow_path_log.
    exists new. rewrite Hl, Hl1. auto.
Qed.

End Asks.

Lemma requests_of_a_run_witness :
  let run := download_clip_img Ex.online Ex.feature "out" 1 "front,back" Ex.fresh in
  ∃ new,
    w_log run.2 = w_log Ex.fresh ++ new ∧
    (requests new = [] ∧ commands new = []
     ∨ requests new = [(api_url "7", api_header Ex.online)] ∧ commands new = []
     ∨ ∃ u, graph_api Ex.online (api_url "7") (api_header Ex.online) = ApiUrl u ∧
            requests new = [(api_url "7", api_header Ex.online); (u, [])] ∧
            (commands new = []
             ∨ fetch Ex.online u ≠ None ∧
               commands new
               = ["convert360 --convert e2c --i "
                    +:+ (("out" +:+ "/" +:+ "s") +:+ "/" +:+ "7" +:+ ".jpg")
                    +:+ "  --o "
                    +:+ (("out" +:+ "/" +:+ "s") +:+ "/" +:+ "7" +:+ "_cubemap.jpg")
                    +:+ " --w " +:+ pretty 1])).
Proof.
  intros run.
  apply (requests_of_a_run Ex.online Ex.feature "out" 1 "front,back" Ex.fresh
           run.1 run.2 "s" "7").
  - reflexivity.
  - apply surjective_pairing.
Defined.

(* ===================================================================== *)
(** ** Which files a computation can create *)
(* ===================================================================== *)

Lemma creates_within_writes {A} (S : string → Prop) (m : M A) :
  writes_within S m → creates_within S m.
Proof.
  intros H w r w' [Hd Hf]%H. split; [done|]. intros p Hp. by rewrite Hf.
Qed.

Lemma creates_within_ret {A} S (a : A) : creates_within S (ret a).
Proof. by intros w r w' [= <- <-]. Qed.

Lemma creates_within_bind {A B} S (m : M A) (k : A → M B) :
  creates_within S m → (∀ a, creates_within S (k a)) → creates_within S (bind m k).
Proof.
  intros Hm Hk w r w'. unfold bind.
  destruct (m w) as [[a|e] w1] eqn:E; apply Hm in E as [Hd Hf].
  - intros [Hd' Hf']%Hk. split; [congruence|]. auto.
  - by intros [= <- <-].
Qed.

Lemma creates_within_clean_files S folder id sides :
  creates_within S (clean_files folder id sides).
Proof.
  intros w r w' Hrun.
  destruct (Fs.glob_supported (folder +:+ "/" +:+ id)) eqn:Hsup.
  - destruct (clean_files_spec folder id sides w Hsup)
      as (msgs & w1 & Hrun1 & Hd & _ & _ & _ & Hf & _).
    rewrite Hrun1 in Hrun. injection Hrun as <- <-. split; [done|].
    intros p _ Hp. rewrite Hf. by case_decide.
  - rewrite clean_files_unsupported in Hrun by done. by injection Hrun as <- <-.
Qed.

Section Creates.

Context (E : env) (out seq id : string) (size : Z) (sides : string).

Lemma creates_within_cubemap_splitter cubemap :
  creates_within (made out seq id) (cubemap_splitter cubemap size seq id out sides).
Proof.
  apply creates_within_writes. intros w r w'.
  destruct (w_files w !! cubemap) as [[b|img]|] eqn:Ec.
  - rewrite cubemap_splitter_unreadable by (by rewrite Ec). by intros [= <- <-].
  - rewrite (cubemap_splitter_readable _ _ _ _ _ _ _ img) by done.
    intros [= <- <-]. split; [done|]. intros p Hp. simpl.
    apply face_writes_other. intros c [Hc _]%requested_cells_named _ <-.
    apply Hp. right. right. exists c.2. split; [|done]. by apply named_cells_face.
  - rewrite cubemap_splitter_unreadable by (by rewrite Ec). by intros [= <- <-].
Qed.

Lemma creates_within_fetch_and_split :
  creates_within (made out seq id)
    (fetch_and_split E (api_url id) (api_header E)
       ((out +:+ "/" +:+ seq) +:+ "/" +:+ id +:+ ".jpg")
       ((out +:+ "/" +:+ seq) +:+ "/" +:+ id +:+ "_cubemap.jpg")
       size seq id out (out +:+ "/" +:+ seq) sides).
Proof.
  unfold fetch_and_split.
  apply creates_within_bind.
  { apply creates_within_writes, writes_within_fetch_source. by left. }
  intros _. apply creates_within_bind.
  { apply creates_within_writes, writes_within_convert360. right. by left. }
  intros _. apply creates_within_bind; [apply creates_within_cubemap_splitter|].
  intros sts. apply creates_within_bind; [apply creates_within_clean_files|].
  intros _. apply creates_within_ret.
Qed.

Lemma creates_within_slow_path feature :
  creates_within (made out seq id) (slow_path E feature out size sides seq id).
Proof.
  intros w r w'. rewrite slow_path_run.
  destruct (fetch_and_split _ _ _ _ _ _ _ _ _ _ _ w) as [[sts|e] w2] eqn:Ef;
    apply creates_within_fetch_and_split in Ef as [Hd Hf].
  2:{ by intros [= <- <-]. }
  destruct (collect_returns feature sts [] w2) as (rs & oe & w3 & -> & Hf3 & Hd3 & _).
  destruct oe; intros [= <- <-]; simpl; rewrite Hd3, Hf3; done.
Qed.

Lemma unknown_tile_not_made n :
  n ∉ face_names → n ≠ "cubemap" →
  ¬ made out seq id (tile_path (out +:+ "/" +:+ seq) id n).
Proof.
  intros Hn Hc. unfold made, tile_path.
  intros [Heq|[Heq|(f & Hf & Heq)]].
  - do 3 apply sapp_inv_head in Heq. discriminate Heq.
  - do 3 apply sapp_inv_head in Heq.
    change "_cubemap.jpg" with ("_" +:+ "cubemap" +:+ ".jpg") in Heq.
    by apply sapp_inv_head, sapp_inv_tail in Heq.
  - unfold chunk_img_path in Heq. rewrite !sapp_assoc in Heq.
    do 6 apply sapp_inv_head in Heq. apply sapp_inv_tail in Heq. by subst.
Qed.

End Creates.

Lemma ancestors_go_split done s a :
  a ∈ PyStr.ancestors_go done s →
  ∃ s1 s2, s = s1 +:+ String "/" s2 ∧ a = done +:+ s1.
Proof.
  revert done. induction s as [|c s IH]; intros done; simpl.
  - by intros ?%elem_of_nil.
  - intros Hin.
    assert (a ∈ PyStr.ancestors_go (done +:+ String c EmptyString) s
            → ∃ s1 s2, String c s = s1 +:+ String "/" s2 ∧ a = done +:+ s1) as Hrest.
    { intros (s1 & s2 & -> & ->)%IH. exists (String c s1), s2.
      split; [done|]. by rewrite sapp_assoc. }
    destruct (Ascii.eqb_spec c "/") as [->|Hne]; [|auto].
    destruct done as [|d done]; [auto|].
    apply elem_of_cons in Hin as [->|Hin]; [|auto].
    exists EmptyString, s. split; [done|]. by rewrite sapp_nil_r.
Qed.

Lemma not_own_ancestor p c s : p +:+ String c s ∉ PyStr.ancestors p.
Proof.
  intros (s1 & s2 & Hp & Ha)%ancestors_go_split. rewrite sapp_nil_l in Ha.
  subst s1. rewrite sapp_assoc in Hp.
  rewrite <- (sapp_nil_r p) in Hp at 1. by apply sapp_inv_head in Hp.
Qed.

Lemma forallb_false_at {A} (f : A → bool) l x :
  x ∈ l → f x = false → forallb f l = false.
Proof.
  intros Hx Hf. destruct (forallb f l) eqn:E; [|done].
  rewrite forallb_forall in E. apply list_elem_of_In, E in Hx. congruence.
Qed.

(** X23. A requested name that is no face (and is not "cubemap") keeps
    the fast path out of reach: no run creates the tile of that name, so
    when it was missing before a run that returned it is missing after it,
    and the next run for the same feature asks the metadata host again. *)
Theorem unknown_name_defeats_fast_path E feature out size sides w results w' seq id n :
  let folder := out +:+ "/" +:+ seq in
  heap_closed (w_heap w) →
  feature_ids (w_heap w) feature = Some (seq, id) →
  n ∈ split_sides sides → n ∉ face_names → n ≠ "cubemap" →
  path_there w (tile_path folder id n) = false →
  download_clip_img E feature out size sides w = (Ok results, w') →
  path_there w' (tile_path folder id n) = false ∧
  ∃ again w'' new rest,
    download_clip_img E feature out size sides w' = (Ok again, w'') ∧
    w_log w'' = w_log w' ++ new ∧
    requests new = (api_url id, api_header E) :: rest.
Proof.
  intros folder Hc Hids Hn Hface Hcube Hno Hrun.
  pose proof (feature_ids_closed _ _ _ Hids) as Hfeat.
  destruct (download_derives E (w_heap w) feature out size sides w _ _ Hc Hfeat
              ltac:(exists []; by rewrite app_nil_r) Hrun) as [[ext Hext] _].
  assert (feature_ids (w_heap w') feature = Some (seq, id)) as Hids'.
  { rewrite Hext. by apply feature_ids_ext. }
  rewrite (download_run _ _ _ _ _ _ _ _ Hids) in Hrun. fold folder in Hrun.
  destruct (ensure_folder folder w) as [[[]|e] w1] eqn:Een; [|done].
  pose proof (ensure_folder_dirs _ _ _ _ Een) as Hnew.
  pose proof (ensure_folder_inv _ _ _ _ Een) as (Hf1 & _ & _ & Hsame & Hthere & _).
  assert (tile_path folder id n = folder +:+ String "/" (id +:+ "_" +:+ n +:+ ".jpg"))
    as Htile by done.
  (* the tile of the name is not there before the tiles are looked for *)
  assert (path_there w1 (tile_path folder id n) = false) as Hno1.
  { unfold path_there in *. apply orb_false_iff in Hno as [Hnf Hnd].
    rewrite Hf1, Hnf. simpl. unfold Fs.is_dir in *.
    apply bool_decide_eq_false in Hnd. apply bool_decide_eq_false.
    intros [Hd|[_ [Hd|Hd]]]%Hnew; [done| |].
    - rewrite Htile in Hd. rewrite <- (sapp_nil_r folder) in Hd at 2.
      by apply sapp_inv_head in Hd.
    - rewrite Htile in Hd. by apply not_own_ancestor in Hd. }
  rewrite (forallb_false_at _ _ n) in Hrun by (done || by apply list_elem_of_In).
  (* the slow path does not create it, and leaves the directory in place *)
  pose proof (creates_within_slow_path E out seq id size sides feature _ _ _ Hrun)
    as [Hd2 Hf2].
  pose proof (writes_within_slow_path E feature out size sides seq id _ _ _ Hrun)
    as [_ Hkeep].
  assert (path_there w' (tile_path folder id n) = false) as Hno'.
  { unfold path_there in *. apply orb_false_iff in Hno1 as [Hnf Hnd].
    rewrite Hd2, Hnd, orb_false_r. unfold Fs.is_file in *.
    apply bool_decide_eq_false in Hnf. apply bool_decide_eq_false.
    rewrite Hf2; [by intros [? ?]|by apply unknown_tile_not_made|].
    destruct (w_files w1 !! tile_path folder id n) eqn:Ew; [|done].
    destruct Hnf. eauto. }
  split; [done|].
  (* the second run *)
  rewrite (download_run _ _ _ _ _ _ _ _ Hids'). fold folder.
  assert (path_there w' folder = true) as Hfolder.
  { unfold path_there. rewrite Hd2.
    destruct (Hthere eq_refl) as [Hdir1|Hwas]; [rewrite Hdir1; apply orb_true_r|].
    destruct (Hsame Hwas) as [_ Heq]. subst w1. unfold path_there in Hwas.
    rewrite <- Hwas. f_equal. unfold Fs.is_file. rewrite Hkeep; [done|].
    apply not_starts_with_shorter. }
  destruct (ensure_folder folder w') as [r2 w1'] eqn:Een2.
  apply ensure_folder_inv in Een2 as (_ & _ & _ & Hsame2 & _).
  destruct (Hsame2 Hfolder) as [-> ->].
  rewrite (forallb_false_at _ _ n) by (done || by apply list_elem_of_In).
  destruct (slow_path E feature out size sides seq id w') as [r3 w''] eqn:Eslow.
  apply slow_path_log in Eslow as (again & new & -> & Hl & Hshape).
  exists again, w'', new.
  destruct Hshape as [[Hr _]|(u & _ & Hr & _)]; rewrite Hr; eauto.
Qed.

Lemma unknown_name_defeats_fast_path_witness :
  let run := download_clip_img Ex.online Ex.feature "out" 1 "front,up" Ex.fresh in
  path_there run.2 (tile_path ("out" +:+ "/" +:+ "s") "7" "up") = false ∧
  ∃ again w'' new rest,
    download_clip_img Ex.online Ex.feature "out" 1 "front,up" run.2 = (Ok again, w'') ∧
    w_log w'' = w_log run.2 ++ new ∧
    requests new = (api_url "7", api_header Ex.online) :: rest.
Proof.
  intros run.
  apply (unknown_name_defeats_fast_path Ex.online Ex.feature "out" 1 "front,up"
           Ex.fresh [VRef 8] run.2 "s" "7" "up").
  - exact feature_heap_closed.
  - reflexivity.
  - change (split_sides "front,up") with ["front"; "up"]. rewrite !elem_of_cons. auto.
  - unfold face_names. rewrite !elem_of_cons, elem_of_nil.
    intros H. repeat (destruct H as [H|H]; [discriminate H|]). done.
  - discriminate.
  - reflexivity.
  - vm_compute. reflexivity.
Defined.

(* ===================================================================== *)
(** ** A requested name that is the name of the intermediate file *)
(* ===================================================================== *)

Lemma cubemap_is_no_face : "cubemap" ∉ face_names.
Proof.
  unfold face_names. rewrite !elem_of_cons, elem_of_nil.
  intros H. repeat (destruct H as [H|H]; [discriminate H|]). done.
Qed.

(** X24. The tile of a name and the cubemap share their naming scheme.
    When the path [{out}/{seq}/{id}] has no wildcard character and its
    directory part does not end in a slash, and "cubemap" is among the
    requested names, the cleaner takes the cubemap the projector wrote for
    a tile and spares it, so that it is still there when the slow path
    returns, at the path where the tile of the name "cubemap" is looked
    for. *)
Theorem cubemap_name_keeps_intermediate E feature out size sides w seq id w1 w2 src img :
  let folder := out +:+ "/" +:+ seq in
  let equirect := folder +:+ "/" +:+ id +:+ ".jpg" in
  let cubemap := folder +:+ "/" +:+ id +:+ "_cubemap.jpg" in
  feature_ids (w_heap w) feature = Some (seq, id) →
  Fs.glob_supported (folder +:+ "/" +:+ id) = true →
  ensure_folder folder w = (Ok tt, w1) →
  forallb (λ i, path_there w1 (tile_path folder id i)) (split_sides sides) = false →
  fetch_source E (api_url id) (api_header E) equirect w1 = (Ok tt, w2) →
  w_files w2 !! equirect = Some src →
  convert360 E src size = Some img →
  Fs.is_dir (w_dirs w2) cubemap = false →
  "cubemap" ∈ split_sides sides →
  ∃ results w',
    download_clip_img E feature out size sides w = (Ok results, w') ∧
    w_files w' !! cubemap = Some (Pic img) ∧
    tile_path folder id "cubemap" = cubemap ∧
    path_there w' (tile_path folder id "cubemap") = true.
Proof.
  intros folder equirect cubemap Hids Hsup Hen Hslow Hfetch Hsrc Hconv Hdir Hname.
  rewrite (download_run _ _ _ _ _ _ _ _ Hids). fold folder. rewrite Hen, Hslow.
  rewrite slow_path_run. fold folder equirect cubemap.
  unfold fetch_and_split. unfold bind at 1. rewrite Hfetch.
  destruct (os_system_convert360_spec E equirect cubemap size w2)
    as (w2' & Hos & Hd2 & Hcm).
  specialize (Hcm src img Hsrc Hconv Hdir).
  unfold bind at 1. rewrite Hos. unfold bind at 1.
  rewrite (cubemap_splitter_readable _ _ _ _ _ _ _ img) by done.
  cbv zeta. unfold bind at 1.
  match goal with
  | |- context [clean_files folder id sides ?w3] =>
      destruct (clean_files_spec folder id sides w3 Hsup)
        as (msgs & w4 & Hclean & _ & _ & _ & _ & Hf4 & _)
  end.
  rewrite Hclean. unfold ret at 1.
  match goal with
  | |- context [collect feature ?sts [] w4] =>
      destruct (collect_returns feature sts [] w4) as (rs & oe & w5 & -> & Hf5 & _)
  end.
  assert (w_files w4 !! cubemap = Some (Pic img)) as Hkept.
  { rewrite Hf4, decide_False.
    - simpl. rewrite face_writes_other; [done|].
      intros c [Hc _]%requested_cells_named _ Heq.
      unfold face_path, chunk_img_path, cubemap, folder in Heq.
      rewrite !sapp_assoc in Heq. do 5 apply sapp_inv_head in Heq.
      change "_cubemap.jpg" with ("_" +:+ "cubemap" +:+ ".jpg") in Heq.
      apply sapp_inv_head, sapp_inv_tail in Heq. apply cubemap_is_no_face. rewrite <- Heq.
      by apply named_cells_face.
    - intros [_ Hng]. apply Hng. apply list_elem_of_fmap.
      exists "cubemap". split; [|done]. unfold cubemap. by rewrite !sapp_assoc. }
  assert (∃ w', (match oe with
                 | Some e => (Ok rs, (print_exn EmptyString e EmptyString w5).2)
                 | None => (Ok rs, w5)
                 end) = (Ok rs, w') ∧ w_files w' = w_files w4) as (w' & -> & Hf').
  { destruct oe; eexists; (split; [reflexivity|done]). }
  exists rs, w'. split; [done|]. rewrite Hf'. split; [done|]. split; [done|].
  change (tile_path folder id "cubemap") with cubemap.
  unfold path_there, Fs.is_file. rewrite Hf', Hkept.
  by rewrite bool_decide_eq_true_2.
Qed.

Lemma cubemap_name_keeps_intermediate_witness :
  let w1 := (ensure_folder "out/s" Ex.fresh).2 in
  ∃ results w',
    download_clip_img Ex.online Ex.feature "out" 1 "front,cubemap" Ex.fresh
    = (Ok results, w') ∧
    w_files w' !! (("out" +:+ "/" +:+ "s") +:+ "/" +:+ "7" +:+ "_cubemap.jpg")
    = Some (Pic Ex.cubemap_4x3) ∧
    tile_path ("out" +:+ "/" +:+ "s") "7" "cubemap"
    = ("out" +:+ "/" +:+ "s") +:+ "/" +:+ "7" +:+ "_cubemap.jpg" ∧
    path_there w' (tile_path ("out" +:+ "/" +:+ "s") "7" "cubemap") = true.
Proof.
  intros w1.
  apply (cubemap_name_keeps_intermediate Ex.online Ex.feature "out" 1
           "front,cubemap" Ex.fresh "s" "7" w1
           (fetch_source Ex.online (api_url "7") (api_header Ex.online)
              "out/s/7.jpg" w1).2
           (Raw "jpeg bytes") Ex.cubemap_4x3).
  - reflexivity.
  - reflexivity.
  - reflexivity.
  - reflexivity.
  - reflexivity.
  - reflexivity.
  - reflexivity.
  - reflexivity.
  - change (split_sides "front,cubemap") with ["front"; "cubemap"].
    rewrite !elem_of_cons. auto.
Defined.
